(** * Configuration and logging bootstrap of QuackMetadata / QuackTool

    A shallow embedding of [src/quackmetadata/config.py] and of its
    near-duplicate [src/quacktool/config.py]: the module-level state
    ([_config], [_file_handlers]), the process-wide root logger, and the
    functions [initialize_config], [get_config], [get_tool_config],
    [update_tool_config] and [_close_file_handlers].

    Python objects that the module mutates or compares by identity
    (configuration objects, dictionaries, logging handlers) live in
    stores and are named by their index; functions are state transformers
    that return either a value or a raised exception together with the
    state reached. *)

From stdpp Require Import base option list gmap strings.
From Stdlib Require Import ZArith Lia.

Open Scope string_scope.
Open Scope list_scope.

(** ** Python values and objects *)

Abbreviation loc := nat (only parsing).

(** A value is a scalar, an opaque object (function, class, module) known
    only by its name, or a reference to an object of the heap. *)
Inductive val : Type :=
  | VNone
  | VBool (b : bool)
  | VInt (z : Z)
  | VStr (s : string)
  | VOpaque (name : string)
  | VRef (l : loc).

(** Heap objects: a [dict] with string keys, or an instance whose
    attributes are exactly the entries of [attrs]. *)
Inductive pyobj : Type :=
  | ODict (d : gmap string val)
  | OInst (attrs : gmap string val).

(** ** Exceptions and results *)

Inductive os_error : Type :=
  | PermissionDenied     (* PermissionError *)
  | ReadOnlyFilesystem   (* OSError, errno EROFS *)
  | OtherIO (errno : Z).

Inductive exn : Type :=
  | OSError (e : os_error)
  | TypeError
  | ValueError
  | OtherError (name : string)
  | InvalidRef.          (* a store index that no object was created at *)

Inductive result (A : Type) : Type :=
  | Ok (a : A)
  | Raise (e : exn).
Arguments Ok {A} a.
Arguments Raise {A} e.

(** [except (OSError, PermissionError)]: [PermissionError] is a subclass
    of [OSError], so the clause catches exactly the [OSError] family. *)
Definition is_OSError (e : exn) : bool :=
  match e with OSError _ => true | _ => false end.

(** ** The [logging] module: levels *)

Module logging.

Definition CRITICAL : Z := 50.
Definition FATAL : Z := CRITICAL.
Definition ERROR : Z := 40.
Definition WARNING : Z := 30.
Definition WARN : Z := WARNING.
Definition INFO : Z := 20.
Definition DEBUG : Z := 10.
Definition NOTSET : Z := 0.

(** [logging._nameToLevel], the standard level table. *)
Definition _nameToLevel : gmap string Z :=
  list_to_map
    [ ("CRITICAL", CRITICAL); ("FATAL", FATAL); ("ERROR", ERROR);
      ("WARN", WARN); ("WARNING", WARNING); ("INFO", INFO);
      ("DEBUG", DEBUG); ("NOTSET", NOTSET) ].

(** Public functions, classes and handler objects of the module (names
    of its [__all__]): each is an attribute of the module object whose
    value is neither an integer nor a string. *)
Definition objects : list string :=
  [ "BufferingFormatter"; "FileHandler"; "Filter"; "Formatter"; "Handler";
    "LogRecord"; "Logger"; "LoggerAdapter"; "NullHandler"; "StreamHandler";
    "addLevelName"; "basicConfig"; "captureWarnings"; "critical"; "debug";
    "disable"; "error"; "exception"; "fatal"; "getLevelName"; "getLogger";
    "getLoggerClass"; "info"; "log"; "makeLogRecord"; "setLoggerClass";
    "shutdown"; "warn"; "warning"; "getLogRecordFactory";
    "setLogRecordFactory"; "lastResort" ].

(** The documented attributes of the module object: the level constants,
    the data attributes [BASIC_FORMAT] and [raiseExceptions], and the
    objects above. The module object has more than these; see [getattr]. *)
Definition namespace : gmap string val :=
  (VInt <$> _nameToLevel)
  ∪ {[ "BASIC_FORMAT" := VStr "%(levelname)s:%(name)s:%(message)s";
       "raiseExceptions" := VBool true ]}
  ∪ list_to_map ((λ n, (n, VOpaque n)) <$> objects).

(** [getattr(logging, name, default)]: the attribute name must be a
    string; an absent attribute yields the default. What the module
    object holds besides [namespace] (private names, the modules it
    imports such as [os] and [sys], its submodules once something has
    imported them, functions of later versions) depends on the
    interpreter and on the process: [others] answers for those names. *)
Definition getattr (others : string → option val) (name : val) (dflt : val) : result val :=
  match name with
  | VStr s =>
      Ok (default dflt
            (match namespace !! s with
             | Some v => Some v
             | None => others s
             end))
  | _ => Raise TypeError
  end.

End logging.

(** [logging._checkLevel], used by every [setLevel]: an [int] (and so a
    [bool]) is taken as it is, a string must be a key of the level table,
    anything else is a [TypeError]. *)
Definition _checkLevel (level : val) : result Z :=
  match level with
  | VInt z => Ok z
  | VBool b => Ok (if b then 1 else 0)%Z
  | VStr s =>
      match logging._nameToLevel !! s with
      | Some z => Ok z
      | None => Raise ValueError
      end
  | _ => Raise TypeError
  end.

(** ** Logging handlers *)

(** The most specific of the three classes a handler is an instance of:
    [isinstance(h, logging.FileHandler)] holds for [FileHandler] only, and
    [isinstance(h, logging.StreamHandler)] for [StreamHandler] and
    [FileHandler] (its subclass). *)
Inductive handler_class : Type := StreamHandler | FileHandler | OtherHandler.

Record handler : Type := mkHandler {
  h_class : handler_class;
  h_level : Z;
  h_closed : bool }.

Definition is_console (h : handler) : bool :=
  match h_class h with StreamHandler => true | _ => false end.
Definition is_file (h : handler) : bool :=
  match h_class h with FileHandler => true | _ => false end.

(** What happens to the file descriptors of the log files, and in which
    part of the module: inside [initialize_config], or in the [atexit]
    hook [_close_file_handlers]. *)
Inductive phase : Type := InInitialize | AtExit.
Inductive event : Type :=
  | Opened (h : nat) (dir file : string)
  | Released (h : nat) (p : phase).

(** ** Host configuration objects *)

(** The [custom] region: a [dict], or a plain object whose attributes are
    the entries of [a]. *)
Inductive custom_region : Type :=
  | Mapping (m : gmap string val)
  | Attrs (a : gmap string val).

Record QuackConfig : Type := mkQuackConfig {
  custom : custom_region;
  paths_logs_dir : option val }.   (* [None]: [paths] has no [logs_dir] *)

(** ** The process state *)

Record world : Type := mkWorld {
  heap : list pyobj;               (* dicts and instances, by address *)
  configs : list QuackConfig;      (* configuration objects, by address *)
  handlers : list handler;         (* every handler object created so far *)
  root_level : Z;                  (* logging.getLogger().level *)
  root_handlers : list nat;        (* logging.getLogger().handlers *)
  _file_handlers : list nat;       (* the module's Handler Registry *)
  _config : option nat;            (* the module's singleton reference *)
  trace : list event }.

(** A fresh interpreter that has imported the module: no object yet, the
    root logger at WARNING with no handler, [_file_handlers = []] and
    [_config = None]. *)
Definition initial_world : world :=
  {| heap := []; configs := []; handlers := [];
     root_level := logging.WARNING; root_handlers := [];
     _file_handlers := []; _config := None; trace := [] |}.

Definition set_heap (f : list pyobj → list pyobj) (w : world) : world :=
  {| heap := f (heap w); configs := configs w; handlers := handlers w;
     root_level := root_level w; root_handlers := root_handlers w;
     _file_handlers := _file_handlers w; _config := _config w;
     trace := trace w |}.
Definition set_configs (f : list QuackConfig → list QuackConfig) (w : world) : world :=
  {| heap := heap w; configs := f (configs w); handlers := handlers w;
     root_level := root_level w; root_handlers := root_handlers w;
     _file_handlers := _file_handlers w; _config := _config w;
     trace := trace w |}.
Definition set_handlers (f : list handler → list handler) (w : world) : world :=
  {| heap := heap w; configs := configs w; handlers := f (handlers w);
     root_level := root_level w; root_handlers := root_handlers w;
     _file_handlers := _file_handlers w; _config := _config w;
     trace := trace w |}.
Definition set_root_level (z : Z) (w : world) : world :=
  {| heap := heap w; configs := configs w; handlers := handlers w;
     root_level := z; root_handlers := root_handlers w;
     _file_handlers := _file_handlers w; _config := _config w;
     trace := trace w |}.
Definition set_root_handlers (f : list nat → list nat) (w : world) : world :=
  {| heap := heap w; configs := configs w; handlers := handlers w;
     root_level := root_level w; root_handlers := f (root_handlers w);
     _file_handlers := _file_handlers w; _config := _config w;
     trace := trace w |}.
Definition set_file_handlers (f : list nat → list nat) (w : world) : world :=
  {| heap := heap w; configs := configs w; handlers := handlers w;
     root_level := root_level w; root_handlers := root_handlers w;
     _file_handlers := f (_file_handlers w); _config := _config w;
     trace := trace w |}.
Definition set_config (c : option nat) (w : world) : world :=
  {| heap := heap w; configs := configs w; handlers := handlers w;
     root_level := root_level w; root_handlers := root_handlers w;
     _file_handlers := _file_handlers w; _config := c;
     trace := trace w |}.
Definition emit (e : event) (w : world) : world :=
  {| heap := heap w; configs := configs w; handlers := handlers w;
     root_level := root_level w; root_handlers := root_handlers w;
     _file_handlers := _file_handlers w; _config := _config w;
     trace := trace w ++ [e] |}.

(** ** The monad of the module's functions

    A function takes the process state and returns its result, a value or
    a raised exception, with the state it leaves behind: what was mutated
    before an exception stays mutated. *)

Definition M (A : Type) : Type := world → result A * world.

#[global] Instance M_ret : MRet M := λ A a w, (Ok a, w).
#[global] Instance M_bind : MBind M := λ A B k m w,
  match m w with
  | (Ok a, w') => k a w'
  | (Raise e, w') => (Raise e, w')
  end.

Definition raise {A} (e : exn) : M A := λ w, (Raise e, w).
Definition lift {A} (r : result A) : M A := λ w, (r, w).
Definition gets {A} (f : world → A) : M A := λ w, (Ok (f w), w).
Definition modify (f : world → world) : M unit := λ w, (Ok tt, f w).

(** [try: body except <classes matched by catches>: handler]. *)
Definition try_except {A} (body : M A) (catches : exn → bool) (handler : M A) : M A :=
  λ w, match body w with
       | (Raise e, w') => if catches e then handler w' else (Raise e, w')
       | r => r
       end.

(** [for x in xs: body(x)], over a list that the body does not change. *)
Fixpoint for_each {A} (xs : list A) (body : A → M unit) : M unit :=
  match xs with
  | [] => mret tt
  | x :: xs' => body x ;; for_each xs' body
  end.

(** ** Objects, dictionaries and the [custom] region *)

Definition alloc (o : pyobj) : M loc :=
  λ w, (Ok (length (heap w)), set_heap (λ h, h ++ [o]) w).

Definition deref (l : loc) : M pyobj :=
  λ w, match heap w !! l with
       | Some o => (Ok o, w)
       | None => (Raise InvalidRef, w)
       end.

Definition deref_config (c : nat) : M QuackConfig :=
  λ w, match configs w !! c with
       | Some cfg => (Ok cfg, w)
       | None => (Raise InvalidRef, w)
       end.

(** [isinstance(v, dict)]. *)
Definition isinstance_dict (v : val) : M bool :=
  match v with
  | VRef l => o ← deref l; mret (match o with ODict _ => true | OInst _ => false end)
  | _ => mret false
  end.

(** [d.update(other)] on the contents of [d], for [other] a dict: each item
    of [other] is assigned in turn. *)
Definition dict_update (d other : gmap string val) : gmap string val :=
  map_fold (λ k v acc, <[k:=v]> acc) d other.

(** [dict(v)]: a new dict with the items of the dict [v]. *)
Definition dict_copy (v : val) : M loc :=
  match v with
  | VRef l => o ← deref l;
              match o with
              | ODict d => alloc (ODict d)
              | OInst _ => raise TypeError
              end
  | _ => raise TypeError
  end.

(** [updated.update(new_config)], in place on the dict at [updated]. An
    argument that is no dict is not iterable as key/value pairs: an empty
    string is an empty sequence of pairs, another string a [ValueError],
    anything else a [TypeError]. *)
Definition update_method (updated : loc) (new_config : val) : M unit :=
  match new_config with
  | VRef l =>
      o ← deref l;
      match o with
      | ODict p =>
          self ← deref updated;
          match self with
          | ODict d => modify (set_heap (λ h, <[updated := ODict (dict_update d p)]> h))
          | OInst _ => raise TypeError
          end
      | OInst _ => raise TypeError
      end
  | VStr "" => mret tt
  | VStr _ => raise ValueError
  | _ => raise TypeError
  end.

(** The names [hasattr] finds on every [dict]. *)
Definition dict_methods : list string :=
  [ "clear"; "copy"; "fromkeys"; "get"; "items"; "keys"; "pop"; "popitem";
    "setdefault"; "update"; "values" ].

Definition hasattr (c : custom_region) (name : string) : bool :=
  match c with
  | Mapping _ => bool_decide (name ∈ dict_methods)
  | Attrs a => bool_decide (is_Some (a !! name))
  end.

(** [key in c]: only a mapping supports the containment test. *)
Definition contains (c : custom_region) (key : string) : result bool :=
  match c with
  | Mapping m => Ok (bool_decide (is_Some (m !! key)))
  | Attrs _ => Raise TypeError
  end.

(** [c.get(key, default)]: the method of [dict]; on a plain object a [get]
    attribute is no such method. *)
Definition get_method (c : custom_region) (key : string) (dflt : val) : result val :=
  match c with
  | Mapping m => Ok (default dflt (m !! key))
  | Attrs _ => Raise TypeError
  end.

(** [getattr(c, name, default)]. *)
Definition getattr (c : custom_region) (name : string) (dflt : val) : val :=
  match c with
  | Mapping _ => dflt
  | Attrs a => default dflt (a !! name)
  end.

(** [c[key] = v]. *)
Definition setitem (c : custom_region) (key : string) (v : val) : result custom_region :=
  match c with
  | Mapping m => Ok (Mapping (<[key := v]> m))
  | Attrs _ => Raise TypeError
  end.

(** [setattr(c, name, v)]: a [dict] accepts no new attribute. *)
Definition setattr (c : custom_region) (name : string) (v : val) : result custom_region :=
  match c with
  | Mapping _ => Raise (OtherError "AttributeError")
  | Attrs a => Ok (Attrs (<[name := v]> a))
  end.

(** ** The root logger *)

Definition new_handler (cls : handler_class) : M nat :=
  λ w, (Ok (length (handlers w)),
        set_handlers (λ hs, hs ++ [mkHandler cls logging.NOTSET false]) w).

Definition handler_setLevel (h : nat) (level : val) : M unit :=
  z ← lift (_checkLevel level);
  modify (set_handlers (λ hs,
    match hs !! h with
    | Some hd => <[h := mkHandler (h_class hd) z (h_closed hd)]> hs
    | None => hs
    end)).

Definition root_setLevel (level : val) : M unit :=
  z ← lift (_checkLevel level);
  modify (set_root_level z).

(** [Logger.addHandler]: appended unless already attached. *)
Definition addHandler (h : nat) : M unit :=
  modify (set_root_handlers (λ hs, if bool_decide (h ∈ hs) then hs else hs ++ [h])).

Fixpoint remove_first (h : nat) (hs : list nat) : list nat :=
  match hs with
  | [] => []
  | x :: hs' => if bool_decide (x = h) then hs' else x :: remove_first h hs'
  end.

(** [Logger.removeHandler]: [list.remove] of the handler if attached. *)
Definition removeHandler (h : nat) : M unit :=
  modify (set_root_handlers (remove_first h)).

(** [Handler.close()]. Closing twice is harmless: a [FileHandler] releases
    its stream only if it still has one. The call never raises. *)
Definition close_handler (p : phase) (h : nat) (w : world) : world :=
  match handlers w !! h with
  | Some hd =>
      if h_closed hd then w
      else
        let w' := set_handlers
                    (λ hs, <[h := mkHandler (h_class hd) (h_level hd) true]> hs) w in
        if is_file hd then emit (Released h p) w' else w'
  | None => w
  end.

Definition close (p : phase) (h : nat) : M unit := modify (close_handler p h).

(** [isinstance] tests on an attached handler. *)
Definition handler_is (test : handler → bool) (h : nat) : M bool :=
  gets (λ w, match handlers w !! h with Some hd => test hd | None => false end).

(** [logging.basicConfig(level=level, force=True)]: every handler of the
    root logger is removed and closed, a new [StreamHandler] is attached,
    and the level is set last. *)
Definition basicConfig (level : val) : M unit :=
  hs ← gets root_handlers;
  for_each hs (λ h, removeHandler h ;; close InInitialize h) ;;
  hs' ← gets root_handlers;
  match hs' with
  | [] =>
      h ← new_handler StreamHandler;
      addHandler h ;;
      match level with
      | VNone => mret tt
      | _ => root_setLevel level
      end
  | _ => raise ValueError
  end.

(** ** The Settings Models and the two tools *)

Record QuackMetadataConfig : Type := {
  qm_default_prompt_template : string;
  qm_max_retries : Z;
  qm_output_format : string;
  qm_temp_dir : string;
  qm_output_dir : string;
  qm_log_level : string }.

(** [QuackMetadataConfig()]: every field at its declared default. *)
Definition QuackMetadataConfig_defaults : QuackMetadataConfig :=
  {| qm_default_prompt_template := "generic"; qm_max_retries := 3;
     qm_output_format := "json"; qm_temp_dir := "./temp";
     qm_output_dir := "./output"; qm_log_level := "INFO" |}.

Definition QuackMetadataConfig_model_dump (c : QuackMetadataConfig) : gmap string val :=
  list_to_map
    [ ("default_prompt_template", VStr (qm_default_prompt_template c));
      ("max_retries", VInt (qm_max_retries c));
      ("output_format", VStr (qm_output_format c));
      ("temp_dir", VStr (qm_temp_dir c));
      ("output_dir", VStr (qm_output_dir c));
      ("log_level", VStr (qm_log_level c)) ].

Record QuackToolConfig : Type := {
  qt_default_quality : Z;
  qt_default_format : string;
  qt_temp_dir : string;
  qt_output_dir : string;
  qt_log_level : string }.

Definition QuackToolConfig_defaults : QuackToolConfig :=
  {| qt_default_quality := 80; qt_default_format := "webp";
     qt_temp_dir := "./temp"; qt_output_dir := "./output";
     qt_log_level := "INFO" |}.

Definition QuackToolConfig_model_dump (c : QuackToolConfig) : gmap string val :=
  list_to_map
    [ ("default_quality", VInt (qt_default_quality c));
      ("default_format", VStr (qt_default_format c));
      ("temp_dir", VStr (qt_temp_dir c));
      ("output_dir", VStr (qt_output_dir c));
      ("log_level", VStr (qt_log_level c)) ].

(** What differs between the two copies of [config.py]: the name of the
    section in [custom], the dumped defaults of the Settings Model, and
    the name of the log file. *)
Record tool : Type := mkTool {
  tool_name : string;
  defaults_dump : gmap string val;
  log_file_name : string }.

Definition quackmetadata : tool :=
  {| tool_name := "quackmetadata";
     defaults_dump := QuackMetadataConfig_model_dump QuackMetadataConfig_defaults;
     log_file_name := "quackmetadata.log" |}.

Definition quacktool : tool :=
  {| tool_name := "quacktool";
     defaults_dump := QuackToolConfig_model_dump QuackToolConfig_defaults;
     log_file_name := "quacktool.log" |}.

(** ** What a call meets outside the module

    The host's loader, the environment, the filesystem and the rest of
    the [logging] module object are not part of the module; a call is run
    against their answers. *)

(** A successful [load_config]: the objects the loader created, and the
    configuration object it returns (a new one on every call). *)
Inductive loaded : Type := Loaded (objs : list pyobj) (cfg : QuackConfig).

Record env : Type := mkEnv {
  load_config : option string → result loaded;  (* by [config_path] *)
  PYTEST_CURRENT_TEST : bool;                   (* the variable is set *)
  mkdir : string → option exn;                  (* by directory; [None]: done *)
  open_append : string → string → option exn;   (* by directory and file name *)
  logging_attribute : string → option val }.    (* [logging]'s other attributes *)

(** [Path(v)]: only a string is a path here. *)
Definition Path (v : val) : result string :=
  match v with
  | VStr s => Ok s
  | _ => Raise TypeError
  end.

(** [Path(dir).mkdir(parents=True, exist_ok=True)]. *)
Definition Path_mkdir (E : env) (dir : string) : M unit :=
  match mkdir E dir with
  | Some e => raise e
  | None => mret tt
  end.

(** [logging.FileHandler(Path(dir) / file, mode="a")]: the file is opened
    by the constructor; when that fails no handler exists. *)
Definition FileHandler_new (E : env) (dir file : string) : M nat :=
  match open_append E dir file with
  | Some e => raise e
  | None =>
      h ← new_handler FileHandler;
      modify (emit (Opened h dir file)) ;;
      mret h
  end.

(** [load_config(config_path)]. *)
Definition call_load_config (E : env) (config_path : option string) : M nat :=
  match load_config E config_path with
  | Raise e => raise e
  | Ok (Loaded objs cfg) =>
      c ← gets (λ w, length (configs w));
      modify (set_heap (λ h, h ++ objs)) ;;
      modify (set_configs (λ cs, cs ++ [cfg])) ;;
      mret c
  end.

(** [d.get(key, default)] on the dict [v], and [getattr(v, name, default)]
    on any value: scalars and opaque objects have no such attribute. *)
Definition dict_get (v : val) (key : string) (dflt : val) : M val :=
  match v with
  | VRef l => o ← deref l;
              match o with
              | ODict d => mret (default dflt (d !! key))
              | OInst _ => raise TypeError
              end
  | _ => raise TypeError
  end.

Definition getattr_val (v : val) (name : string) (dflt : val) : M val :=
  match v with
  | VRef l => o ← deref l;
              match o with
              | ODict _ => mret dflt
              | OInst a => mret (default dflt (a !! name))
              end
  | _ => mret dflt
  end.

Definition custom_of (c : nat) : M custom_region :=
  cfg ← deref_config c; mret (custom cfg).

Definition update_custom (c : nat) (f : custom_region → result custom_region) : M unit :=
  cfg ← deref_config c;
  cu ← lift (f (custom cfg));
  modify (set_configs (λ cs,
    <[c := {| custom := cu; paths_logs_dir := paths_logs_dir cfg |}]> cs)).

(** ** The module's functions *)

Section config_py.
Context (T : tool).

(** [_close_file_handlers], registered with [atexit]. A handler object is
    always truthy, so [if handler:] lets every entry through. *)
Definition _close_file_handlers : M unit :=
  hs ← gets _file_handlers;
  for_each hs (λ handler, close AtExit handler) ;;
  modify (set_file_handlers (λ _, [])).

(** [initialize_config], lines 95-106: create the tool's section if it is
    not present, by key or by attribute, and read it back. The [{}] given
    as default is a new empty dict at every evaluation. *)
Definition ensure_tool_section (quack_config : nat) : M val :=
  cu ← custom_of quack_config;
  if hasattr cu "get" then
    (* Dictionary-like access *)
    present ← lift (contains cu (tool_name T));
    (if negb (present : bool) then
       d ← alloc (ODict (defaults_dump T));
       update_custom quack_config (λ c, setitem c (tool_name T) (VRef d))
     else mret tt) ;;
    empty ← alloc (ODict ∅);
    cu' ← custom_of quack_config;
    lift (get_method cu' (tool_name T) (VRef empty))
  else
    (* Attribute-based access *)
    (if negb (hasattr cu (tool_name T)) then
       d ← alloc (ODict (defaults_dump T));
       update_custom quack_config (λ c, setattr c (tool_name T) (VRef d))
     else mret tt) ;;
    empty ← alloc (ODict ∅);
    cu' ← custom_of quack_config;
    mret (getattr cu' (tool_name T) (VRef empty)).

(** Lines 108-113: the name of the log level, by [.get] on a dict and by
    [getattr] on anything else. *)
Definition read_log_level_name (metadata_config : val) : M val :=
  is_dict ← isinstance_dict metadata_config;
  if (is_dict : bool) then dict_get metadata_config "log_level" (VStr "INFO")
  else getattr_val metadata_config "log_level" (VStr "INFO").

(** Lines 134-142: add a console handler if none exists. *)
Definition add_console_handler (log_level : val) : M unit :=
  has_console_handler ← gets (λ w,
    existsb (λ h, match handlers w !! h with
                  | Some hd => is_console hd
                  | None => false
                  end) (root_handlers w));
  if negb (has_console_handler : bool) then
    console_handler ← new_handler StreamHandler;
    handler_setLevel console_handler log_level ;;
    addHandler console_handler
  else mret tt.

(** Lines 144-148: remove and close the file handlers of the root logger;
    the loop runs over a copy of the handler list. *)
Definition remove_file_handlers : M unit :=
  attached ← gets root_handlers;
  for_each attached (λ handler,
    is_fh ← handler_is is_file handler;
    if (is_fh : bool) then removeHandler handler ;; close InInitialize handler
    else mret tt).

(** Lines 164-174: the [try] statement. *)
Definition add_file_handler (E : env) (logs_dir : string) (log_level : val) : M unit :=
  try_except
    (file_handler ← FileHandler_new E logs_dir (log_file_name T);
     handler_setLevel file_handler log_level ;;
     addHandler file_handler ;;
     (* Track for cleanup *)
     modify (set_file_handlers (λ r, r ++ [file_handler])))
    is_OSError
    (mret tt).

Definition initialize_config (E : env) (config_path : option string) : M nat :=
  (* Reset global config to ensure a fresh load *)
  modify (set_config None) ;;
  (* Load configuration from file or defaults *)
  quack_config ← call_load_config E config_path;
  metadata_config ← ensure_tool_section quack_config;
  (* Get the log level from the section *)
  log_level_name ← read_log_level_name metadata_config;
  log_level ← lift (logging.getattr (logging_attribute E) log_level_name
                      (VInt logging.INFO));
  if PYTEST_CURRENT_TEST E then
    (* Just set the log level without file handlers during tests *)
    basicConfig log_level ;;
    Path_mkdir E "./logs" ;;
    mret quack_config
  else
    (* Configure root logger *)
    root_setLevel log_level ;;
    add_console_handler log_level ;;
    remove_file_handlers ;;
    (* logs_dir: [paths.logs_dir] if the attribute exists, else "./logs" *)
    cfg ← deref_config quack_config;
    logs_dir ← lift (Path (default (VStr "./logs") (paths_logs_dir cfg)));
    (* Always ensure the directory exists *)
    Path_mkdir E logs_dir ;;
    add_file_handler E logs_dir log_level ;;
    mret quack_config.

(** [get_config]: on [_config is None] the result of [initialize_config()]
    is stored in [_config]; [_config] is returned. *)
Definition get_config (E : env) : M nat :=
  c ← gets _config;
  match c with
  | None =>
      r ← initialize_config E None;
      modify (set_config (Some r)) ;;
      mret r
  | Some r => mret r
  end.

Definition get_tool_config (E : env) : M val :=
  config ← get_config E;
  cu ← custom_of config;
  empty ← alloc (ODict ∅);
  if hasattr cu "get" then lift (get_method cu (tool_name T) (VRef empty))
  else mret (getattr cu (tool_name T) (VRef empty)).

Definition update_tool_config (E : env) (new_config : val) : M unit :=
  config ← get_config E;
  tool_config ← get_tool_config E;
  (* Make a copy of the current config *)
  is_dict ← isinstance_dict tool_config;
  updated_config ←
    (if (is_dict : bool) then
       updated ← dict_copy tool_config;
       update_method updated new_config ;;
       mret (VRef updated)
     else mret new_config);
  (* Handle both dictionary-based and attribute-based access *)
  cu ← custom_of config;
  if hasattr cu "get" then
    update_custom config (λ c, setitem c (tool_name T) updated_config)
  else
    update_custom config (λ c, setattr c (tool_name T) updated_config).

End config_py.

(** ** Runs of the module

    A process calls the public functions in some order, each call against
    what the outside answers at that moment, and finally exits, which runs
    the [atexit] hook. *)

Inductive call : Type :=
  | Initialize (E : env) (config_path : option string)
  | GetConfig (E : env)
  | GetToolConfig (E : env)
  | UpdateToolConfig (E : env) (new_config : val).

(** The state a call leaves, whether it returned or raised. *)
Definition run_call (T : tool) (c : call) (w : world) : world :=
  match c with
  | Initialize E p => (initialize_config T E p w).2
  | GetConfig E => (get_config T E w).2
  | GetToolConfig E => (get_tool_config T E w).2
  | UpdateToolConfig E v => (update_tool_config T E v w).2
  end.

Definition run_calls (T : tool) (cs : list call) (w : world) : world :=
  foldl (λ w c, run_call T c w) w cs.

Definition process_exit (w : world) : world := (_close_file_handlers w).2.

(** [n] successive [initialize_config] calls. *)
Definition reinitialize (T : tool) (es : list (env * option string)) (w : world) : world :=
  run_calls T ((λ e, Initialize e.1 e.2) <$> es) w.

(** ** Observations on a state *)

Definition handler_test (test : handler → bool) (w : world) (h : nat) : bool :=
  match handlers w !! h with
  | Some hd => test hd
  | None => false
  end.

Definition console_at : world → nat → bool := handler_test is_console.
Definition file_at : world → nat → bool := handler_test is_file.
(** A file handler that still holds its descriptor. *)
Definition live_at : world → nat → bool :=
  handler_test (λ hd, is_file hd && negb (h_closed hd)).
Definition closed_at : world → nat → bool := handler_test h_closed.

Fixpoint count (f : nat → bool) (l : list nat) : nat :=
  match l with
  | [] => 0
  | x :: l' => (if f x then 1 else 0) + count f l'
  end.

(** How often the descriptor of handler [h] was released, in all and in
    one phase. *)
Fixpoint releases (h : nat) (tr : list event) : nat :=
  match tr with
  | [] => 0
  | Released h' _ :: tr' => (if bool_decide (h' = h) then 1 else 0) + releases h tr'
  | Opened _ _ _ :: tr' => releases h tr'
  end.

Definition phase_eqb (p q : phase) : bool :=
  match p, q with
  | InInitialize, InInitialize | AtExit, AtExit => true
  | _, _ => false
  end.

Fixpoint releases_in (p : phase) (h : nat) (tr : list event) : nat :=
  match tr with
  | [] => 0
  | Released h' q :: tr' =>
      (if bool_decide (h' = h) && phase_eqb p q then 1 else 0) + releases_in p h tr'
  | Opened _ _ _ :: tr' => releases_in p h tr'
  end.

(** The descriptors open after a trace, starting from [live]. *)
Fixpoint live_after (live : list nat) (tr : list event) : list nat :=
  match tr with
  | [] => live
  | Opened h _ _ :: tr' => live_after (live ++ [h]) tr'
  | Released h _ :: tr' => live_after (List.filter (λ x, negb (Nat.eqb x h)) live) tr'
  end.

(** No log file is opened while another descriptor is still open. *)
Fixpoint one_at_a_time (live : list nat) (tr : list event) : bool :=
  match tr with
  | [] => true
  | Opened h _ _ :: tr' =>
      match live with
      | [] => one_at_a_time [h] tr'
      | _ => false
      end
  | Released h _ :: tr' =>
      one_at_a_time (List.filter (λ x, negb (Nat.eqb x h)) live) tr'
  end.

(** The tool's section in the configuration object at [c]. *)
Definition entries (cu : custom_region) : gmap string val :=
  match cu with Mapping m => m | Attrs a => a end.

Definition section_of (T : tool) (w : world) (c : nat) : option val :=
  cfg ← configs w !! c; entries (custom cfg) !! tool_name T.

(** The dict a value refers to. *)
Definition dict_at (w : world) (v : val) : option (gmap string val) :=
  match v with
  | VRef l => match heap w !! l with Some (ODict d) => Some d | _ => None end
  | _ => None
  end.

(** * Properties *)

(** ** Running the monad *)

Lemma bind_run {A B} (m : M A) (k : A → M B) w :
  (m ≫= k) w =
  match m w with
  | (Ok a, w') => k a w'
  | (Raise e, w') => (Raise e, w')
  end.
Proof. reflexivity. Qed.

Lemma bind_ok {A B} (m : M A) (k : A → M B) w a w' :
  m w = (Ok a, w') → (m ≫= k) w = k a w'.
Proof. intros H. rewrite bind_run, H. reflexivity. Qed.

Lemma bind_raise {A B} (m : M A) (k : A → M B) w e w' :
  m w = (Raise e, w') → (m ≫= k) w = (Raise e, w').
Proof. intros H. rewrite bind_run, H. reflexivity. Qed.

(** A property of the state that a computation keeps, whatever it
    returns or raises. *)
Definition preserves {A} (I : world → Prop) (m : M A) : Prop :=
  ∀ w, I w → I (m w).2.

Lemma preserves_ret {A} I (a : A) : preserves I (mret a).
Proof. intros w H. exact H. Qed.

Lemma preserves_raise {A} I e : preserves I (raise (A:=A) e).
Proof. intros w H. exact H. Qed.

Lemma preserves_lift {A} I (r : result A) : preserves I (lift r).
Proof. intros w H. exact H. Qed.

Lemma preserves_gets {A} I (f : world → A) : preserves I (gets f).
Proof. intros w H. exact H. Qed.

Lemma preserves_modify I f : (∀ w, I w → I (f w)) → preserves I (modify f).
Proof. intros Hf w H. apply Hf, H. Qed.

Lemma preserves_bind {A B} I (m : M A) (k : A → M B) :
  preserves I m → (∀ a, preserves I (k a)) → preserves I (m ≫= k).
Proof.
  intros Hm Hk w H. rewrite bind_run. specialize (Hm w H).
  destruct (m w) as [[a|e] w']; simpl in *; [by apply Hk | done].
Qed.

Lemma preserves_try {A} I (body handler : M A) catches :
  preserves I body → preserves I handler →
  preserves I (try_except body catches handler).
Proof.
  intros Hb Hh w H. unfold try_except. specialize (Hb w H).
  destruct (body w) as [[a|e] w']; simpl in *; [done|].
  destruct (catches e); [by apply Hh | done].
Qed.

Lemma preserves_for_each {A} I (xs : list A) body :
  (∀ x, preserves I (body x)) → preserves I (for_each xs body).
Proof.
  intros Hb. induction xs as [|x xs IH]; simpl.
  - apply preserves_ret.
  - apply preserves_bind; [apply Hb | intros _; apply IH].
Qed.

Lemma preserves_if {A} I (b : bool) (m1 m2 : M A) :
  preserves I m1 → preserves I m2 → preserves I (if b then m1 else m2).
Proof. by destruct b. Qed.

(** A computation that cannot raise. *)
Definition total {A} (m : M A) : Prop := ∀ w, ∃ a, (m w).1 = Ok a.

Lemma total_ret {A} (a : A) : total (mret a).
Proof. intros w. by exists a. Qed.

Lemma total_gets {A} (f : world → A) : total (gets f).
Proof. intros w. by eexists. Qed.

Lemma total_modify f : total (modify f).
Proof. intros w. by eexists. Qed.

Lemma total_bind {A B} (m : M A) (k : A → M B) :
  total m → (∀ a, total (k a)) → total (m ≫= k).
Proof.
  intros Hm Hk w. rewrite bind_run. destruct (Hm w) as [a Ha].
  destruct (m w) as [r w']; simpl in Ha; subst r. apply Hk.
Qed.

Lemma total_for_each {A} (xs : list A) body :
  (∀ x, total (body x)) → total (for_each xs body).
Proof.
  intros Hb. induction xs as [|x xs IH]; simpl.
  - apply total_ret.
  - apply total_bind; [apply Hb | intros _; apply IH].
Qed.

Lemma total_if {A} (b : bool) (m1 m2 : M A) :
  total m1 → total m2 → total (if b then m1 else m2).
Proof. by destruct b. Qed.

Lemma total_run {A} (m : M A) w : total m → ∃ a, m w = (Ok a, (m w).2).
Proof. intros H. destruct (H w) as [a Ha]. exists a. destruct (m w); simpl in *; by subst. Qed.

(** ** Which part of the state a block touches *)

(** The logging blocks leave the objects and the singleton alone. *)
Definition same_objects (w0 w : world) : Prop :=
  heap w = heap w0 ∧ configs w = configs w0 ∧ _config w = _config w0.

(** The configuration blocks leave the logging state alone. *)
Definition same_logging (w0 w : world) : Prop :=
  handlers w = handlers w0 ∧ root_level w = root_level w0 ∧
  root_handlers w = root_handlers w0 ∧ _file_handlers w = _file_handlers w0 ∧
  trace w = trace w0.

Create HintDb frame.

Ltac preserves_step :=
  first
    [ solve [auto with frame nocore]
    | apply preserves_ret | apply preserves_raise | apply preserves_lift
    | apply preserves_gets
    | apply preserves_modify; let H := fresh in intros ? H; exact H
    | apply preserves_bind; [| intros ?]
    | apply preserves_if
    | apply preserves_try
    | apply preserves_for_each; intros ?
    | match goal with
      | |- preserves _ (match ?x with _ => _ end) => destruct x
      end ].

Ltac preserves_tac := repeat preserves_step.

Lemma new_handler_objects w0 cls : preserves (same_objects w0) (new_handler cls).
Proof. intros w H. exact H. Qed.

Lemma close_objects w0 p h : preserves (same_objects w0) (close p h).
Proof.
  intros w H. unfold close, modify, close_handler; simpl.
  destruct (handlers w !! h) as [hd|]; [|exact H].
  destruct (h_closed hd); [exact H|]. destruct (is_file hd); exact H.
Qed.

Lemma handler_setLevel_objects w0 h lvl :
  preserves (same_objects w0) (handler_setLevel h lvl).
Proof. unfold handler_setLevel. preserves_tac. Qed.

Lemma root_setLevel_objects w0 lvl : preserves (same_objects w0) (root_setLevel lvl).
Proof. unfold root_setLevel. preserves_tac. Qed.

Lemma addHandler_objects w0 h : preserves (same_objects w0) (addHandler h).
Proof. unfold addHandler. preserves_tac. Qed.

Lemma removeHandler_objects w0 h : preserves (same_objects w0) (removeHandler h).
Proof. unfold removeHandler. preserves_tac. Qed.

Lemma basicConfig_objects w0 lvl : preserves (same_objects w0) (basicConfig lvl).
Proof.
  unfold basicConfig. preserves_tac;
    auto using new_handler_objects, close_objects, addHandler_objects,
      removeHandler_objects, root_setLevel_objects.
Qed.

Lemma Path_mkdir_objects w0 E dir : preserves (same_objects w0) (Path_mkdir E dir).
Proof. unfold Path_mkdir. preserves_tac. Qed.

Lemma add_console_handler_objects w0 lvl :
  preserves (same_objects w0) (add_console_handler lvl).
Proof.
  unfold add_console_handler. preserves_tac;
    auto using new_handler_objects, handler_setLevel_objects, addHandler_objects.
Qed.

Lemma remove_file_handlers_objects w0 : preserves (same_objects w0) remove_file_handlers.
Proof.
  unfold remove_file_handlers, handler_is. preserves_tac;
    auto using close_objects, removeHandler_objects.
Qed.

Lemma add_file_handler_objects w0 T E dir lvl :
  preserves (same_objects w0) (add_file_handler T E dir lvl).
Proof.
  unfold add_file_handler, FileHandler_new. preserves_tac;
    auto using new_handler_objects, handler_setLevel_objects, addHandler_objects.
Qed.

Lemma _close_file_handlers_objects w0 : preserves (same_objects w0) _close_file_handlers.
Proof. unfold _close_file_handlers. preserves_tac; auto using close_objects. Qed.

#[global] Hint Resolve new_handler_objects close_objects handler_setLevel_objects
  root_setLevel_objects addHandler_objects removeHandler_objects
  basicConfig_objects Path_mkdir_objects add_console_handler_objects
  remove_file_handlers_objects add_file_handler_objects : frame.

(** ** The configuration blocks *)

(** The two shapes of [custom] the module distinguishes: a mapping, and an
    object on which the probe [hasattr(custom, "get")] fails. *)
Definition plain (cu : custom_region) : Prop :=
  match cu with
  | Mapping _ => True
  | Attrs a => a !! "get" = None
  end.

(** The store the module uses for the shape: [custom[key] = v] on a
    mapping, [setattr(custom, key, v)] on an object. *)
Definition store (cu : custom_region) (key : string) (v : val) : custom_region :=
  match cu with
  | Mapping m => Mapping (<[key := v]> m)
  | Attrs a => Attrs (<[key := v]> a)
  end.

Definition with_custom (cfg : QuackConfig) (cu : custom_region) : QuackConfig :=
  {| custom := cu; paths_logs_dir := paths_logs_dir cfg |}.

(** The two modules of the repository. *)
Definition shipped (T : tool) : Prop := T = quackmetadata ∨ T = quacktool.

Lemma shipped_name T : shipped T → tool_name T ≠ "get".
Proof. by intros [->| ->]. Qed.

Lemma shipped_log_level T :
  shipped T → defaults_dump T !! "log_level" = Some (VStr "INFO").
Proof. by intros [->| ->]; vm_compute. Qed.

Lemma hasattr_get_Mapping m : hasattr (Mapping m) "get" = true.
Proof. by vm_compute. Qed.

Lemma hasattr_plain cu : plain cu → hasattr cu "get" = match cu with Mapping _ => true | Attrs _ => false end.
Proof.
  destruct cu as [m|a]; intros H; [apply hasattr_get_Mapping|].
  simpl in *. rewrite H. apply bool_decide_eq_false. by intros [? ?].
Qed.

Lemma plain_store T cu v : shipped T → plain cu → plain (store cu (tool_name T) v).
Proof.
  intros HT. destruct cu as [m|a]; simpl; [done|]. intros H.
  rewrite lookup_insert_ne; [done | by apply shipped_name].
Qed.

Lemma entries_store cu key v : entries (store cu key v) = <[key := v]> (entries cu).
Proof. by destruct cu. Qed.

(** Symbolic execution: unfold the monad and the primitive operations,
    then the field accesses on the states built so far. *)
Ltac mrun :=
  cbv beta iota zeta delta
    [mbind M_bind mret M_ret lift gets modify raise alloc deref deref_config
     custom_of update_custom isinstance_dict dict_get getattr_val dict_copy
     update_method];
  cbn [heap configs handlers root_level root_handlers _file_handlers _config
       trace set_heap set_configs set_handlers set_root_level
       set_root_handlers set_file_handlers set_config emit
       custom paths_logs_dir with_custom fst snd negb].

Section config_blocks.
Context (T : tool).

(** The section is absent: it is created from the dumped defaults. *)
Lemma ensure_tool_section_absent c cfg w :
  configs w !! c = Some cfg → plain (custom cfg) →
  entries (custom cfg) !! tool_name T = None →
  ensure_tool_section T c w =
    (Ok (VRef (length (heap w))),
     set_heap (λ h, h ++ [ODict ∅])
       (set_configs
          (λ cs, <[c := with_custom cfg
                          (store (custom cfg) (tool_name T) (VRef (length (heap w))))]> cs)
          (set_heap (λ h, h ++ [ODict (defaults_dump T)]) w))).
Proof.
  intros Hc Hp Hn. unfold ensure_tool_section. mrun. rewrite Hc. mrun.
  rewrite (hasattr_plain _ Hp).
  assert (Hlt : c < length (configs w)) by (by eapply lookup_lt_Some).
  destruct (custom cfg) as [m|a] eqn:Hcu; simpl in Hn, Hp.
  - unfold contains. rewrite bool_decide_eq_false_2 by (rewrite Hn; by intros [? ?]).
    mrun. rewrite Hc. mrun. rewrite Hcu. unfold setitem. mrun.
    rewrite list_lookup_insert_eq by done. mrun.
    unfold get_method. by rewrite lookup_insert_eq.
  - unfold hasattr. rewrite bool_decide_eq_false_2 by (rewrite Hn; by intros [? ?]).
    mrun. rewrite Hc. mrun. rewrite Hcu. unfold setattr. mrun.
    rewrite list_lookup_insert_eq by done. mrun.
    unfold getattr. by rewrite lookup_insert_eq.
Qed.

(** The section is present: it is returned as it is. *)
Lemma ensure_tool_section_present c cfg v w :
  configs w !! c = Some cfg → plain (custom cfg) →
  entries (custom cfg) !! tool_name T = Some v →
  ensure_tool_section T c w = (Ok v, set_heap (λ h, h ++ [ODict ∅]) w).
Proof.
  intros Hc Hp Hn. unfold ensure_tool_section. mrun. rewrite Hc. mrun.
  rewrite (hasattr_plain _ Hp).
  destruct (custom cfg) as [m|a] eqn:Hcu; simpl in Hn, Hp.
  - unfold contains. rewrite bool_decide_eq_true_2 by (by rewrite Hn).
    mrun. rewrite Hc. mrun. rewrite Hcu. unfold get_method. by rewrite Hn.
  - unfold hasattr. rewrite bool_decide_eq_true_2 by (by rewrite Hn).
    mrun. rewrite Hc. mrun. rewrite Hcu. unfold getattr. by rewrite Hn.
Qed.

End config_blocks.

(** ** Dictionaries *)

(** [update] is the union in which the argument wins. *)
Lemma dict_update_union (d p : gmap string val) : dict_update d p = p ∪ d.
Proof.
  unfold dict_update.
  apply (map_fold_weak_ind (λ r m, r = m ∪ d)).
  - by rewrite (left_id_L ∅ (∪)).
  - intros k v m r _ ->. by rewrite insert_union_l.
Qed.

Lemma dict_update_lookup (d p : gmap string val) k :
  dict_update d p !! k = match p !! k with Some v => Some v | None => d !! k end.
Proof.
  rewrite dict_update_union, lookup_union.
  destruct (p !! k), (d !! k); reflexivity.
Qed.

(** ** Reading the level name *)

Lemma read_log_level_name_dict l d w :
  heap w !! l = Some (ODict d) →
  read_log_level_name (VRef l) w = (Ok (default (VStr "INFO") (d !! "log_level")), w).
Proof. intros H. unfold read_log_level_name. mrun. rewrite H. mrun. by rewrite H. Qed.

Lemma read_log_level_name_inst l a w :
  heap w !! l = Some (OInst a) →
  read_log_level_name (VRef l) w = (Ok (default (VStr "INFO") (a !! "log_level")), w).
Proof. intros H. unfold read_log_level_name. mrun. rewrite H. mrun. by rewrite H. Qed.

Lemma read_log_level_name_scalar v w :
  (∀ l, v ≠ VRef l) →
  read_log_level_name v w = (Ok (VStr "INFO"), w).
Proof. intros H. unfold read_log_level_name. destruct v; try done. by destruct (H l). Qed.

(** ** The singleton *)

Section singleton.
Context (T : tool).

Lemma get_config_cached E w r : _config w = Some r → get_config T E w = (Ok r, w).
Proof. intros H. unfold get_config. mrun. by rewrite H. Qed.

Lemma get_config_unset E w :
  _config w = None →
  get_config T E w =
  match initialize_config T E None w with
  | (Ok r, w') => (Ok r, set_config (Some r) w')
  | (Raise e, w') => (Raise e, w')
  end.
Proof.
  intros H. unfold get_config. mrun. rewrite H.
  by destruct (initialize_config T E None w) as [[r|e] w'].
Qed.

Lemma get_config_Ok E w r w' : get_config T E w = (Ok r, w') → _config w' = Some r.
Proof.
  destruct (_config w) as [r0|] eqn:Hc.
  - rewrite (get_config_cached _ _ _ Hc). by intros [= <- <-].
  - rewrite (get_config_unset _ _ Hc).
    destruct (initialize_config T E None w) as [[r1|e] w1]; [|done].
    by intros [= <- <-].
Qed.

Lemma get_tool_config_cached E w r cfg :
  _config w = Some r → configs w !! r = Some cfg → plain (custom cfg) →
  get_tool_config T E w =
    (Ok (default (VRef (length (heap w))) (entries (custom cfg) !! tool_name T)),
     set_heap (λ h, h ++ [ODict ∅]) w).
Proof.
  intros Hr Hc Hp. unfold get_tool_config.
  rewrite (bind_ok _ _ _ _ _ (get_config_cached E _ _ Hr)).
  mrun. rewrite Hc. mrun. rewrite (hasattr_plain _ Hp).
  by destruct (custom cfg).
Qed.

(** A [get_tool_config] that returns has met one of the two shapes. *)
Lemma get_tool_config_plain E w r v w1 :
  _config w = Some r → get_tool_config T E w = (Ok v, w1) →
  ∃ cfg, configs w !! r = Some cfg ∧ plain (custom cfg).
Proof.
  intros Hr. unfold get_tool_config.
  rewrite (bind_ok _ _ _ _ _ (get_config_cached E _ _ Hr)).
  mrun. destruct (configs w !! r) as [cfg|]; [|done]. mrun.
  intros H. exists cfg. split; [done|].
  destruct (custom cfg) as [m|a]; [done|]. unfold plain.
  destruct (a !! "get") eqn:Hg; [|done]. unfold hasattr in H.
  rewrite bool_decide_eq_true_2 in H by (by rewrite Hg). done.
Qed.

End singleton.

(** ** Updating the section of a populated singleton *)

(** A value that is there and is no dict: a scalar, an opaque object, or
    an instance. *)
Definition not_dict (w : world) (v : val) : Prop :=
  match v with
  | VRef l => ∃ a, heap w !! l = Some (OInst a)
  | _ => True
  end.

Section update.
Context (T : tool).

Lemma update_tool_config_merge E w r cfg ls sec lp upd :
  _config w = Some r → configs w !! r = Some cfg → plain (custom cfg) →
  default (VRef (length (heap w))) (entries (custom cfg) !! tool_name T) = VRef ls →
  (heap w ++ [ODict ∅]) !! ls = Some (ODict sec) →
  heap w !! lp = Some (ODict upd) →
  update_tool_config T E (VRef lp) w =
    (Ok tt,
     set_configs
       (λ cs, <[r := with_custom cfg
                       (store (custom cfg) (tool_name T) (VRef (S (length (heap w)))))]> cs)
       (set_heap (λ h, h ++ [ODict ∅; ODict (dict_update sec upd)]) w)).
Proof.
  intros Hr Hc Hp Hv Hs Hu. unfold update_tool_config.
  rewrite (bind_ok _ _ _ _ _ (get_config_cached T E _ _ Hr)).
  rewrite (bind_ok _ _ _ _ _ (get_tool_config_cached T E _ _ _ Hr Hc Hp)).
  rewrite Hv. mrun. rewrite Hs. mrun. rewrite Hs. mrun.
  rewrite length_app. simpl length. rewrite Nat.add_1_r.
  rewrite lookup_app_l by (apply lookup_lt_Some in Hu; rewrite length_app; lia).
  rewrite lookup_app_l by (by eapply lookup_lt_Some).
  rewrite Hu. mrun.
  replace (((heap w ++ [ODict ∅]) ++ [ODict sec]) !! S (length (heap w)))
    with (Some (ODict sec)).
  2:{ symmetry. rewrite lookup_app_r by (rewrite length_app; simpl; lia).
      rewrite length_app. simpl. by replace (S (length (heap w)) - (length (heap w) + 1)) with 0 by lia. }
  mrun. rewrite Hc. mrun. rewrite (hasattr_plain _ Hp).
  assert (Hheap : <[S (length (heap w)) := ODict (dict_update sec upd)]>
                    ((heap w ++ [ODict ∅]) ++ [ODict sec])
                  = heap w ++ [ODict ∅; ODict (dict_update sec upd)]).
  { rewrite <- (assoc_L (++)). simpl.
    rewrite insert_app_r_alt by lia.
    by replace (S (length (heap w)) - length (heap w)) with 1 by lia. }
  destruct (custom cfg) as [m|a] eqn:Hcu; mrun; rewrite Hc; mrun; rewrite Hcu;
    unfold setitem, setattr; mrun; rewrite ?Nat.add_1_r;
    unfold set_configs, set_heap; cbn; by rewrite Hheap.
Qed.

Lemma update_tool_config_replace E w r cfg v new_config :
  _config w = Some r → configs w !! r = Some cfg → plain (custom cfg) →
  entries (custom cfg) !! tool_name T = Some v → not_dict w v →
  update_tool_config T E new_config w =
    (Ok tt,
     set_configs
       (λ cs, <[r := with_custom cfg (store (custom cfg) (tool_name T) new_config)]> cs)
       (set_heap (λ h, h ++ [ODict ∅]) w)).
Proof.
  intros Hr Hc Hp Hv Hn. unfold update_tool_config.
  rewrite (bind_ok _ _ _ _ _ (get_config_cached T E _ _ Hr)).
  rewrite (bind_ok _ _ _ _ _ (get_tool_config_cached T E _ _ _ Hr Hc Hp)).
  rewrite Hv. simpl default.
  assert (Hd : isinstance_dict v (set_heap (λ h, h ++ [ODict ∅]) w)
               = (Ok false, set_heap (λ h, h ++ [ODict ∅]) w)).
  { destruct v; try reflexivity. destruct Hn as [a Ha]. mrun.
    rewrite lookup_app_l by (by eapply lookup_lt_Some). by rewrite Ha. }
  rewrite (bind_ok _ _ _ _ _ Hd). mrun. rewrite Hc. mrun.
  rewrite (hasattr_plain _ Hp).
  destruct (custom cfg) as [m|a] eqn:Hcu; mrun; rewrite Hc; mrun; rewrite Hcu;
    unfold setitem, setattr; by mrun.
Qed.

End update.

(** ** The logging blocks as state transformers *)

Lemma for_each_modify {A} (f : A → world → world) (xs : list A) w :
  for_each xs (λ x, modify (f x)) w = (Ok tt, foldl (λ w x, f x w) w xs).
Proof.
  revert w. induction xs as [|x xs IH]; intros w; simpl; [done|].
  rewrite bind_run. unfold modify at 1. apply IH.
Qed.

Lemma for_each_ext {A} (body body' : A → M unit) (xs : list A) w :
  (∀ x w, body x w = body' x w) → for_each xs body w = for_each xs body' w.
Proof.
  intros H. revert w. induction xs as [|x xs IH]; intros w; simpl; [done|].
  rewrite !bind_run, H. destruct (body' x w) as [[[]|e] w']; [apply IH | done].
Qed.

(** [removeHandler(h); h.close()]. *)
Definition detach_close (p : phase) (h : nat) (w : world) : world :=
  close_handler p h (set_root_handlers (remove_first h) w).

(** The loop of [basicConfig(force=True)] and the loop of
    [initialize_config], from the snapshot [hs] of the handler list. *)
Definition sweep_all (hs : list nat) (w : world) : world :=
  foldl (λ w h, detach_close InInitialize h w) w hs.
Definition sweep_files (hs : list nat) (w : world) : world :=
  foldl (λ w h, if file_at w h then detach_close InInitialize h w else w) w hs.

(** A new handler of class [cls], set to level [z] and attached. *)
Definition attach_new (cls : handler_class) (z : Z) (w : world) : world :=
  let h := length (handlers w) in
  set_root_handlers (λ hs, if bool_decide (h ∈ hs) then hs else hs ++ [h])
    (set_handlers (λ hs, hs ++ [mkHandler cls z false]) w).

Lemma remove_file_handlers_run w :
  remove_file_handlers w = (Ok tt, sweep_files (root_handlers w) w).
Proof.
  unfold remove_file_handlers. rewrite bind_run. unfold gets at 1.
  rewrite (for_each_ext _
    (λ h, modify (λ w, if file_at w h then detach_close InInitialize h w else w))).
  - apply for_each_modify.
  - intros h w0. unfold handler_is, file_at, handler_test, removeHandler, close, detach_close.
    mrun. by destruct (handlers w0 !! h) as [hd|]; [destruct (is_file hd)|].
Qed.

Lemma sweep_all_root hs w :
  root_handlers w = hs → root_handlers (sweep_all hs w) = [].
Proof.
  revert w. induction hs as [|h hs IH]; intros w Hw; simpl; [done|].
  apply IH. unfold detach_close, close_handler. simpl.
  assert (Hr : remove_first h (root_handlers w) = hs).
  { rewrite Hw. simpl. by rewrite bool_decide_eq_true_2. }
  destruct (handlers w !! h) as [hd|]; simpl; [|done].
  destruct (h_closed hd); simpl; [done|]. by destruct (is_file hd).
Qed.

Lemma attach_new_last cls z hs :
  <[length hs := mkHandler cls z false]> (hs ++ [mkHandler cls logging.NOTSET false])
  = hs ++ [mkHandler cls z false].
Proof.
  rewrite insert_app_r_alt by lia. by rewrite Nat.sub_diag.
Qed.

Lemma new_handler_setLevel_run cls lvl z (k : nat → M unit) w :
  _checkLevel lvl = Ok z →
  (h ← new_handler cls; handler_setLevel h lvl ;; k h) w =
  k (length (handlers w)) (set_handlers (λ hs, hs ++ [mkHandler cls z false]) w).
Proof.
  intros Hz. unfold new_handler, handler_setLevel. mrun. rewrite Hz. mrun.
  f_equal. unfold set_handlers. simpl.
  rewrite lookup_app_r by lia. rewrite Nat.sub_diag. simpl.
  by rewrite attach_new_last.
Qed.

Lemma add_console_handler_run lvl z w :
  _checkLevel lvl = Ok z →
  add_console_handler lvl w =
    (Ok tt, if existsb (console_at w) (root_handlers w) then w
            else attach_new StreamHandler z w).
Proof.
  intros Hz. unfold add_console_handler. rewrite bind_run. unfold gets at 1.
  change (λ h, match handlers w !! h with Some hd => is_console hd | None => false end)
    with (console_at w).
  destruct (existsb (console_at w) (root_handlers w)); cbn [negb]; [done|].
  by rewrite (new_handler_setLevel_run _ _ _ _ _ Hz).
Qed.

(** What the [try] statement does to the state when the file opens. *)
Definition attach_file (z : Z) (dir file : string) (w : world) : world :=
  set_file_handlers (λ r, r ++ [length (handlers w)])
    (attach_new FileHandler z (emit (Opened (length (handlers w)) dir file) w)).

Lemma add_file_handler_run T E dir lvl z w :
  _checkLevel lvl = Ok z →
  add_file_handler T E dir lvl w =
    match open_append E dir (log_file_name T) with
    | Some e => if is_OSError e then (Ok tt, w) else (Raise e, w)
    | None => (Ok tt, attach_file z dir (log_file_name T) w)
    end.
Proof.
  intros Hz. unfold add_file_handler, try_except, FileHandler_new.
  destruct (open_append E dir (log_file_name T)) as [e|].
  - unfold raise at 1. rewrite bind_run. by destruct (is_OSError e).
  - unfold new_handler, handler_setLevel, addHandler. mrun. rewrite Hz. mrun.
    f_equal. unfold attach_file, attach_new, set_file_handlers, set_root_handlers,
      set_handlers, emit. simpl.
    rewrite lookup_app_r by lia. rewrite Nat.sub_diag. simpl.
    by rewrite attach_new_last.
Qed.

Lemma basicConfig_run lvl w :
  let w1 := attach_new StreamHandler logging.NOTSET (sweep_all (root_handlers w) w) in
  basicConfig lvl w =
    match lvl with
    | VNone => (Ok tt, w1)
    | _ => match _checkLevel lvl with
           | Ok z => (Ok tt, set_root_level z w1)
           | Raise e => (Raise e, w1)
           end
    end.
Proof.
  intros w1. unfold basicConfig. rewrite bind_run. unfold gets at 1.
  rewrite bind_run.
  rewrite (for_each_ext _ (λ h, modify (detach_close InInitialize h)))
    by (intros; reflexivity).
  rewrite for_each_modify. fold (sweep_all (root_handlers w) w).
  rewrite bind_run. unfold gets at 1.
  rewrite (sweep_all_root _ w eq_refl).
  change ((new_handler StreamHandler ≫= _) (sweep_all (root_handlers w) w))
    with ((match lvl with VNone => mret tt | _ => root_setLevel lvl end) w1).
  destruct lvl; try reflexivity; unfold root_setLevel; mrun;
    by destruct (_checkLevel _).
Qed.

(** ** The logging part of [initialize_config] *)

(** Lines 116-176, for a configuration object and a resolved level. *)
Definition configure_logging (T : tool) (E : env) (quack_config : nat) (log_level : val) : M nat :=
  if PYTEST_CURRENT_TEST E then
    basicConfig log_level ;;
    Path_mkdir E "./logs" ;;
    mret quack_config
  else
    root_setLevel log_level ;;
    add_console_handler log_level ;;
    remove_file_handlers ;;
    cfg ← deref_config quack_config;
    logs_dir ← lift (Path (default (VStr "./logs") (paths_logs_dir cfg)));
    Path_mkdir E logs_dir ;;
    add_file_handler T E logs_dir log_level ;;
    mret quack_config.

Lemma initialize_config_unfold T E p :
  initialize_config T E p =
    (modify (set_config None) ;;
     quack_config ← call_load_config E p;
     metadata_config ← ensure_tool_section T quack_config;
     log_level_name ← read_log_level_name metadata_config;
     log_level ← lift (logging.getattr (logging_attribute E) log_level_name
                         (VInt logging.INFO));
     configure_logging T E quack_config log_level).
Proof. reflexivity. Qed.

Lemma configure_logging_objects w0 T E qc lvl :
  preserves (same_objects w0) (configure_logging T E qc lvl).
Proof.
  unfold configure_logging, deref_config. preserves_tac.
  intros w H. cbv beta. by destruct (configs w !! qc).
Qed.

(** The state in which the normal branch looks for the logs directory:
    level set, console handler present, file handlers removed. *)
Definition console_step (z : Z) (w : world) : world :=
  if existsb (console_at w) (root_handlers w) then w
  else attach_new StreamHandler z w.

Definition normal_prepared (z : Z) (w : world) : world :=
  let w1 := console_step z (set_root_level z w) in
  sweep_files (root_handlers w1) w1.

Definition test_prepared (w : world) : world :=
  attach_new StreamHandler logging.NOTSET (sweep_all (root_handlers w) w).

Lemma normal_prepared_objects z w : same_objects w (normal_prepared z w).
Proof.
  unfold normal_prepared.
  set (w1 := console_step z (set_root_level z w)).
  assert (H1 : same_objects w w1).
  { unfold w1, console_step. by destruct (existsb _ _). }
  pose proof (remove_file_handlers_objects w w1 H1) as H.
  by rewrite remove_file_handlers_run in H.
Qed.

Lemma configure_logging_normal T E qc lvl z w :
  PYTEST_CURRENT_TEST E = false → _checkLevel lvl = Ok z →
  configure_logging T E qc lvl w =
    let w1 := normal_prepared z w in
    match configs w !! qc with
    | None => (Raise InvalidRef, w1)
    | Some cfg =>
        match Path (default (VStr "./logs") (paths_logs_dir cfg)) with
        | Raise e => (Raise e, w1)
        | Ok dir =>
            match mkdir E dir with
            | Some e => (Raise e, w1)
            | None =>
                match open_append E dir (log_file_name T) with
                | Some e => if is_OSError e then (Ok qc, w1) else (Raise e, w1)
                | None => (Ok qc, attach_file z dir (log_file_name T) w1)
                end
            end
        end
    end.
Proof.
  intros Ht Hz. unfold configure_logging. rewrite Ht.
  unfold root_setLevel at 1. rewrite bind_run, bind_run. unfold lift at 1.
  rewrite Hz. unfold modify at 1.
  rewrite bind_run, (add_console_handler_run _ _ _ Hz).
  fold (console_step z (set_root_level z w)).
  rewrite bind_run, remove_file_handlers_run.
  fold (normal_prepared z w).
  destruct (normal_prepared_objects z w) as (_ & Hc & _).
  cbv zeta. set (w1 := normal_prepared z w) in *.
  rewrite bind_run. unfold deref_config. rewrite Hc.
  destruct (configs w !! qc) as [cfg|]; [|done].
  rewrite bind_run. unfold lift at 1.
  destruct (Path _) as [dir|e]; [|done].
  rewrite bind_run. unfold Path_mkdir.
  destruct (mkdir E dir) as [e|]; [done|].
  unfold mret at 1, M_ret at 1. rewrite bind_run, (add_file_handler_run _ _ _ _ _ _ Hz).
  destruct (open_append E dir (log_file_name T)) as [e|]; [|done].
  by destruct (is_OSError e).
Qed.

Lemma configure_logging_normal_raise T E qc lvl e w :
  PYTEST_CURRENT_TEST E = false → _checkLevel lvl = Raise e →
  configure_logging T E qc lvl w = (Raise e, w).
Proof.
  intros Ht Hz. unfold configure_logging. rewrite Ht.
  unfold root_setLevel. mrun. by rewrite Hz.
Qed.

Lemma configure_logging_test T E qc lvl w :
  PYTEST_CURRENT_TEST E = true →
  configure_logging T E qc lvl w =
    match basicConfig lvl w with
    | (Ok _, w1) =>
        match mkdir E "./logs" with
        | Some e => (Raise e, w1)
        | None => (Ok qc, w1)
        end
    | (Raise e, w1) => (Raise e, w1)
    end.
Proof.
  intros Ht. unfold configure_logging. rewrite Ht. rewrite bind_run.
  destruct (basicConfig lvl w) as [[[]|e] w1]; [|done].
  rewrite bind_run. unfold Path_mkdir. by destruct (mkdir E "./logs").
Qed.

(** ** [initialize_config] up to the logging part *)

Lemma call_load_config_run E p objs cfg w :
  load_config E p = Ok (Loaded objs cfg) →
  call_load_config E p w =
    (Ok (length (configs w)),
     set_configs (λ cs, cs ++ [cfg]) (set_heap (λ h, h ++ objs) w)).
Proof. intros H. unfold call_load_config. by rewrite H. Qed.

(** The state after [load_config] returned. *)
Definition loaded_world (objs : list pyobj) (cfg : QuackConfig) (w : world) : world :=
  set_configs (λ cs, cs ++ [cfg]) (set_heap (λ h, h ++ objs) (set_config None w)).

(** The state after the section was created in the loaded object. *)
Definition created_world (T : tool) (objs : list pyobj) (cfg : QuackConfig) (w : world) : world :=
  let w0 := loaded_world objs cfg w in
  set_heap (λ h, h ++ [ODict ∅])
    (set_configs
       (λ cs, <[length (configs w) :=
                  with_custom cfg
                    (store (custom cfg) (tool_name T) (VRef (length (heap w0))))]> cs)
       (set_heap (λ h, h ++ [ODict (defaults_dump T)]) w0)).

Lemma getattr_INFO others :
  logging.getattr others (VStr "INFO") (VInt logging.INFO) = Ok (VInt 20).
Proof. by vm_compute. Qed.

Section prefix.
Context (T : tool).

Lemma loaded_world_config objs cfg w :
  configs (loaded_world objs cfg w) !! length (configs w) = Some cfg.
Proof. simpl. rewrite lookup_app_r by lia. by rewrite Nat.sub_diag. Qed.

Lemma initialize_config_absent E p objs cfg w :
  shipped T → load_config E p = Ok (Loaded objs cfg) →
  plain (custom cfg) → entries (custom cfg) !! tool_name T = None →
  initialize_config T E p w =
    configure_logging T E (length (configs w)) (VInt 20) (created_world T objs cfg w).
Proof.
  intros HT Hl Hp Hn. rewrite initialize_config_unfold.
  rewrite bind_run. unfold modify at 1.
  rewrite (bind_ok _ _ _ _ _ (call_load_config_run _ _ _ _ _ Hl)).
  fold (loaded_world objs cfg w).
  rewrite (bind_ok _ _ _ _ _
             (ensure_tool_section_absent T _ _ _ (loaded_world_config objs cfg w) Hp Hn)).
  change (length (configs (set_config None w))) with (length (configs w)).
  fold (created_world T objs cfg w).
  erewrite bind_ok; last first.
  { apply read_log_level_name_dict with (d := defaults_dump T). simpl.
    rewrite lookup_app_l by (rewrite !length_app; simpl; lia).
    rewrite lookup_app_r by lia. by rewrite Nat.sub_diag. }
  rewrite (shipped_log_level _ HT). simpl default.
  rewrite bind_run. unfold lift. by rewrite getattr_INFO.
Qed.

Lemma initialize_config_present E p objs cfg v w :
  load_config E p = Ok (Loaded objs cfg) →
  plain (custom cfg) → entries (custom cfg) !! tool_name T = Some v →
  initialize_config T E p w =
    (log_level_name ← read_log_level_name v;
     log_level ← lift (logging.getattr (logging_attribute E) log_level_name
                         (VInt logging.INFO));
     configure_logging T E (length (configs w)) log_level)
      (set_heap (λ h, h ++ [ODict ∅]) (loaded_world objs cfg w)).
Proof.
  intros Hl Hp Hn. rewrite initialize_config_unfold.
  rewrite bind_run. unfold modify at 1.
  rewrite (bind_ok _ _ _ _ _ (call_load_config_run _ _ _ _ _ Hl)).
  fold (loaded_world objs cfg w).
  by rewrite (bind_ok _ _ _ _ _
             (ensure_tool_section_present T _ _ _ _ (loaded_world_config objs cfg w) Hp Hn)).
Qed.

End prefix.

(** ** When the filesystem lets initialization through *)

(** The directory the branch taken creates. *)
Definition logs_dir_of (E : env) (cfg : QuackConfig) : result string :=
  if PYTEST_CURRENT_TEST E then Ok "./logs"
  else Path (default (VStr "./logs") (paths_logs_dir cfg)).

(** The directory can be made, and opening the log file either works or
    fails with an [OSError]. *)
Definition fs_ok (T : tool) (E : env) (cfg : QuackConfig) : Prop :=
  ∃ dir, logs_dir_of E cfg = Ok dir ∧ mkdir E dir = None ∧
         (PYTEST_CURRENT_TEST E = false →
          ∀ e, open_append E dir (log_file_name T) = Some e → is_OSError e = true).

Lemma basicConfig_ok lvl z w :
  _checkLevel lvl = Ok z →
  basicConfig lvl w = (Ok tt, set_root_level z (test_prepared w)).
Proof.
  intros Hz. rewrite basicConfig_run. cbv zeta. fold (test_prepared w).
  destruct lvl; try discriminate Hz; by rewrite Hz.
Qed.

Lemma basicConfig_raise lvl e w :
  _checkLevel lvl = Raise e → lvl ≠ VNone →
  basicConfig lvl w = (Raise e, test_prepared w).
Proof.
  intros Hz Hn. rewrite basicConfig_run. cbv zeta. fold (test_prepared w).
  destruct lvl; try done; by rewrite Hz.
Qed.

Lemma configure_logging_ok T E qc cfg lvl z w :
  _checkLevel lvl = Ok z → configs w !! qc = Some cfg → fs_ok T E cfg →
  ∃ w', configure_logging T E qc lvl w = (Ok qc, w') ∧ same_objects w w'.
Proof.
  intros Hz Hc (dir & Hd & Hm & Ho). unfold logs_dir_of in Hd.
  pose proof (configure_logging_objects w T E qc lvl w) as Hobj.
  destruct (PYTEST_CURRENT_TEST E) eqn:Ht.
  - injection Hd as <-. rewrite configure_logging_test in * by done.
    rewrite (basicConfig_ok _ _ _ Hz), Hm in *.
    eexists; (split; [reflexivity|]); by apply Hobj.
  - rewrite (configure_logging_normal _ _ _ _ _ _ Ht Hz) in *. cbv zeta in *.
    rewrite Hc, Hd, Hm in *.
    destruct (open_append E dir (log_file_name T)) as [e|] eqn:Hop.
    + rewrite (Ho eq_refl e eq_refl) in *.
      eexists; (split; [reflexivity|]); by apply Hobj.
    + eexists; (split; [reflexivity|]); by apply Hobj.
Qed.

(** ** Hosts and environments used as examples *)

(** Other attributes of the [logging] module object, as CPython 3.11 has
    them after a plain [import logging]: the modules it imports, classes
    and functions outside [__all__], private tables, flags and strings.
    The docstring and the strings that hold file paths are left out. *)
Definition logging_3_11 (s : string) : option val :=
  if bool_decide (s ∈ [ "Filterer"; "GenericAlias"; "Manager"; "PercentStyle";
                        "PlaceHolder"; "RootLogger"; "StrFormatStyle";
                        "StringTemplateStyle"; "Template"; "_STYLES";
                        "_StderrHandler"; "__all__"; "__builtins__"; "__loader__";
                        "__path__"; "__spec__"; "_acquireLock"; "_addHandlerRef";
                        "_after_at_fork_child_reinit_locks";
                        "_at_fork_reinit_lock_weakset"; "_checkLevel";
                        "_defaultFormatter"; "_defaultLastResort"; "_handlerList";
                        "_handlers"; "_is_internal_frame"; "_levelToName"; "_lock";
                        "_logRecordFactory"; "_loggerClass"; "_nameToLevel";
                        "_register_at_fork_reinit_lock"; "_releaseLock";
                        "_removeHandlerRef"; "_showwarning";
                        "_startTime"; "_str_formatter"; "atexit"; "collections";
                        "currentframe"; "getLevelNamesMapping"; "io"; "os"; "re";
                        "root"; "sys"; "threading"; "time"; "traceback";
                        "warnings"; "weakref" ])
  then Some (VOpaque s)
  else if bool_decide (s ∈ [ "logMultiprocessing"; "logProcesses"; "logThreads" ])
  then Some (VBool true)
  else if bool_decide (s = "__author__")
  then Some (VStr "Vinay Sajip <vinay_sajip@red-dove.com>")
  else if bool_decide (s = "__date__") then Some (VStr "07 February 2010")
  else if bool_decide (s = "__name__") then Some (VStr "logging")
  else if bool_decide (s = "__package__") then Some (VStr "logging")
  else if bool_decide (s = "__status__") then Some (VStr "production")
  else if bool_decide (s = "__version__") then Some (VStr "0.5.1.2")
  else if bool_decide (s = "_warnings_showwarning") then Some VNone
  else None.

(** A host configuration with an empty [custom] dict and no
    [paths.logs_dir], and one whose [custom] is a plain object. *)
Definition host_mapping : QuackConfig := mkQuackConfig (Mapping ∅) None.
Definition host_object : QuackConfig :=
  mkQuackConfig (Attrs ∅) (Some (VStr "/var/log/quack")).

Definition env_fine : env :=
  {| load_config := λ _, Ok (Loaded [] host_mapping);
     PYTEST_CURRENT_TEST := false;
     mkdir := λ _, None;
     open_append := λ _ _, None;
     logging_attribute := logging_3_11 |}.

Definition env_object : env :=
  {| load_config := λ _, Ok (Loaded [] host_object);
     PYTEST_CURRENT_TEST := false;
     mkdir := λ _, None;
     open_append := λ _ _, None;
     logging_attribute := logging_3_11 |}.

(** The logs directory cannot be created. *)
Definition env_mkdir_denied : env :=
  {| load_config := λ _, Ok (Loaded [] host_mapping);
     PYTEST_CURRENT_TEST := false;
     mkdir := λ _, Some (OSError PermissionDenied);
     open_append := λ _ _, None;
     logging_attribute := logging_3_11 |}.

(** The same, on a host whose [custom] is a plain object. *)
Definition env_object_mkdir_denied : env :=
  {| load_config := λ _, Ok (Loaded [] host_object);
     PYTEST_CURRENT_TEST := false;
     mkdir := λ _, Some (OSError PermissionDenied);
     open_append := λ _ _, None;
     logging_attribute := logging_3_11 |}.

(** The log file cannot be opened. *)
Definition env_open_denied : env :=
  {| load_config := λ _, Ok (Loaded [] host_mapping);
     PYTEST_CURRENT_TEST := false;
     mkdir := λ _, None;
     open_append := λ _ _, Some (OSError ReadOnlyFilesystem);
     logging_attribute := logging_3_11 |}.

(** The loader fails. *)
Definition env_loader_fails : env :=
  {| load_config := λ _, Raise (OtherError "QuackConfigurationError");
     PYTEST_CURRENT_TEST := false;
     mkdir := λ _, None;
     open_append := λ _ _, None;
     logging_attribute := logging_3_11 |}.

(** The configuration file sets [log_level: debug] for QuackMetadata. *)
Definition env_lowercase_level : env :=
  {| load_config := λ _,
       Ok (Loaded [ODict {[ "log_level" := VStr "debug" ]}]
             (mkQuackConfig (Mapping {[ "quackmetadata" := VRef 0 ]}) None));
     PYTEST_CURRENT_TEST := false;
     mkdir := λ _, None;
     open_append := λ _ _, None;
     logging_attribute := logging_3_11 |}.

(** ** The claims *)

(** C5. In a state where the singleton is populated, [get_config] returns
    that very object and leaves the whole state as it was: initialization
    is not run again (the loader, the environment and the filesystem are
    not consulted), and the root logger keeps its handlers, so no second
    console handler is attached. *)
Theorem get_config_idempotent T E w r :
  _config w = Some r →
  get_config T E w = (Ok r, w) ∧
  root_handlers (get_config T E w).2 = root_handlers w ∧
  count (console_at (get_config T E w).2) (root_handlers (get_config T E w).2)
    = count (console_at w) (root_handlers w).
Proof.
  intros H. rewrite (get_config_cached T E w r H). by repeat split.
Qed.

(** Two calls in a row: the second returns the object of the first and
    changes nothing. *)
Lemma get_config_twice T E1 E2 w r w1 :
  get_config T E1 w = (Ok r, w1) → get_config T E2 w1 = (Ok r, w1).
Proof. intros H. apply get_config_cached. by eapply get_config_Ok. Qed.

Lemma get_config_idempotent_witness :
  _config (get_config quackmetadata env_fine initial_world).2 = Some 0 ∧
  get_config quackmetadata env_loader_fails
    (get_config quackmetadata env_fine initial_world).2
  = (Ok 0, (get_config quackmetadata env_fine initial_world).2).
Proof.
  split; [reflexivity|].
  apply (get_config_idempotent quackmetadata env_loader_fails
           (get_config quackmetadata env_fine initial_world).2 0).
  reflexivity.
Defined.

(** C9. An error raised by [load_config] leaves [initialize_config] as it
    is, with [_config] reset and nothing else done; the first
    [get_config], which calls [initialize_config()], raises it too. *)
Theorem loader_error_propagates T E p e w :
  load_config E p = Raise e →
  initialize_config T E p w = (Raise e, set_config None w) ∧
  (p = None → _config w = None → (get_config T E w).1 = Raise e).
Proof.
  intros H.
  assert (Hi : initialize_config T E p w = (Raise e, set_config None w)).
  { unfold initialize_config, call_load_config. rewrite H. reflexivity. }
  split; [exact Hi|]. intros -> Hc.
  by rewrite (get_config_unset T E w Hc), Hi.
Qed.

Lemma loader_error_propagates_witness :
  load_config env_loader_fails None = Raise (OtherError "QuackConfigurationError") ∧
  (get_config quackmetadata env_loader_fails initial_world).1
  = Raise (OtherError "QuackConfigurationError").
Proof.
  split; [reflexivity|].
  apply (loader_error_propagates quackmetadata env_loader_fails None
           (OtherError "QuackConfigurationError") initial_world);
    reflexivity.
Defined.

(** C1. The defect: the logs directory is created outside the [try]
    statement, in both branches. On a fresh host configuration, when
    making the directory fails with an [OSError], [initialize_config]
    raises that error instead of returning the configuration object. *)
Theorem mkdir_error_escapes T E p objs cfg dir err w :
  shipped T →
  load_config E p = Ok (Loaded objs cfg) →
  plain (custom cfg) → entries (custom cfg) !! tool_name T = None →
  logs_dir_of E cfg = Ok dir →
  mkdir E dir = Some (OSError err) →
  (initialize_config T E p w).1 = Raise (OSError err).
Proof.
  intros HT Hl Hp Hn Hd Hm.
  rewrite (initialize_config_absent T E p objs cfg w HT Hl Hp Hn).
  unfold logs_dir_of in Hd. destruct (PYTEST_CURRENT_TEST E) eqn:Ht.
  - injection Hd as <-. rewrite configure_logging_test by done.
    rewrite (basicConfig_ok _ 20%Z) by done. by rewrite Hm.
  - rewrite (configure_logging_normal _ _ _ _ 20%Z) by done. cbv zeta.
    replace (configs (created_world T objs cfg w) !! length (configs w))
      with (Some (with_custom cfg
                    (store (custom cfg) (tool_name T)
                       (VRef (length (heap (loaded_world objs cfg w))))))).
    + simpl paths_logs_dir. by rewrite Hd, Hm.
    + symmetry. simpl. apply list_lookup_insert_eq. rewrite length_app. simpl. lia.
Qed.

Lemma mkdir_error_escapes_witness :
  (initialize_config quackmetadata env_mkdir_denied None initial_world).1
  = Raise (OSError PermissionDenied).
Proof.
  apply (mkdir_error_escapes quackmetadata env_mkdir_denied None [] host_mapping
           "./logs" PermissionDenied initial_world);
    [by left | reflexivity | exact I | reflexivity | reflexivity | reflexivity].
Defined.

(** The other half of the policy holds: an [OSError] from opening the log
    file is swallowed, initialization returns the configuration object,
    and the root logger is left with a console handler and no file
    handler attached by this call. *)
Lemma open_error_swallowed T E p objs cfg dir err w :
  shipped T →
  PYTEST_CURRENT_TEST E = false →
  load_config E p = Ok (Loaded objs cfg) →
  plain (custom cfg) → entries (custom cfg) !! tool_name T = None →
  logs_dir_of E cfg = Ok dir → mkdir E dir = None →
  open_append E dir (log_file_name T) = Some (OSError err) →
  initialize_config T E p w =
    (Ok (length (configs w)), normal_prepared 20 (created_world T objs cfg w)).
Proof.
  intros HT Ht Hl Hp Hn Hd Hm Ho.
  rewrite (initialize_config_absent T E p objs cfg w HT Hl Hp Hn).
  unfold logs_dir_of in Hd. rewrite Ht in Hd.
  rewrite (configure_logging_normal _ _ _ _ 20%Z) by done. cbv zeta.
  replace (configs (created_world T objs cfg w) !! length (configs w))
    with (Some (with_custom cfg
                  (store (custom cfg) (tool_name T)
                     (VRef (length (heap (loaded_world objs cfg w))))))).
  - simpl paths_logs_dir. by rewrite Hd, Hm, Ho.
  - symmetry. simpl. apply list_lookup_insert_eq. rewrite length_app. simpl. lia.
Qed.

(** C2. The defect: the level is looked up with [getattr] on the
    [logging] module, whose attributes are more than the level names. A
    configured [log_level] that names a function or class of the module
    (such as the lower-case "debug") is no key of the level table, yet it
    does not resolve to INFO: the attribute is handed to [setLevel], which
    raises [TypeError]. *)
Theorem module_attribute_is_no_level T E p objs cfg l d s w :
  load_config E p = Ok (Loaded objs cfg) →
  plain (custom cfg) → entries (custom cfg) !! tool_name T = Some (VRef l) →
  (heap w ++ objs) !! l = Some (ODict d) →
  d !! "log_level" = Some (VStr s) →
  s ∈ logging.objects →
  logging._nameToLevel !! s = None ∧
  (initialize_config T E p w).1 = Raise TypeError.
Proof.
  intros Hl Hp Hn Hh Hd Hs.
  assert (Hns : logging._nameToLevel !! s = None ∧
                logging.getattr (logging_attribute E) (VStr s) (VInt logging.INFO)
                = Ok (VOpaque s)).
  { unfold logging.objects in Hs.
    repeat (apply elem_of_cons in Hs as [-> | Hs]; [by vm_compute|]).
    by apply elem_of_nil in Hs. }
  destruct Hns as [Hnone Hget]. split; [exact Hnone|].
  rewrite (initialize_config_present T E p objs cfg _ w Hl Hp Hn).
  erewrite bind_ok; last first.
  { apply read_log_level_name_dict with (d := d). simpl.
    rewrite lookup_app_l by (by eapply lookup_lt_Some). exact Hh. }
  rewrite Hd. simpl default. rewrite bind_run. unfold lift. rewrite Hget.
  destruct (PYTEST_CURRENT_TEST E) eqn:Ht.
  - rewrite configure_logging_test by done.
    by rewrite (basicConfig_raise _ TypeError).
  - by rewrite (configure_logging_normal_raise _ _ _ _ TypeError).
Qed.

Lemma module_attribute_is_no_level_witness :
  logging._nameToLevel !! "debug" = None ∧
  (initialize_config quackmetadata env_lowercase_level None initial_world).1
  = Raise TypeError.
Proof.
  apply (module_attribute_is_no_level quackmetadata env_lowercase_level None
           [ODict {[ "log_level" := VStr "debug" ]}]
           (mkQuackConfig (Mapping {[ "quackmetadata" := VRef 0 ]}) None)
           0 {[ "log_level" := VStr "debug" ]} "debug" initial_world);
    [reflexivity | exact I | reflexivity | reflexivity | reflexivity | ].
  unfold logging.objects. do 14 apply list_elem_of_further. apply list_elem_of_here.
Defined.

(** A name that is no attribute of the module at all does fall back. *)
Lemma unknown_name_falls_back others s :
  logging.namespace !! s = None → others s = None →
  logging.getattr others (VStr s) (VInt logging.INFO) = Ok (VInt logging.INFO) ∧
  _checkLevel (VInt logging.INFO) = Ok logging.INFO.
Proof. intros H H'. unfold logging.getattr. by rewrite H, H'. Qed.

(** A level name of the table resolves to its number. *)
Lemma level_name_resolves others s z :
  logging._nameToLevel !! s = Some z →
  logging.getattr others (VStr s) (VInt logging.INFO) = Ok (VInt z) ∧
  _checkLevel (VInt z) = Ok z.
Proof.
  intros H. split; [|done].
  assert (Hn : logging.namespace !! s = Some (VInt z)).
  { unfold logging.namespace. rewrite <- (assoc_L (∪)).
    erewrite lookup_union_Some_l; [done|]. by rewrite lookup_fmap, H. }
  unfold logging.getattr. by rewrite Hn.
Qed.

(** ** A fresh host configuration *)

Lemma fs_ok_with_custom T E cfg cu : fs_ok T E cfg → fs_ok T E (with_custom cfg cu).
Proof. done. Qed.

Lemma created_world_config T objs cfg w :
  configs (created_world T objs cfg w) !! length (configs w)
  = Some (with_custom cfg
            (store (custom cfg) (tool_name T) (VRef (length (heap w ++ objs))))).
Proof. simpl. apply list_lookup_insert_eq. rewrite length_app. simpl. lia. Qed.

Lemma created_world_section T objs cfg w :
  heap (created_world T objs cfg w) !! length (heap w ++ objs)
  = Some (ODict (defaults_dump T)).
Proof.
  simpl. rewrite lookup_app_l by (rewrite !length_app; simpl; lia).
  rewrite lookup_app_r by lia. by rewrite Nat.sub_diag.
Qed.

(** What holds on a fresh host configuration. The loaded configuration
    lacks the tool's entry, whether [custom] is a mapping or a plain
    object. Then [initialize_config] stores under the tool's name a dict
    that holds the dumped defaults of the Settings Model, whatever happens
    to logging afterwards; and when the logs directory can be made, the
    first [get_tool_config()] returns that dict, whose [log_level] is
    "INFO". *)
Lemma fresh_section_is_defaults T E objs cfg w :
  shipped T →
  load_config E None = Ok (Loaded objs cfg) →
  plain (custom cfg) → entries (custom cfg) !! tool_name T = None →
  (∃ l, section_of T (initialize_config T E None w).2 (length (configs w)) = Some (VRef l) ∧
        dict_at (initialize_config T E None w).2 (VRef l) = Some (defaults_dump T)) ∧
  (_config w = None → fs_ok T E cfg →
   ∃ l w', get_tool_config T E w = (Ok (VRef l), w') ∧
           dict_at w' (VRef l) = Some (defaults_dump T)) ∧
  defaults_dump T !! "log_level" = Some (VStr "INFO").
Proof.
  intros HT Hl Hp Hn.
  rewrite (initialize_config_absent T E None objs cfg w HT Hl Hp Hn).
  set (c := length (configs w)). set (wc := created_world T objs cfg w).
  set (l := length (heap w ++ objs)).
  pose proof (created_world_config T objs cfg w) as Hcfg.
  pose proof (created_world_section T objs cfg w) as Hsec.
  fold c wc l in Hcfg, Hsec.
  split; [|split; [|by apply shipped_log_level]].
  - exists l.
    destruct (configure_logging_objects wc T E c (VInt 20) wc) as (Hh & Hc & _);
      [done|].
    unfold section_of, dict_at. rewrite Hc, Hh, Hcfg, Hsec. simpl.
    by rewrite entries_store, lookup_insert_eq.
  - intros Hnone Hfs.
    destruct (configure_logging_ok T E c _ (VInt 20) 20%Z wc eq_refl Hcfg
                (fs_ok_with_custom _ _ _ _ Hfs)) as (w1 & Hrun & Hh & Hc & _).
    assert (Hget : get_config T E w = (Ok c, set_config (Some c) w1)).
    { rewrite (get_config_unset T E w Hnone).
      rewrite (initialize_config_absent T E None objs cfg w HT Hl Hp Hn).
      fold c wc. by rewrite Hrun. }
    exists l, (set_heap (λ h, h ++ [ODict ∅]) (set_config (Some c) w1)).
    unfold get_tool_config. rewrite (bind_ok _ _ _ _ _ Hget).
    pose proof (get_tool_config_cached T E (set_config (Some c) w1) c _ eq_refl
                  (eq_trans (f_equal (λ cs, cs !! c) Hc) Hcfg)
                  (plain_store T _ _ HT Hp)) as Hrun'.
    unfold get_tool_config in Hrun'.
    rewrite (bind_ok _ _ _ _ _ (get_config_cached T E (set_config (Some c) w1) c eq_refl)) in Hrun'.
    rewrite Hrun'. simpl custom. rewrite entries_store, lookup_insert_eq.
    split; [reflexivity|].
    unfold dict_at. simpl heap. rewrite Hh.
    rewrite lookup_app_l by (by eapply lookup_lt_Some). by rewrite Hsec.
Qed.

Example fresh_section_examples :
  (∃ l w', get_tool_config quackmetadata env_fine initial_world = (Ok (VRef l), w') ∧
           dict_at w' (VRef l) = Some (defaults_dump quackmetadata)) ∧
  (∃ l w', get_tool_config quacktool env_object initial_world = (Ok (VRef l), w') ∧
           dict_at w' (VRef l) = Some (defaults_dump quacktool)) ∧
  defaults_dump quackmetadata !! "log_level" = Some (VStr "INFO").
Proof.
  split; [|split].
  - apply (fresh_section_is_defaults quackmetadata env_fine [] host_mapping initial_world);
      [by left | reflexivity | exact I | reflexivity | reflexivity |].
    exists "./logs". split; [reflexivity|]. split; [reflexivity|]. intros _ e He. discriminate He.
  - apply (fresh_section_is_defaults quacktool env_object [] host_object initial_world);
      [by right | reflexivity | reflexivity | reflexivity | reflexivity |].
    exists "/var/log/quack". split; [reflexivity|]. split; [reflexivity|]. intros _ e He. discriminate He.
  - apply (fresh_section_is_defaults quackmetadata env_fine [] host_mapping initial_world);
      [by left | reflexivity | exact I | reflexivity].
Qed.

(** The first read in a fresh process is an initialization of a fresh
    host configuration followed by the read. *)
Lemma first_get_config_run T E objs cfg w :
  shipped T →
  load_config E None = Ok (Loaded objs cfg) →
  plain (custom cfg) → entries (custom cfg) !! tool_name T = None →
  _config w = None →
  get_config T E w =
    match configure_logging T E (length (configs w)) (VInt 20)
            (created_world T objs cfg w) with
    | (Ok r, w') => (Ok r, set_config (Some r) w')
    | (Raise e, w') => (Raise e, w')
    end.
Proof.
  intros HT Hl Hp Hn Hnone. rewrite (get_config_unset T E w Hnone).
  by rewrite (initialize_config_absent T E None objs cfg w HT Hl Hp Hn).
Qed.

Lemma first_get_tool_config_fails T E objs cfg e w :
  shipped T →
  load_config E None = Ok (Loaded objs cfg) →
  plain (custom cfg) → entries (custom cfg) !! tool_name T = None →
  _config w = None →
  (configure_logging T E (length (configs w)) (VInt 20)
     (created_world T objs cfg w)).1 = Raise e →
  (get_tool_config T E w).1 = Raise e ∧
  (get_config T E w).1 = Raise e ∧
  _config (get_tool_config T E w).2 = None ∧
  ∃ l, section_of T (get_tool_config T E w).2 (length (configs w)) = Some (VRef l) ∧
       dict_at (get_tool_config T E w).2 (VRef l) = Some (defaults_dump T).
Proof.
  intros HT Hl Hp Hn Hnone Hrun.
  unfold get_tool_config. rewrite bind_run.
  rewrite (first_get_config_run T E objs cfg w HT Hl Hp Hn Hnone).
  set (c := length (configs w)) in *. set (wc := created_world T objs cfg w) in *.
  destruct (configure_logging_objects wc T E c (VInt 20) wc) as (Hh & Hc & Hs); [done|].
  pose proof (created_world_config T objs cfg w) as Hcfg.
  pose proof (created_world_section T objs cfg w) as Hsec.
  fold c wc in Hcfg, Hsec.
  destruct (configure_logging T E c (VInt 20) wc) as [[r|e'] w'];
    cbn [fst snd] in Hrun, Hh, Hc, Hs; [done|]. injection Hrun as ->. cbn [fst snd].
  split; [done|]. split; [done|]. split; [by rewrite Hs|].
  exists (length (heap w ++ objs)). unfold section_of, dict_at.
  rewrite Hc, Hh, Hcfg, Hsec. simpl. by rewrite entries_store, lookup_insert_eq.
Qed.

(** C8. The defect of C1 reaches the first read. The loaded configuration
    lacks the tool's entry, in either shape of [custom], and the process
    has not initialized yet. Initialization does create the section with
    the dumped defaults in the loaded object. But when making the logs
    directory fails with an [OSError], the first [get_tool_config()], like
    the first [get_config()], raises that error instead of returning the
    defaults; the singleton stays unset, so no caller can reach the
    section that was created. *)
Theorem first_get_tool_config_raises T E objs cfg dir err w :
  shipped T →
  load_config E None = Ok (Loaded objs cfg) →
  plain (custom cfg) → entries (custom cfg) !! tool_name T = None →
  _config w = None →
  logs_dir_of E cfg = Ok dir → mkdir E dir = Some (OSError err) →
  (get_tool_config T E w).1 = Raise (OSError err) ∧
  (get_config T E w).1 = Raise (OSError err) ∧
  _config (get_tool_config T E w).2 = None ∧
  ∃ l, section_of T (get_tool_config T E w).2 (length (configs w)) = Some (VRef l) ∧
       dict_at (get_tool_config T E w).2 (VRef l) = Some (defaults_dump T).
Proof.
  intros HT Hl Hp Hn Hnone Hd Hm.
  apply (first_get_tool_config_fails T E objs cfg _ w HT Hl Hp Hn Hnone).
  unfold logs_dir_of in Hd. destruct (PYTEST_CURRENT_TEST E) eqn:Ht.
  - injection Hd as <-. rewrite configure_logging_test by done.
    rewrite (basicConfig_ok _ 20%Z) by done. by rewrite Hm.
  - rewrite (configure_logging_normal _ _ _ _ 20%Z) by done. cbv zeta.
    rewrite created_world_config. simpl paths_logs_dir. by rewrite Hd, Hm.
Qed.

Lemma first_get_tool_config_raises_witness :
  (get_tool_config quackmetadata env_mkdir_denied initial_world).1
  = Raise (OSError PermissionDenied) ∧
  (get_tool_config quacktool env_object_mkdir_denied initial_world).1
  = Raise (OSError PermissionDenied).
Proof.
  split.
  - refine (proj1 (first_get_tool_config_raises quackmetadata env_mkdir_denied []
                     host_mapping "./logs" PermissionDenied initial_world _ _ _ _ _ _ _));
      [by left | reflexivity | exact I | reflexivity | reflexivity | reflexivity
      | reflexivity].
  - refine (proj1 (first_get_tool_config_raises quacktool env_object_mkdir_denied []
                     host_object "/var/log/quack" PermissionDenied initial_world
                     _ _ _ _ _ _ _));
      [by right | reflexivity | reflexivity | reflexivity | reflexivity | reflexivity
      | reflexivity].
Defined.

(** The same happens when [paths.logs_dir] is there but is no string,
    [None] for one: in the normal branch [Path(logs_dir)] raises
    [TypeError], and so does the first read. *)
Lemma first_get_tool_config_needs_a_path T E objs cfg v w :
  shipped T →
  load_config E None = Ok (Loaded objs cfg) →
  plain (custom cfg) → entries (custom cfg) !! tool_name T = None →
  _config w = None →
  PYTEST_CURRENT_TEST E = false →
  paths_logs_dir cfg = Some v → (∀ s, v ≠ VStr s) →
  (get_tool_config T E w).1 = Raise TypeError.
Proof.
  intros HT Hl Hp Hn Hnone Ht Hv Hns.
  apply (first_get_tool_config_fails T E objs cfg _ w HT Hl Hp Hn Hnone).
  rewrite (configure_logging_normal _ _ _ _ 20%Z) by done. cbv zeta.
  rewrite created_world_config. simpl paths_logs_dir. rewrite Hv. simpl default.
  destruct v; try done. by destruct (Hns s).
Qed.

(** ** The heap only grows during initialization *)

Definition heap_has (l : loc) (o : pyobj) (w : world) : Prop := heap w !! l = Some o.

Lemma preserves_of_objects {A} (m : M A) (P : world → Prop) :
  (∀ w0, preserves (same_objects w0) m) →
  (∀ w w', same_objects w w' → P w → P w') →
  preserves P m.
Proof. intros Hm HP w H. eapply HP; [|exact H]. by apply Hm. Qed.

Lemma heap_has_objects l o w w' : same_objects w w' → heap_has l o w → heap_has l o w'.
Proof. intros (Hh & _) H. unfold heap_has in *. by rewrite Hh. Qed.

Lemma alloc_heap_has l o obj : preserves (heap_has l o) (alloc obj).
Proof. intros w H. unfold heap_has in *. simpl. by apply lookup_app_l_Some. Qed.

Lemma deref_heap_has l o l' : preserves (heap_has l o) (deref l').
Proof. intros w H. unfold deref. by destruct (heap w !! l'). Qed.

Lemma deref_config_heap_has l o c : preserves (heap_has l o) (deref_config c).
Proof. intros w H. unfold deref_config. by destruct (configs w !! c). Qed.

#[global] Hint Resolve alloc_heap_has deref_heap_has deref_config_heap_has : frame.

Lemma custom_of_heap_has l o c : preserves (heap_has l o) (custom_of c).
Proof. unfold custom_of. preserves_tac. Qed.

Lemma update_custom_heap_has l o c f : preserves (heap_has l o) (update_custom c f).
Proof. unfold update_custom. preserves_tac. Qed.

Lemma call_load_config_heap_has l o E p : preserves (heap_has l o) (call_load_config E p).
Proof.
  unfold call_load_config. destruct (load_config E p) as [[objs cfg]|e];
    [|apply preserves_raise].
  intros w H. unfold heap_has in *. simpl. by apply lookup_app_l_Some.
Qed.

#[global] Hint Resolve custom_of_heap_has update_custom_heap_has
  call_load_config_heap_has : frame.

Lemma ensure_tool_section_heap_has T l o c :
  preserves (heap_has l o) (ensure_tool_section T c).
Proof. unfold ensure_tool_section. preserves_tac. Qed.

Lemma read_log_level_name_heap_has l o v :
  preserves (heap_has l o) (read_log_level_name v).
Proof.
  unfold read_log_level_name, isinstance_dict, dict_get, getattr_val.
  destruct v; preserves_tac.
Qed.

Lemma configure_logging_heap_has T E l o c lvl :
  preserves (heap_has l o) (configure_logging T E c lvl).
Proof.
  apply preserves_of_objects.
  - intros w0. apply configure_logging_objects.
  - apply heap_has_objects.
Qed.

#[global] Hint Resolve ensure_tool_section_heap_has read_log_level_name_heap_has
  configure_logging_heap_has : frame.

Lemma initialize_config_heap_has T E p l o :
  preserves (heap_has l o) (initialize_config T E p).
Proof. rewrite initialize_config_unfold. preserves_tac. Qed.

Lemma get_config_heap_has T E l o : preserves (heap_has l o) (get_config T E).
Proof.
  unfold get_config. apply preserves_bind; [apply preserves_gets|].
  intros [r|]; [apply preserves_ret|].
  apply preserves_bind; [apply initialize_config_heap_has|].
  intros r. preserves_tac.
Qed.

(** ** Updates through the lazy singleton *)

Section lazy.
Context (T : tool).

(** [update_tool_config] and [get_tool_config] start with [get_config()]:
    they behave as if it had been called before them. *)
Lemma get_tool_config_after_get E w :
  get_tool_config T E w =
  match get_config T E w with
  | (Ok r, w0) => get_tool_config T E w0
  | (Raise e, w0) => (Raise e, w0)
  end.
Proof.
  destruct (get_config T E w) as [[r|e] w0] eqn:Hg.
  - unfold get_tool_config.
    rewrite (bind_ok _ _ _ _ _ Hg).
    by rewrite (bind_ok _ _ _ _ _ (get_config_cached T E w0 r (get_config_Ok T E _ _ _ Hg))).
  - unfold get_tool_config. by rewrite (bind_raise _ _ _ _ _ Hg).
Qed.

Lemma update_tool_config_after_get E v w :
  update_tool_config T E v w =
  match get_config T E w with
  | (Ok r, w0) => update_tool_config T E v w0
  | (Raise e, w0) => (Raise e, w0)
  end.
Proof.
  destruct (get_config T E w) as [[r|e] w0] eqn:Hg.
  - unfold update_tool_config.
    rewrite (bind_ok _ _ _ _ _ Hg).
    by rewrite (bind_ok _ _ _ _ _ (get_config_cached T E w0 r (get_config_Ok T E _ _ _ Hg))).
  - unfold update_tool_config. by rewrite (bind_raise _ _ _ _ _ Hg).
Qed.

(** The section that [get_tool_config] returns in a populated state. *)
Lemma get_tool_config_returns E w r v w1 :
  _config w = Some r → get_tool_config T E w = (Ok v, w1) →
  ∃ cfg, configs w !! r = Some cfg ∧ plain (custom cfg) ∧
         v = default (VRef (length (heap w))) (entries (custom cfg) !! tool_name T) ∧
         w1 = set_heap (λ h, h ++ [ODict ∅]) w.
Proof.
  intros Hr Hg. destruct (get_tool_config_plain T E w r v w1 Hr Hg) as (cfg & Hc & Hp).
  exists cfg. rewrite (get_tool_config_cached T E w r cfg Hr Hc Hp) in Hg.
  injection Hg as <- <-. done.
Qed.

Lemma update_merges_populated E w r v w1 sec lp upd :
  _config w = Some r →
  get_tool_config T E w = (Ok v, w1) → dict_at w1 v = Some sec →
  heap_has lp (ODict upd) w →
  ∃ w' l', update_tool_config T E (VRef lp) w = (Ok tt, w') ∧
           _config w' = Some r ∧ same_logging w w' ∧
           section_of T w' r = Some (VRef l') ∧
           dict_at w' (VRef l') = Some (dict_update sec upd).
Proof.
  intros Hr Hg Hs Hu.
  destruct (get_tool_config_returns E w r v w1 Hr Hg) as (cfg & Hc & Hp & -> & ->).
  destruct (default _ _) as [| | | | |ls] eqn:Hv; try discriminate Hs.
  simpl in Hs. destruct ((heap w ++ [ODict ∅]) !! ls) as [[d|a]|] eqn:Hls;
    try discriminate Hs. injection Hs as ->.
  eexists _, (S (length (heap w))).
  split; [by apply (update_tool_config_merge T E w r cfg ls sec lp upd)|].
  assert (Hlt : r < length (configs w)) by (by eapply lookup_lt_Some).
  split; [done|]. split; [done|]. split.
  - unfold section_of. simpl. rewrite list_lookup_insert_eq by done. simpl.
    by rewrite entries_store, lookup_insert_eq.
  - unfold dict_at. simpl.
    rewrite lookup_app_r by lia.
    by replace (S (length (heap w)) - length (heap w)) with 1 by lia.
Qed.

End lazy.

(** C3. The current section, as [get_tool_config()] returns it, is a dict
    with items [sec], and the update is a dict with items [upd]. Then
    [update_tool_config] returns, and the section stored afterwards is a
    dict [merged] in which every key of [upd] has the value of [upd] and
    every other key has what [sec] gives it (its value, or absence). *)
Theorem update_merges T E w v w1 sec lp upd :
  get_tool_config T E w = (Ok v, w1) → dict_at w1 v = Some sec →
  dict_at w (VRef lp) = Some upd →
  ∃ r w' l' merged,
    update_tool_config T E (VRef lp) w = (Ok tt, w') ∧
    _config w' = Some r ∧
    section_of T w' r = Some (VRef l') ∧
    dict_at w' (VRef l') = Some merged ∧
    ∀ k, merged !! k = match upd !! k with Some x => Some x | None => sec !! k end.
Proof.
  intros Hg Hs Hu.
  rewrite get_tool_config_after_get in Hg.
  rewrite update_tool_config_after_get.
  pose proof (get_config_heap_has T E lp (ODict upd) w) as Hheap.
  destruct (get_config T E w) as [[r|e] w0] eqn:Hgc; [|done].
  assert (Hu0 : heap_has lp (ODict upd) w0).
  { apply Hheap. unfold heap_has. unfold dict_at in Hu.
    by destruct (heap w !! lp) as [[d|a]|]; simplify_eq. }
  destruct (update_merges_populated T E w0 r v w1 sec lp upd
              (get_config_Ok T E _ _ _ Hgc) Hg Hs Hu0)
    as (w' & l' & Hrun & Hr & _ & Hsec & Hd).
  exists r, w', l', (dict_update sec upd).
  repeat (split; [done|]). apply dict_update_lookup.
Qed.

(** The states of the example of the specification: section
    [{a: 1, b: 2}], update [{b: 3, c: 4}]. *)
Definition example_world : world :=
  {| heap := [ODict {[ "a" := VInt 1; "b" := VInt 2 ]};
              ODict {[ "b" := VInt 3; "c" := VInt 4 ]}];
     configs := [mkQuackConfig (Mapping {[ "quackmetadata" := VRef 0 ]}) None];
     handlers := []; root_level := logging.WARNING; root_handlers := [];
     _file_handlers := []; _config := Some 0; trace := [] |}.

Lemma update_merges_witness :
  ∃ r w' l' merged,
    update_tool_config quackmetadata env_fine (VRef 1) example_world = (Ok tt, w') ∧
    _config w' = Some r ∧
    section_of quackmetadata w' r = Some (VRef l') ∧
    dict_at w' (VRef l') = Some merged ∧
    ∀ k, merged !! k =
         match ({[ "b" := VInt 3; "c" := VInt 4 ]} : gmap string val) !! k with
         | Some x => Some x
         | None => ({[ "a" := VInt 1; "b" := VInt 2 ]} : gmap string val) !! k
         end.
Proof.
  apply (update_merges quackmetadata env_fine example_world (VRef 0)
           (set_heap (λ h, h ++ [ODict ∅]) example_world)
           {[ "a" := VInt 1; "b" := VInt 2 ]} 1 {[ "b" := VInt 3; "c" := VInt 4 ]});
    reflexivity.
Defined.

(** The example itself: the section becomes [{a: 1, b: 3, c: 4}]. *)
Example merge_example :
  ∃ w', update_tool_config quackmetadata env_fine (VRef 1) example_world = (Ok tt, w') ∧
        section_of quackmetadata w' 0 = Some (VRef 3) ∧
        dict_at w' (VRef 3)
        = Some {[ "a" := VInt 1; "b" := VInt 3; "c" := VInt 4 ]}.
Proof. eexists. split; [reflexivity|]. split; by vm_compute. Qed.

(** C4. The current section is there and is no dict (a scalar or an
    instance). Then [update_tool_config] stores the argument itself, the
    same value or reference, under the tool's name: by [custom[name] = ...]
    when [custom] has a [get], by [setattr] otherwise. Nothing of the old
    section is kept. *)
Theorem update_replaces_non_dict T E w v w1 new_config :
  get_tool_config T E w = (Ok v, w1) → not_dict w1 v →
  ∃ r cfg cfg' w',
    update_tool_config T E new_config w = (Ok tt, w') ∧
    _config w' = Some r ∧
    configs w1 !! r = Some cfg ∧ configs w' !! r = Some cfg' ∧
    section_of T w' r = Some new_config ∧
    ((hasattr (custom cfg) "get" = true ∧
      setitem (custom cfg) (tool_name T) new_config = Ok (custom cfg')) ∨
     (hasattr (custom cfg) "get" = false ∧
      setattr (custom cfg) (tool_name T) new_config = Ok (custom cfg'))).
Proof.
  intros Hg Hn.
  rewrite get_tool_config_after_get in Hg.
  rewrite update_tool_config_after_get.
  destruct (get_config T E w) as [[r|e] w0] eqn:Hgc; [|done].
  pose proof (get_config_Ok T E _ _ _ Hgc) as Hr.
  destruct (get_tool_config_returns T E w0 r v w1 Hr Hg) as (cfg & Hc & Hp & -> & ->).
  assert (Hlt : r < length (configs w0)) by (by eapply lookup_lt_Some).
  destruct (entries (custom cfg) !! tool_name T) as [v|] eqn:He; simpl in Hn.
  - assert (Hn0 : not_dict w0 v).
    { destruct v; try done. destruct Hn as [a Ha]. exists a.
      simpl in Ha. apply lookup_app_Some in Ha as [Ha|[Hge Ha]]; [done|].
      by destruct (l - length (heap w0)). }
    exists r, cfg, (with_custom cfg (store (custom cfg) (tool_name T) new_config)).
    eexists. split; [by apply (update_tool_config_replace T E w0 r cfg v)|].
    split; [done|]. split; [done|].
    split; [simpl; by apply list_lookup_insert_eq|]. split.
    + unfold section_of. simpl. rewrite list_lookup_insert_eq by done. simpl.
      by rewrite entries_store, lookup_insert_eq.
    + rewrite (hasattr_plain _ Hp). destruct (custom cfg); [by left | by right].
  - destruct Hn as [a Ha]. simpl in Ha.
    rewrite lookup_app_r in Ha by lia. by rewrite Nat.sub_diag in Ha.
Qed.

(** A section that is an instance with a [log_level] attribute, in a
    [custom] that is a plain object. *)
Definition instance_world : world :=
  {| heap := [OInst {[ "log_level" := VStr "DEBUG" ]};
              ODict {[ "log_level" := VStr "ERROR" ]}];
     configs := [mkQuackConfig (Attrs {[ "quacktool" := VRef 0 ]}) None];
     handlers := []; root_level := logging.WARNING; root_handlers := [];
     _file_handlers := []; _config := Some 0; trace := [] |}.

Lemma update_replaces_non_dict_witness :
  ∃ r cfg cfg' w',
    update_tool_config quacktool env_fine (VRef 1) instance_world = (Ok tt, w') ∧
    _config w' = Some r ∧
    configs (set_heap (λ h, h ++ [ODict ∅]) instance_world) !! r = Some cfg ∧
    configs w' !! r = Some cfg' ∧
    section_of quacktool w' r = Some (VRef 1) ∧
    ((hasattr (custom cfg) "get" = true ∧
      setitem (custom cfg) (tool_name quacktool) (VRef 1) = Ok (custom cfg')) ∨
     (hasattr (custom cfg) "get" = false ∧
      setattr (custom cfg) (tool_name quacktool) (VRef 1) = Ok (custom cfg'))).
Proof.
  apply (update_replaces_non_dict quacktool env_fine instance_world (VRef 0)
           (set_heap (λ h, h ++ [ODict ∅]) instance_world) (VRef 1));
    [vm_compute; reflexivity|].
  exists {[ "log_level" := VStr "DEBUG" ]}. vm_compute; reflexivity.
Defined.

(** C10. The singleton is unset and the lazy [get_config()] succeeds.
    Then that [get_config()] was a full [initialize_config()]; an
    [update_tool_config] called in the unset state is the same computation
    as one called after it; and with a dict section [sec] and a dict
    update [upd] it returns, leaves the singleton populated with the
    initialized object, which every later [get_config()] returns, and that
    object holds the merged section. *)
Theorem update_initializes_lazily T E w r w0 v w1 sec lp upd :
  _config w = None →
  get_config T E w = (Ok r, w0) →
  get_tool_config T E w0 = (Ok v, w1) → dict_at w1 v = Some sec →
  dict_at w (VRef lp) = Some upd →
  (∃ wi, initialize_config T E None w = (Ok r, wi) ∧ w0 = set_config (Some r) wi) ∧
  update_tool_config T E (VRef lp) w = update_tool_config T E (VRef lp) w0 ∧
  ∃ w' l',
    update_tool_config T E (VRef lp) w = (Ok tt, w') ∧
    (∀ E', get_config T E' w' = (Ok r, w')) ∧
    section_of T w' r = Some (VRef l') ∧
    dict_at w' (VRef l') = Some (upd ∪ sec).
Proof.
  intros Hnone Hgc Hg Hs Hu.
  split; [|split].
  - rewrite (get_config_unset T E w Hnone) in Hgc.
    destruct (initialize_config T E None w) as [[r'|e] wi]; [|done].
    injection Hgc as -> <-. by exists wi.
  - by rewrite update_tool_config_after_get, Hgc.
  - rewrite update_tool_config_after_get, Hgc.
    assert (Hu0 : heap_has lp (ODict upd) w0).
    { pose proof (get_config_heap_has T E lp (ODict upd) w) as Hheap.
      rewrite Hgc in Hheap. apply Hheap. unfold heap_has. unfold dict_at in Hu.
      by destruct (heap w !! lp) as [[d|a]|]; simplify_eq. }
    destruct (update_merges_populated T E w0 r v w1 sec lp upd
                (get_config_Ok T E _ _ _ Hgc) Hg Hs Hu0)
      as (w' & l' & Hrun & Hr & _ & Hsec & Hd).
    exists w', l'. split; [done|]. split; [|split; [done|]].
    + intros E'. by apply get_config_cached.
    + by rewrite <- dict_update_union.
Qed.

(** When the lazy initialization raises, so does the update, with the same
    exception: there is no failure of its own for the unset singleton. *)
Lemma update_raises_with_initialization T E v w e wi :
  _config w = None →
  initialize_config T E None w = (Raise e, wi) →
  update_tool_config T E v w = (Raise e, wi).
Proof.
  intros Hnone Hi.
  by rewrite update_tool_config_after_get, (get_config_unset T E w Hnone), Hi.
Qed.

(** A process that holds an update dict and has not called [get_config]. *)
Definition unset_world : world :=
  {| heap := [ODict {[ "max_retries" := VInt 5 ]}];
     configs := []; handlers := []; root_level := logging.WARNING;
     root_handlers := []; _file_handlers := []; _config := None; trace := [] |}.

Lemma update_initializes_lazily_witness :
  _config unset_world = None ∧
  ∃ w' l',
    update_tool_config quackmetadata env_fine (VRef 0) unset_world = (Ok tt, w') ∧
    (∀ E', get_config quackmetadata E' w' = (Ok 0, w')) ∧
    section_of quackmetadata w' 0 = Some (VRef l') ∧
    dict_at w' (VRef l')
    = Some ({[ "max_retries" := VInt 5 ]} ∪ defaults_dump quackmetadata).
Proof.
  split; [reflexivity|].
  apply (update_initializes_lazily quackmetadata env_fine unset_world 0
           (get_config quackmetadata env_fine unset_world).2
           (VRef 1)
           (get_tool_config quackmetadata env_fine
              (get_config quackmetadata env_fine unset_world).2).2
           (defaults_dump quackmetadata) 0 {[ "max_retries" := VInt 5 ]});
    vm_compute; reflexivity.
Defined.

(** ** What the logging transformers do to the observations *)

Lemma handler_test_lt f w x : handler_test f w x = true → x < length (handlers w).
Proof.
  unfold handler_test. destruct (handlers w !! x) eqn:H; [|done].
  intros _. by eapply lookup_lt_Some.
Qed.

Lemma handler_test_insert f hs' w h hd' x :
  h < length (handlers w) → hs' = <[h := hd']> (handlers w) →
  (match hs' !! x with Some hd => f hd | None => false end)
  = if bool_decide (x = h) then f hd' else handler_test f w x.
Proof.
  intros Hlt ->. case_bool_decide as Hx.
  - subst x. by rewrite list_lookup_insert_eq.
  - by rewrite list_lookup_insert_ne.
Qed.

Lemma handler_test_app f w hd x :
  (match (handlers w ++ [hd]) !! x with Some hd => f hd | None => false end)
  = if bool_decide (x = length (handlers w)) then f hd else handler_test f w x.
Proof.
  unfold handler_test. case_bool_decide as Hx.
  - subst x. rewrite lookup_app_r by lia. by rewrite Nat.sub_diag.
  - destruct (decide (x < length (handlers w))).
    + by rewrite lookup_app_l.
    + rewrite !lookup_ge_None_2; [done | lia | rewrite length_app; simpl; lia].
Qed.

Section close_effect.
Context (p : phase) (h : nat) (w : world).

Lemma close_handler_length : length (handlers (close_handler p h w)) = length (handlers w).
Proof.
  unfold close_handler. destruct (handlers w !! h) as [hd|]; [|done].
  destruct (h_closed hd); [done|].
  destruct (is_file hd); simpl; by rewrite length_insert.
Qed.

Lemma close_handler_root : root_handlers (close_handler p h w) = root_handlers w.
Proof.
  unfold close_handler. destruct (handlers w !! h) as [hd|]; [|done].
  destruct (h_closed hd); [done|]. by destruct (is_file hd).
Qed.

Lemma close_handler_registry : _file_handlers (close_handler p h w) = _file_handlers w.
Proof.
  unfold close_handler. destruct (handlers w !! h) as [hd|]; [|done].
  destruct (h_closed hd); [done|]. by destruct (is_file hd).
Qed.

Lemma close_handler_root_level : root_level (close_handler p h w) = root_level w.
Proof.
  unfold close_handler. destruct (handlers w !! h) as [hd|]; [|done].
  destruct (h_closed hd); [done|]. by destruct (is_file hd).
Qed.

(** A test that does not look at the closed flag is not affected. *)
Lemma close_handler_class f x :
  (∀ hd, f (mkHandler (h_class hd) (h_level hd) true) = f hd) →
  handler_test f (close_handler p h w) x = handler_test f w x.
Proof.
  intros Hf. unfold close_handler.
  destruct (handlers w !! h) as [hd|] eqn:Hh; [|done].
  destruct (h_closed hd); [done|].
  assert (Hlt : h < length (handlers w)) by (by eapply lookup_lt_Some).
  assert (Hx : handler_test f
                 (set_handlers (λ hs, <[h := mkHandler (h_class hd) (h_level hd) true]> hs) w) x
               = handler_test f w x).
  { unfold handler_test at 1. simpl.
    rewrite (handler_test_insert f _ w h _ x Hlt eq_refl).
    case_bool_decide as Hxh; [|done]. subst x.
    unfold handler_test. by rewrite Hh, Hf. }
  by destruct (is_file hd).
Qed.

Lemma close_handler_file_at x : file_at (close_handler p h w) x = file_at w x.
Proof. by apply close_handler_class. Qed.

Lemma close_handler_console_at x : console_at (close_handler p h w) x = console_at w x.
Proof. by apply close_handler_class. Qed.

Lemma close_handler_live_at x :
  live_at (close_handler p h w) x = if bool_decide (x = h) then false else live_at w x.
Proof.
  unfold live_at, close_handler.
  destruct (handlers w !! h) as [hd|] eqn:Hh.
  - assert (Hlt : h < length (handlers w)) by (by eapply lookup_lt_Some).
    destruct (h_closed hd) eqn:Hc.
    + case_bool_decide as Hx; [|done]. subst x. unfold handler_test.
      rewrite Hh, Hc. by rewrite andb_false_r.
    + assert (Hx : handler_test (λ hd, is_file hd && negb (h_closed hd))
                 (set_handlers (λ hs, <[h := mkHandler (h_class hd) (h_level hd) true]> hs) w) x
               = if bool_decide (x = h) then false
                 else handler_test (λ hd, is_file hd && negb (h_closed hd)) w x).
      { unfold handler_test at 1. simpl.
        rewrite (handler_test_insert _ _ w h _ x Hlt eq_refl).
        case_bool_decide; [|done]. simpl. by rewrite andb_false_r. }
      by destruct (is_file hd).
  - case_bool_decide as Hx; [|done]. subst x. unfold handler_test. by rewrite Hh.
Qed.

Lemma close_handler_closed_at x :
  closed_at (close_handler p h w) x
  = if bool_decide (x = h ∧ h < length (handlers w)) then true else closed_at w x.
Proof.
  unfold closed_at, close_handler.
  destruct (handlers w !! h) as [hd|] eqn:Hh.
  - assert (Hlt : h < length (handlers w)) by (by eapply lookup_lt_Some).
    destruct (h_closed hd) eqn:Hc.
    + case_bool_decide as Hx; [|done]. destruct Hx as [-> _].
      unfold handler_test. by rewrite Hh.
    + assert (Hx : handler_test h_closed
                 (set_handlers (λ hs, <[h := mkHandler (h_class hd) (h_level hd) true]> hs) w) x
               = if bool_decide (x = h) then true else handler_test h_closed w x).
      { unfold handler_test at 1. simpl.
        by rewrite (handler_test_insert _ _ w h _ x Hlt eq_refl). }
      destruct (is_file hd); (etrans; [exact Hx|]);
        repeat case_bool_decide; try done; exfalso; tauto.
  - apply lookup_ge_None_1 in Hh. rewrite bool_decide_eq_false_2; [done|]. lia.
Qed.

Lemma close_handler_trace :
  trace (close_handler p h w)
  = trace w ++ (if live_at w h then [Released h p] else []).
Proof.
  unfold live_at, handler_test, close_handler.
  destruct (handlers w !! h) as [hd|] eqn:Hh; [|by rewrite app_nil_r].
  destruct (h_closed hd); [by rewrite andb_false_r, app_nil_r|].
  destruct (is_file hd); simpl; [done | by rewrite app_nil_r].
Qed.

End close_effect.

(** ** Counting and removing *)

Lemma count_app f l l' : count f (l ++ l') = count f l + count f l'.
Proof. induction l as [|x l IH]; simpl; [done|]. rewrite IH. lia. Qed.

Lemma count_ext f g l : (∀ x, x ∈ l → f x = g x) → count f l = count g l.
Proof.
  induction l as [|x l IH]; intros H; simpl; [done|].
  rewrite (H x) by apply list_elem_of_here.
  rewrite IH; [done|]. intros y Hy. apply H. by apply list_elem_of_further.
Qed.

Lemma count_zero f l : count f l = 0 ↔ ∀ x, x ∈ l → f x = false.
Proof.
  induction l as [|x l IH]; simpl.
  - split; [|done]. intros _ y Hy. by apply elem_of_nil in Hy.
  - split.
    + intros H y Hy. destruct (f x) eqn:Hx; [simpl in H; lia|].
      apply elem_of_cons in Hy as [->|Hy]; [done|]. apply IH; [|done]. simpl in H. lia.
    + intros H. rewrite (H x) by apply list_elem_of_here. simpl.
      apply IH. intros y Hy. apply H. by apply list_elem_of_further.
Qed.

Lemma count_existsb f l : existsb f l = false → count f l = 0.
Proof.
  induction l as [|x l IH]; simpl; [done|].
  intros [-> Hl]%orb_false_iff. simpl. by apply IH.
Qed.

Lemma count_le_length f l : (count f l ≤ length l)%nat.
Proof. induction l as [|x l IH]; simpl; [done|]. destruct (f x); simpl; lia. Qed.

Lemma remove_first_elem h l x : x ∈ remove_first h l → x ∈ l.
Proof.
  induction l as [|y l IH]; simpl; [done|].
  case_bool_decide.
  - intros Hx. by apply list_elem_of_further.
  - intros [->|Hx]%elem_of_cons; [apply list_elem_of_here|].
    apply list_elem_of_further. by apply IH.
Qed.

Lemma remove_first_NoDup_elem h l x :
  NoDup l → x ∈ remove_first h l ↔ x ∈ l ∧ x ≠ h.
Proof.
  induction l as [|y l IH]; simpl; intros Hnd.
  - split; [intros H; by apply elem_of_nil in H | intros [H _]; by apply elem_of_nil in H].
  - apply NoDup_cons in Hnd as [Hy Hnd]. case_bool_decide as Hyh.
    + subst y. split.
      * intros Hx. split; [by apply list_elem_of_further|]. by intros ->.
      * intros [[->|Hx]%elem_of_cons Hne]; done.
    + rewrite !elem_of_cons, (IH Hnd). intuition congruence.
Qed.

Lemma remove_first_NoDup h l : NoDup l → NoDup (remove_first h l).
Proof.
  induction l as [|y l IH]; simpl; intros Hnd; [done|].
  apply NoDup_cons in Hnd as [Hy Hnd]. case_bool_decide; [done|].
  apply NoDup_cons. split; [|by apply IH].
  intros Hin. by apply Hy, (remove_first_elem h).
Qed.

Lemma count_remove_first f h l : (count f (remove_first h l) ≤ count f l)%nat.
Proof.
  induction l as [|y l IH]; simpl; [done|].
  case_bool_decide; simpl; lia.
Qed.

(** ** Traces *)

Definition trace_step (live : list nat) (e : event) : list nat :=
  match e with
  | Opened h _ _ => live ++ [h]
  | Released h _ => List.filter (λ x, negb (Nat.eqb x h)) live
  end.

Lemma live_after_snoc live tr e :
  live_after live (tr ++ [e]) = trace_step (live_after live tr) e.
Proof.
  revert live. induction tr as [|e' tr IH]; intros live; simpl.
  - by destruct e.
  - destruct e'; apply IH.
Qed.

Lemma one_at_a_time_snoc live tr e :
  one_at_a_time live (tr ++ [e])
  = one_at_a_time live tr &&
    match e with
    | Opened _ _ _ => match live_after live tr with [] => true | _ => false end
    | Released _ _ => true
    end.
Proof.
  revert live. induction tr as [|e' tr IH]; intros live; simpl.
  - destruct e; [by destruct live | done].
  - destruct e'; [|apply IH]. destruct live; [apply IH | done].
Qed.

Lemma releases_app h tr tr' : releases h (tr ++ tr') = releases h tr + releases h tr'.
Proof.
  induction tr as [|e tr IH]; simpl; [done|]. destruct e; rewrite IH; lia.
Qed.

Lemma releases_phases h tr :
  releases h tr = releases_in InInitialize h tr + releases_in AtExit h tr.
Proof.
  induction tr as [|e tr IH]; simpl; [done|].
  destruct e as [|h' q]; [done|]. rewrite IH.
  case_bool_decide; destruct q; simpl; lia.
Qed.

Lemma elem_of_filter_neq x h live :
  x ∈ List.filter (λ y, negb (Nat.eqb y h)) live ↔ x ∈ live ∧ x ≠ h.
Proof.
  rewrite !list_elem_of_In, List.filter_In.
  rewrite negb_true_iff, Nat.eqb_neq. done.
Qed.

(** ** The invariant of the logging state *)

Record Inv (w : world) : Prop := mkInv {
  (* the attached and the tracked handlers exist, each listed once *)
  inv_root_valid : ∀ h, h ∈ root_handlers w → (h < length (handlers w))%nat;
  inv_reg_valid : ∀ h, h ∈ _file_handlers w → (h < length (handlers w))%nat;
  inv_root_nodup : NoDup (root_handlers w);
  inv_reg_nodup : NoDup (_file_handlers w);
  (* at most one console handler and one file handler on the root logger *)
  inv_console : (count (console_at w) (root_handlers w) ≤ 1)%nat;
  inv_file : (count (file_at w) (root_handlers w) ≤ 1)%nat;
  (* a file handler holds its descriptor exactly while it is attached *)
  inv_live_attached : ∀ h, live_at w h = true → h ∈ root_handlers w;
  inv_attached_live : ∀ h, h ∈ root_handlers w → file_at w h = true → live_at w h = true;
  (* the registry tracks file handlers, at most one of them open *)
  inv_reg_file : ∀ h, h ∈ _file_handlers w → file_at w h = true;
  inv_reg_live : (count (live_at w) (_file_handlers w) ≤ 1)%nat;
  (* a descriptor was released once if its handler is closed, else never *)
  inv_released : ∀ h, releases h (trace w) = if file_at w h && closed_at w h then 1%nat else 0%nat;
  (* no file was opened while another descriptor was open *)
  inv_one_at_a_time : one_at_a_time [] (trace w) = true;
  inv_trace_live : ∀ h, h ∈ live_after [] (trace w) → live_at w h = true }.

Lemma live_at_spec w h : live_at w h = file_at w h && negb (closed_at w h).
Proof.
  unfold live_at, file_at, closed_at, handler_test. by destruct (handlers w !! h).
Qed.

Lemma handler_test_same f w w' : handlers w' = handlers w → handler_test f w' = handler_test f w.
Proof. intros H. unfold handler_test. by rewrite H. Qed.

Lemma Inv_initial : Inv initial_world.
Proof.
  split; simpl; try done; try (intros h Hh; by apply elem_of_nil in Hh);
    try apply NoDup_nil_2; try lia.
Qed.

Lemma Inv_same_logging w w' : same_logging w w' → Inv w → Inv w'.
Proof.
  intros (Hh & _ & Hr & Hf & Ht) [].
  unfold console_at, file_at, live_at, closed_at in *.
  split; unfold console_at, file_at, live_at, closed_at;
    rewrite ?Hr, ?Hf, ?Ht, ?(handler_test_same _ _ _ Hh), ?Hh; done.
Qed.

Lemma Inv_set_root_level z w : Inv w → Inv (set_root_level z w).
Proof. intros []. by split. Qed.

Lemma count_mono f g l :
  (∀ x, x ∈ l → f x = true → g x = true) → (count f l ≤ count g l)%nat.
Proof.
  induction l as [|x l IH]; intros H; simpl; [done|].
  assert (count f l ≤ count g l)%nat.
  { apply IH. intros y Hy. apply H. by apply list_elem_of_further. }
  destruct (f x) eqn:Hx.
  - rewrite (H x (list_elem_of_here _ _) Hx). lia.
  - destruct (g x); simpl; lia.
Qed.

(** Closing keeps the count of releases in step with the closed flag. *)
Definition released_ok (w : world) : Prop :=
  ∀ h, releases h (trace w) = if file_at w h && closed_at w h then 1%nat else 0%nat.

Lemma close_released_ok p h w : released_ok w → released_ok (close_handler p h w).
Proof.
  intros Hr x.
  rewrite close_handler_trace, releases_app, Hr, close_handler_file_at,
    close_handler_closed_at.
  pose proof (live_at_spec w h) as Hl.
  case_bool_decide as Hx.
  - destruct Hx as [-> Hv]. rewrite Hl.
    destruct (file_at w h), (closed_at w h); simpl; try done.
    by rewrite bool_decide_eq_true_2.
  - destruct (decide (x = h)) as [->|Hne].
    + assert (Hf : file_at w h = false).
      { destruct (file_at w h) eqn:Hf; [|done].
        apply handler_test_lt in Hf. destruct Hx. done. }
      rewrite Hl, Hf. done.
    + destruct (live_at w h); simpl; [|lia].
      rewrite bool_decide_eq_false_2 by done. lia.
Qed.

Lemma Inv_detach_close p h w : Inv w → Inv (detach_close p h w).
Proof.
  intros []. unfold detach_close.
  set (w0 := set_root_handlers (remove_first h) w).
  assert (Hroot : root_handlers (close_handler p h w0) = remove_first h (root_handlers w))
    by exact (close_handler_root p h w0).
  assert (Hreg : _file_handlers (close_handler p h w0) = _file_handlers w)
    by exact (close_handler_registry p h w0).
  assert (Hlen : length (handlers (close_handler p h w0)) = length (handlers w))
    by exact (close_handler_length p h w0).
  assert (Hfile : ∀ x, file_at (close_handler p h w0) x = file_at w x)
    by exact (close_handler_file_at p h w0).
  assert (Hcons : ∀ x, console_at (close_handler p h w0) x = console_at w x)
    by exact (close_handler_console_at p h w0).
  assert (Hlive : ∀ x, live_at (close_handler p h w0) x
                       = if bool_decide (x = h) then false else live_at w x)
    by exact (close_handler_live_at p h w0).
  assert (Hclosed : ∀ x, closed_at (close_handler p h w0) x
                         = if bool_decide (x = h ∧ (h < length (handlers w))%nat)
                           then true else closed_at w x)
    by exact (close_handler_closed_at p h w0).
  assert (Htrace : trace (close_handler p h w0)
                   = trace w ++ (if live_at w h then [Released h p] else []))
    by exact (close_handler_trace p h w0).
  split; rewrite ?Hroot, ?Hreg, ?Hlen, ?Htrace.
  - intros x Hx. by apply inv_root_valid0, (remove_first_elem h).
  - done.
  - by apply remove_first_NoDup.
  - done.
  - rewrite (count_ext _ (console_at w)) by (intros; apply Hcons).
    etrans; [apply count_remove_first | done].
  - rewrite (count_ext _ (file_at w)) by (intros; apply Hfile).
    etrans; [apply count_remove_first | done].
  - intros x. rewrite Hlive. case_bool_decide; [done|]. intros Hx.
    apply remove_first_NoDup_elem; [done|]. split; [by apply inv_live_attached0 | done].
  - intros x [Hx Hne]%remove_first_NoDup_elem; [|done].
    rewrite Hfile, Hlive. rewrite bool_decide_eq_false_2 by done.
    by apply inv_attached_live0.
  - intros x Hx. rewrite Hfile. by apply inv_reg_file0.
  - etrans; [|exact inv_reg_live0]. apply count_mono.
    intros x _. rewrite Hlive. by case_bool_decide.
  - rewrite <- Htrace. exact (close_released_ok p h w0 inv_released0).
  - destruct (live_at w h); [|by rewrite app_nil_r].
    by rewrite one_at_a_time_snoc, inv_one_at_a_time0.
  - intros x. rewrite Hlive. destruct (live_at w h) eqn:Hlh.
    + rewrite live_after_snoc. simpl. intros [Hx Hne]%elem_of_filter_neq.
      rewrite bool_decide_eq_false_2 by done. by apply inv_trace_live0.
    + rewrite app_nil_r. intros Hx. pose proof (inv_trace_live0 x Hx) as Hlx.
      case_bool_decide; [congruence | done].
Qed.

Lemma Inv_sweep_all hs w : Inv w → Inv (sweep_all hs w).
Proof.
  revert w. induction hs as [|h hs IH]; intros w H; simpl; [done|].
  by apply IH, Inv_detach_close.
Qed.

Lemma Inv_sweep_files hs w : Inv w → Inv (sweep_files hs w).
Proof.
  revert w. induction hs as [|h hs IH]; intros w H; simpl; [done|].
  apply IH. destruct (file_at w h); [by apply Inv_detach_close | done].
Qed.

(** No handler holds a descriptor. *)
Definition quiet (w : world) : Prop := ∀ x, live_at w x = false.

Lemma sweep_files_no_file hs w :
  Inv w →
  (∀ x, x ∈ root_handlers w → file_at w x = true → x ∈ hs) →
  ∀ x, x ∈ root_handlers (sweep_files hs w) → file_at (sweep_files hs w) x = false.
Proof.
  revert w. induction hs as [|h hs IH]; intros w HI Hhs; simpl.
  - intros x Hx. destruct (file_at w x) eqn:Hf; [|done].
    by apply Hhs, elem_of_nil in Hf.
  - destruct (file_at w h) eqn:Hfh.
    + apply IH; [by apply Inv_detach_close|].
      intros x. unfold detach_close.
      rewrite close_handler_root, close_handler_file_at. simpl.
      intros [Hx Hne]%remove_first_NoDup_elem Hf; [|by destruct HI].
      pose proof (Hhs x Hx Hf) as Hin.
      by apply elem_of_cons in Hin as [->|Hin].
    + apply IH; [done|]. intros x Hx Hf.
      pose proof (Hhs x Hx Hf) as Hin.
      apply elem_of_cons in Hin as [->|Hin]; [congruence | done].
Qed.

Lemma live_at_file w x : live_at w x = true → file_at w x = true.
Proof. rewrite live_at_spec. by intros [? _]%andb_true_iff. Qed.

Lemma quiet_after_files w : Inv w → quiet (sweep_files (root_handlers w) w).
Proof.
  intros HI x. destruct (live_at _ x) eqn:Hl; [|done].
  pose proof (Inv_sweep_files (root_handlers w) w HI) as HI'.
  pose proof (inv_live_attached _ HI' x Hl) as Hx.
  pose proof (live_at_file _ _ Hl) as Hf.
  by rewrite (sweep_files_no_file (root_handlers w) w HI (λ y Hy _, Hy) x Hx) in Hf.
Qed.

Lemma quiet_after_all w : Inv w → quiet (sweep_all (root_handlers w) w).
Proof.
  intros HI x. destruct (live_at _ x) eqn:Hl; [|done].
  pose proof (Inv_sweep_all (root_handlers w) w HI) as HI'.
  pose proof (inv_live_attached _ HI' x Hl) as Hx.
  rewrite (sweep_all_root _ w eq_refl) in Hx. by apply elem_of_nil in Hx.
Qed.

(** *** Attaching a new handler *)

Lemma attach_new_root cls z w :
  (∀ h, h ∈ root_handlers w → (h < length (handlers w))%nat) →
  root_handlers (attach_new cls z w) = root_handlers w ++ [length (handlers w)].
Proof.
  intros HI. unfold attach_new. simpl.
  rewrite bool_decide_eq_false_2; [done|].
  intros Hin. apply HI in Hin. lia.
Qed.

Lemma attach_new_test f cls z w x :
  handler_test f (attach_new cls z w) x
  = if bool_decide (x = length (handlers w)) then f (mkHandler cls z false)
    else handler_test f w x.
Proof. unfold handler_test at 1. simpl. apply handler_test_app. Qed.

Lemma test_fresh f w : handler_test f w (length (handlers w)) = false.
Proof. unfold handler_test. by rewrite lookup_ge_None_2. Qed.

Lemma count_fresh f g l n :
  (∀ x, x ∈ l → (x < n)%nat) →
  (∀ x, f x = if bool_decide (x = n) then true else g x) ∨
  (∀ x, f x = if bool_decide (x = n) then false else g x) →
  count f l = count g l.
Proof.
  intros Hl Hf. apply count_ext. intros x Hx.
  pose proof (Hl x Hx).
  destruct Hf as [Hf|Hf]; rewrite Hf; rewrite bool_decide_eq_false_2; (done || lia).
Qed.

Lemma Inv_attach_console z w :
  Inv w → count (console_at w) (root_handlers w) = 0%nat →
  Inv (attach_new StreamHandler z w).
Proof.
  intros HI Hnone. pose proof HI as [].
  set (n := length (handlers w)).
  assert (Hcons : ∀ x, console_at (attach_new StreamHandler z w) x
                       = if bool_decide (x = n) then true else console_at w x)
    by (intros; apply attach_new_test).
  assert (Hfile : ∀ x, file_at (attach_new StreamHandler z w) x
                       = if bool_decide (x = n) then false else file_at w x)
    by (intros; apply attach_new_test).
  assert (Hlive : ∀ x, live_at (attach_new StreamHandler z w) x
                       = if bool_decide (x = n) then false else live_at w x)
    by (intros; apply attach_new_test).
  assert (Hclosed : ∀ x, closed_at (attach_new StreamHandler z w) x
                         = if bool_decide (x = n) then false else closed_at w x)
    by (intros; apply attach_new_test).
  assert (Hlen : length (handlers (attach_new StreamHandler z w)) = S n)
    by (simpl; rewrite length_app; simpl; lia).
  split; rewrite ?(attach_new_root _ _ _ inv_root_valid0), ?Hlen; fold n.
  - intros x [Hx| ->%list_elem_of_singleton]%elem_of_app; [|lia].
    apply inv_root_valid0 in Hx. fold n in Hx. lia.
  - intros x Hx. apply inv_reg_valid0 in Hx. fold n in Hx. simpl. lia.
  - apply NoDup_app. split; [done|]. split; [|apply NoDup_singleton].
    intros x Hx ->%list_elem_of_singleton. apply inv_root_valid0 in Hx. fold n in Hx. lia.
  - done.
  - rewrite count_app. simpl. rewrite Hcons, bool_decide_eq_true_2 by done.
    rewrite (count_fresh _ (console_at w) _ n); [lia | done | by left].
  - rewrite count_app. simpl. rewrite Hfile, bool_decide_eq_true_2 by done.
    rewrite (count_fresh _ (file_at w) _ n); [lia | done | by right].
  - intros x. rewrite Hlive. case_bool_decide; [done|]. intros Hx.
    apply elem_of_app. left. by apply inv_live_attached0.
  - intros x [Hx| ->%list_elem_of_singleton]%elem_of_app.
    + rewrite Hfile, Hlive. pose proof (inv_root_valid0 x Hx). fold n in H.
      rewrite !bool_decide_eq_false_2 by lia. by apply inv_attached_live0.
    + rewrite Hfile. by rewrite bool_decide_eq_true_2.
  - intros x Hx. simpl in Hx. rewrite Hfile. pose proof (inv_reg_valid0 x Hx). fold n in H.
    rewrite bool_decide_eq_false_2 by lia. by apply inv_reg_file0.
  - simpl _file_handlers.
    rewrite (count_fresh _ (live_at w) _ n); [done | done | by right].
  - intros x. simpl trace. rewrite inv_released0, Hfile, Hclosed.
    case_bool_decide as Hx; [|done]. subst x. unfold file_at. by rewrite test_fresh.
  - done.
  - intros x Hx. simpl in Hx. pose proof (inv_trace_live0 x Hx) as Hl. rewrite Hlive.
    case_bool_decide as Hn; [|done]. subst x. unfold live_at in Hl.
    by rewrite test_fresh in Hl.
Qed.

Lemma quiet_no_file w x :
  Inv w → quiet w → x ∈ root_handlers w → file_at w x = false.
Proof.
  intros HI Hq Hx. destruct (file_at w x) eqn:Hf; [|done].
  pose proof (inv_attached_live _ HI x Hx Hf) as Hl. by rewrite (Hq x) in Hl.
Qed.

Lemma Inv_attach_file z dir file w :
  Inv w → quiet w → Inv (attach_file z dir file w).
Proof.
  intros HI Hq. pose proof HI as [].
  set (n := length (handlers w)).
  set (w0 := emit (Opened n dir file) w).
  unfold attach_file. fold n w0.
  set (w1 := attach_new FileHandler z w0).
  assert (Hcons : ∀ x, console_at w1 x
                       = if bool_decide (x = n) then false else console_at w x)
    by (intros; exact (attach_new_test _ FileHandler z w0 x)).
  assert (Hfile : ∀ x, file_at w1 x
                       = if bool_decide (x = n) then true else file_at w x)
    by (intros; exact (attach_new_test _ FileHandler z w0 x)).
  assert (Hlive : ∀ x, live_at w1 x
                       = if bool_decide (x = n) then true else live_at w x)
    by (intros; exact (attach_new_test _ FileHandler z w0 x)).
  assert (Hclosed : ∀ x, closed_at w1 x
                         = if bool_decide (x = n) then false else closed_at w x)
    by (intros; exact (attach_new_test _ FileHandler z w0 x)).
  assert (Hlen : length (handlers w1) = S n)
    by (simpl; rewrite length_app; simpl; lia).
  assert (Hroot : root_handlers w1 = root_handlers w ++ [n])
    by exact (attach_new_root FileHandler z w0 inv_root_valid0).
  assert (Hempty : live_after [] (trace w) = []).
  { destruct (live_after [] (trace w)) as [|x l] eqn:Hl; [done|].
    assert (Hx : x ∈ live_after [] (trace w)) by (rewrite Hl; apply list_elem_of_here).
    apply (inv_trace_live _ HI) in Hx. by rewrite (Hq x) in Hx. }
  split; change (handlers (set_file_handlers _ w1)) with (handlers w1);
    change (root_handlers (set_file_handlers _ w1)) with (root_handlers w1);
    change (console_at (set_file_handlers _ w1)) with (console_at w1);
    change (file_at (set_file_handlers _ w1)) with (file_at w1);
    change (live_at (set_file_handlers _ w1)) with (live_at w1);
    change (closed_at (set_file_handlers _ w1)) with (closed_at w1);
    change (_file_handlers (set_file_handlers _ w1)) with (_file_handlers w ++ [n]);
    change (trace (set_file_handlers _ w1)) with (trace w ++ [Opened n dir file]);
    rewrite ?Hroot, ?Hlen.
  - intros x [Hx| ->%list_elem_of_singleton]%elem_of_app; [|lia].
    apply inv_root_valid0 in Hx. fold n in Hx. lia.
  - intros x [Hx| ->%list_elem_of_singleton]%elem_of_app; [|lia].
    apply inv_reg_valid0 in Hx. fold n in Hx. lia.
  - apply NoDup_app. split; [done|]. split; [|apply NoDup_singleton].
    intros x Hx ->%list_elem_of_singleton. apply inv_root_valid0 in Hx. fold n in Hx. lia.
  - apply NoDup_app. split; [done|]. split; [|apply NoDup_singleton].
    intros x Hx ->%list_elem_of_singleton. apply inv_reg_valid0 in Hx. fold n in Hx. lia.
  - rewrite count_app. simpl. rewrite Hcons, bool_decide_eq_true_2 by done.
    rewrite (count_fresh _ (console_at w) _ n); [lia | done | by right].
  - rewrite count_app. simpl. rewrite Hfile, bool_decide_eq_true_2 by done.
    rewrite (count_fresh _ (file_at w) _ n); [| done | by left].
    assert (count (file_at w) (root_handlers w) = 0%nat) as ->; [|done].
    apply count_zero. intros x Hx. by apply quiet_no_file.
  - intros x. rewrite Hlive. case_bool_decide as Hx.
    + subst x. intros _. apply elem_of_app. right. apply list_elem_of_here.
    + by rewrite (Hq x).
  - intros x [Hx| ->%list_elem_of_singleton]%elem_of_app.
    + rewrite Hfile, Hlive. pose proof (inv_root_valid0 x Hx). fold n in H.
      rewrite !bool_decide_eq_false_2 by lia. by apply inv_attached_live0.
    + rewrite Hlive. by rewrite bool_decide_eq_true_2.
  - intros x [Hx| ->%list_elem_of_singleton]%elem_of_app.
    + rewrite Hfile. pose proof (inv_reg_valid0 x Hx). fold n in H.
      rewrite bool_decide_eq_false_2 by lia. by apply inv_reg_file0.
    + rewrite Hfile. by rewrite bool_decide_eq_true_2.
  - rewrite count_app. simpl. rewrite Hlive, bool_decide_eq_true_2 by done.
    rewrite (count_fresh _ (live_at w) _ n); [| done | by left].
    assert (count (live_at w) (_file_handlers w) = 0%nat) as ->; [|done].
    apply count_zero. intros x _. apply Hq.
  - intros x. rewrite releases_app. simpl. rewrite Nat.add_0_r.
    rewrite inv_released0, Hfile, Hclosed.
    case_bool_decide as Hx; [|done]. subst x. unfold file_at. by rewrite test_fresh.
  - by rewrite one_at_a_time_snoc, inv_one_at_a_time0, Hempty.
  - intros x. rewrite live_after_snoc, Hempty. simpl.
    intros ->%list_elem_of_singleton. rewrite Hlive. by rewrite bool_decide_eq_true_2.
Qed.

(** *** The invariant through the logging part *)

Lemma Inv_normal_prepared z w :
  Inv w → Inv (normal_prepared z w) ∧ quiet (normal_prepared z w).
Proof.
  intros HI. unfold normal_prepared.
  set (w1 := console_step z (set_root_level z w)).
  assert (H1 : Inv w1).
  { unfold w1, console_step. apply (Inv_set_root_level z) in HI.
    destruct (existsb _ _) eqn:He; [done|].
    apply Inv_attach_console; [done|]. by apply count_existsb. }
  split; [by apply Inv_sweep_files | by apply quiet_after_files].
Qed.

Lemma Inv_test_prepared w : Inv w → Inv (test_prepared w).
Proof.
  intros HI. unfold test_prepared.
  apply Inv_attach_console; [by apply Inv_sweep_all|].
  by rewrite (sweep_all_root _ w eq_refl).
Qed.

Lemma configure_logging_Inv T E qc lvl : preserves Inv (configure_logging T E qc lvl).
Proof.
  intros w HI. destruct (PYTEST_CURRENT_TEST E) eqn:Ht.
  - rewrite configure_logging_test by done. rewrite basicConfig_run. cbv zeta.
    fold (test_prepared w). pose proof (Inv_test_prepared w HI) as HI'.
    assert (Hm : ∀ w1, Inv w1 →
              Inv (match mkdir E "./logs" with
                   | Some e => (Raise e, w1)
                   | None => (Ok qc, w1)
                   end).2)
      by (intros w1 H1; by destruct (mkdir E "./logs")).
    destruct lvl; try (destruct (_checkLevel _));
      try (by apply Hm); try (by apply Hm, Inv_set_root_level); done.
  - destruct (_checkLevel lvl) as [z|e] eqn:Hz.
    + rewrite (configure_logging_normal _ _ _ _ _ _ Ht Hz). cbv zeta.
      destruct (Inv_normal_prepared z w HI) as [HI' Hq].
      destruct (configs w !! qc) as [cfg|]; [|done].
      destruct (Path _) as [dir|e]; [|done].
      destruct (mkdir E dir) as [e|]; [done|].
      destruct (open_append E dir (log_file_name T)) as [e|].
      * by destruct (is_OSError e).
      * by apply Inv_attach_file.
    + by rewrite (configure_logging_normal_raise _ _ _ _ _ _ Ht Hz).
Qed.

(** *** The configuration blocks do not touch logging *)

Lemma alloc_logging w0 o : preserves (same_logging w0) (alloc o).
Proof. intros w H. exact H. Qed.

Lemma deref_logging w0 l : preserves (same_logging w0) (deref l).
Proof. intros w H. unfold deref. by destruct (heap w !! l). Qed.

Lemma deref_config_logging w0 c : preserves (same_logging w0) (deref_config c).
Proof. intros w H. unfold deref_config. by destruct (configs w !! c). Qed.

#[global] Hint Resolve alloc_logging deref_logging deref_config_logging : frame.

Lemma custom_of_logging w0 c : preserves (same_logging w0) (custom_of c).
Proof. unfold custom_of. preserves_tac. Qed.

Lemma update_custom_logging w0 c f : preserves (same_logging w0) (update_custom c f).
Proof. unfold update_custom. preserves_tac. Qed.

Lemma call_load_config_logging w0 E p : preserves (same_logging w0) (call_load_config E p).
Proof.
  unfold call_load_config. destruct (load_config E p) as [[objs cfg]|e];
    [|apply preserves_raise].
  intros w H. exact H.
Qed.

Lemma isinstance_dict_logging w0 v : preserves (same_logging w0) (isinstance_dict v).
Proof. unfold isinstance_dict. destruct v; preserves_tac. Qed.

Lemma dict_copy_logging w0 v : preserves (same_logging w0) (dict_copy v).
Proof. unfold dict_copy. destruct v; preserves_tac. Qed.

Lemma update_method_logging w0 l v : preserves (same_logging w0) (update_method l v).
Proof.
  unfold update_method. destruct v; preserves_tac.
Qed.

#[global] Hint Resolve custom_of_logging update_custom_logging
  call_load_config_logging isinstance_dict_logging dict_copy_logging
  update_method_logging : frame.

Lemma ensure_tool_section_logging w0 T c :
  preserves (same_logging w0) (ensure_tool_section T c).
Proof. unfold ensure_tool_section. preserves_tac. Qed.

Lemma read_log_level_name_logging w0 v :
  preserves (same_logging w0) (read_log_level_name v).
Proof.
  unfold read_log_level_name, dict_get, getattr_val.
  destruct v; preserves_tac.
Qed.

#[global] Hint Resolve ensure_tool_section_logging read_log_level_name_logging : frame.

Lemma preserves_of_logging {A} (m : M A) :
  (∀ w0, preserves (same_logging w0) m) → preserves Inv m.
Proof.
  intros Hm w H. apply (Inv_same_logging w); [|done]. by apply Hm.
Qed.

Lemma same_logging_refl w : same_logging w w.
Proof. by repeat split. Qed.

(** *** The invariant through the public functions *)

Lemma initialize_config_Inv T E p : preserves Inv (initialize_config T E p).
Proof.
  rewrite initialize_config_unfold.
  apply preserves_bind; [apply preserves_of_logging; intros; preserves_tac | intros _].
  apply preserves_bind; [apply preserves_of_logging; intros; preserves_tac | intros qc].
  apply preserves_bind; [apply preserves_of_logging; intros; preserves_tac | intros mc].
  apply preserves_bind; [apply preserves_of_logging; intros; preserves_tac | intros n].
  apply preserves_bind; [apply preserves_lift | intros lvl].
  apply configure_logging_Inv.
Qed.

Lemma get_config_Inv T E : preserves Inv (get_config T E).
Proof.
  unfold get_config. apply preserves_bind; [apply preserves_gets|].
  intros [r|]; [apply preserves_ret|].
  apply preserves_bind; [apply initialize_config_Inv|].
  intros r. apply preserves_of_logging. intros. preserves_tac.
Qed.

Lemma get_tool_config_Inv T E : preserves Inv (get_tool_config T E).
Proof.
  unfold get_tool_config. apply preserves_bind; [apply get_config_Inv | intros r].
  apply preserves_of_logging. intros. preserves_tac.
Qed.

Lemma update_tool_config_Inv T E v : preserves Inv (update_tool_config T E v).
Proof.
  unfold update_tool_config.
  apply preserves_bind; [apply get_config_Inv | intros r].
  apply preserves_bind; [apply get_tool_config_Inv | intros tc].
  apply preserves_of_logging. intros. preserves_tac.
Qed.

Lemma run_call_Inv T c w : Inv w → Inv (run_call T c w).
Proof.
  destruct c; simpl.
  - apply initialize_config_Inv.
  - apply get_config_Inv.
  - apply get_tool_config_Inv.
  - apply update_tool_config_Inv.
Qed.

Lemma run_calls_Inv T cs w : Inv w → Inv (run_calls T cs w).
Proof.
  revert w. induction cs as [|c cs IH]; intros w H; simpl; [done|].
  by apply IH, run_call_Inv.
Qed.

(** ** The registry *)

Lemma sweep_all_registry hs w : _file_handlers (sweep_all hs w) = _file_handlers w.
Proof.
  revert w. induction hs as [|h hs IH]; intros w; simpl; [done|].
  rewrite IH. unfold detach_close. by rewrite close_handler_registry.
Qed.

Lemma sweep_files_registry hs w : _file_handlers (sweep_files hs w) = _file_handlers w.
Proof.
  revert w. induction hs as [|h hs IH]; intros w; simpl; [done|].
  rewrite IH. destruct (file_at w h); [|done].
  unfold detach_close. by rewrite close_handler_registry.
Qed.

Lemma normal_prepared_registry z w :
  _file_handlers (normal_prepared z w) = _file_handlers w.
Proof.
  unfold normal_prepared. rewrite sweep_files_registry.
  unfold console_step. by destruct (existsb _ _).
Qed.

Lemma test_prepared_registry w : _file_handlers (test_prepared w) = _file_handlers w.
Proof. unfold test_prepared. simpl. apply sweep_all_registry. Qed.

(** One call appends at most one handle, and removes none. *)
Definition reg_step (w w' : world) : Prop :=
  _file_handlers w' = _file_handlers w ∨
  ∃ h, _file_handlers w' = _file_handlers w ++ [h].

Lemma configure_logging_registry T E qc lvl w :
  reg_step w (configure_logging T E qc lvl w).2.
Proof.
  destruct (PYTEST_CURRENT_TEST E) eqn:Ht.
  - left. rewrite configure_logging_test by done. rewrite basicConfig_run. cbv zeta.
    fold (test_prepared w).
    assert (Hm : ∀ w1, _file_handlers w1 = _file_handlers w →
              _file_handlers (match mkdir E "./logs" with
                   | Some e => (Raise e, w1)
                   | None => (Ok qc, w1)
                   end).2 = _file_handlers w)
      by (intros w1 H1; by destruct (mkdir E "./logs")).
    pose proof (test_prepared_registry w).
    destruct lvl; try (destruct (_checkLevel _)); try (by apply Hm); done.
  - destruct (_checkLevel lvl) as [z|e] eqn:Hz.
    + rewrite (configure_logging_normal _ _ _ _ _ _ Ht Hz). cbv zeta.
      pose proof (normal_prepared_registry z w) as Hr.
      destruct (configs w !! qc) as [cfg|]; [|by left].
      destruct (Path _) as [dir|e]; [|by left].
      destruct (mkdir E dir) as [e|]; [by left|].
      destruct (open_append E dir (log_file_name T)) as [e|].
      * left. by destruct (is_OSError e).
      * right. eexists. simpl. by rewrite Hr.
    + left. by rewrite (configure_logging_normal_raise _ _ _ _ _ _ Ht Hz).
Qed.

(** A step with a precondition and a postcondition on the state, whether
    the computation returns or raises. *)
Definition hoare {A} (P : world → Prop) (m : M A) (Q : world → Prop) : Prop :=
  ∀ w, P w → Q (m w).2.

Lemma hoare_bind {A B} P R Q (m : M A) (k : A → M B) :
  hoare P m R → (∀ w, R w → Q w) → (∀ a, hoare R (k a) Q) → hoare P (m ≫= k) Q.
Proof.
  intros Hm HRQ Hk w H. rewrite bind_run. specialize (Hm w H).
  destruct (m w) as [[a|e] w']; simpl in *; [by apply Hk | by apply HRQ].
Qed.

Lemma initialize_config_registry T E p w0 :
  hoare (same_logging w0) (initialize_config T E p) (reg_step w0).
Proof.
  assert (HRQ : ∀ w, same_logging w0 w → reg_step w0 w).
  { intros w (_ & _ & _ & Hf & _). by left. }
  rewrite initialize_config_unfold.
  apply hoare_bind with (R := same_logging w0);
    [by apply (preserves_modify (same_logging w0)) | done | intros _].
  apply hoare_bind with (R := same_logging w0);
    [apply call_load_config_logging | done | intros qc].
  apply hoare_bind with (R := same_logging w0);
    [apply ensure_tool_section_logging | done | intros mc].
  apply hoare_bind with (R := same_logging w0);
    [apply read_log_level_name_logging | done | intros n].
  apply hoare_bind with (R := same_logging w0);
    [apply (preserves_lift (same_logging w0)) | done | intros lvl].
  intros w (_ & _ & _ & Hf & _).
  pose proof (configure_logging_registry T E qc lvl w) as Hs.
  unfold reg_step in *. by rewrite Hf in Hs.
Qed.

Lemma initialize_config_registry_length T E p w :
  (length (_file_handlers (initialize_config T E p w).2) ≤ S (length (_file_handlers w)))%nat.
Proof.
  destruct (initialize_config_registry T E p w w (same_logging_refl w)) as [->|[h ->]].
  - lia.
  - rewrite length_app. simpl. lia.
Qed.

(** A tracked handle stays tracked until the process exits. *)
Definition tracked (h : nat) (w : world) : Prop := h ∈ _file_handlers w.

Lemma tracked_same_logging h w w' : same_logging w w' → tracked h w → tracked h w'.
Proof. intros (_ & _ & _ & Hf & _). unfold tracked. by rewrite Hf. Qed.

Lemma preserves_tracked_of_logging {A} h (m : M A) :
  (∀ w0, preserves (same_logging w0) m) → preserves (tracked h) m.
Proof.
  intros Hm w H. apply (tracked_same_logging h w); [|done].
  apply Hm, same_logging_refl.
Qed.

Lemma initialize_config_tracked T E p h : preserves (tracked h) (initialize_config T E p).
Proof.
  intros w H.
  destruct (initialize_config_registry T E p w w (same_logging_refl w)) as [Hr|[h' Hr]];
    unfold tracked; rewrite Hr; [done|]. apply elem_of_app. by left.
Qed.

Lemma get_config_tracked T E h : preserves (tracked h) (get_config T E).
Proof.
  unfold get_config. apply preserves_bind; [apply preserves_gets|].
  intros [r|]; [apply preserves_ret|].
  apply preserves_bind; [apply initialize_config_tracked|].
  intros r. apply preserves_tracked_of_logging. intros. preserves_tac.
Qed.

Lemma get_tool_config_tracked T E h : preserves (tracked h) (get_tool_config T E).
Proof.
  unfold get_tool_config. apply preserves_bind; [apply get_config_tracked | intros r].
  apply preserves_tracked_of_logging. intros. preserves_tac.
Qed.

Lemma update_tool_config_tracked T E v h : preserves (tracked h) (update_tool_config T E v).
Proof.
  unfold update_tool_config.
  apply preserves_bind; [apply get_config_tracked | intros r].
  apply preserves_bind; [apply get_tool_config_tracked | intros tc].
  apply preserves_tracked_of_logging. intros. preserves_tac.
Qed.

Lemma run_calls_tracked T cs h w : tracked h w → tracked h (run_calls T cs w).
Proof.
  revert w. induction cs as [|c cs IH]; intros w H; simpl; [done|].
  apply IH. destruct c; simpl.
  - by apply initialize_config_tracked.
  - by apply get_config_tracked.
  - by apply get_tool_config_tracked.
  - by apply update_tool_config_tracked.
Qed.

(** ** Repeated initialization *)

Lemma reinitialize_Inv T es w : Inv w → Inv (reinitialize T es w).
Proof. apply run_calls_Inv. Qed.

Lemma reinitialize_registry_length T es w :
  (length (_file_handlers (reinitialize T es w))
   ≤ length es + length (_file_handlers w))%nat.
Proof.
  unfold reinitialize, run_calls. revert w.
  induction es as [|e es IH]; intros w; simpl; [done|].
  etrans; [apply IH|].
  pose proof (initialize_config_registry_length T e.1 e.2 w). lia.
Qed.

(** What holds after any number of [initialize_config] calls in a fresh
    process, in either branch. *)
Definition no_leak (w : world) (n : nat) : Prop :=
  (* at most one console handler and one file handler on the root logger *)
  (count (console_at w) (root_handlers w) ≤ 1)%nat ∧
  (count (file_at w) (root_handlers w) ≤ 1)%nat ∧
  (* the attached file handler is open *)
  (∀ h, h ∈ root_handlers w → file_at w h = true → closed_at w h = false) ∧
  (* every other file handler is closed *)
  (∀ h, file_at w h = true → h ∉ root_handlers w → closed_at w h = true) ∧
  (* and was closed before the next log file was opened *)
  one_at_a_time [] (trace w) = true ∧
  (* the registry: at most [n] entries, one open, [n] closed *)
  (length (_file_handlers w) ≤ n)%nat ∧
  (count (live_at w) (_file_handlers w) ≤ 1)%nat ∧
  (count (closed_at w) (_file_handlers w) ≤ n)%nat.

Lemma reinitialization_invariant T es :
  no_leak (reinitialize T es initial_world) (length es).
Proof.
  set (w := reinitialize T es initial_world). unfold no_leak.
  pose proof (reinitialize_Inv T es initial_world Inv_initial) as HI. fold w in HI.
  pose proof (reinitialize_registry_length T es initial_world) as Hlen.
  fold w in Hlen. simpl in Hlen. rewrite Nat.add_0_r in Hlen.
  destruct HI.
  split; [done|]. split; [done|]. split; [|split]; [..|split; [done|]].
  - intros h Hh Hf. pose proof (inv_attached_live0 h Hh Hf) as Hl.
    rewrite live_at_spec, Hf in Hl. by destruct (closed_at w h).
  - intros h Hf Hh. destruct (closed_at w h) eqn:Hc; [done|].
    destruct Hh. apply inv_live_attached0. by rewrite live_at_spec, Hf, Hc.
  - split; [done|]. split; [done|].
    etrans; [apply count_le_length | done].
Qed.

(** C6. After each of any number of successive [initialize_config] calls
    in normal mode, from a fresh process: the root logger has at most one
    console handler and at most one file handler; the attached file
    handler is open; every other file handler ever created is detached
    and closed, and no log file was opened while an earlier descriptor was
    still open; after [k] calls the registry has at most [k] entries, at
    most one of them open and at most [k] closed. *)
Theorem reinitialization_does_not_leak T es k :
  Forall (λ e, PYTEST_CURRENT_TEST e.1 = false) es →
  (k ≤ length es)%nat →
  no_leak (reinitialize T (take k es) initial_world) k.
Proof.
  intros _ Hk.
  pose proof (reinitialization_invariant T (take k es)) as H.
  by rewrite length_take_le in H.
Qed.

(** Three starts in one process, the second on a read-only filesystem. *)
Definition three_starts : list (env * option string) :=
  [ (env_fine, None); (env_open_denied, None); (env_fine, None) ].

Lemma reinitialization_does_not_leak_witness :
  Forall (λ e, PYTEST_CURRENT_TEST e.1 = false) three_starts ∧
  (3 ≤ length three_starts)%nat ∧
  no_leak (reinitialize quackmetadata (take 3 three_starts) initial_world) 3.
Proof.
  assert (H : Forall (λ e, PYTEST_CURRENT_TEST e.1 = false) three_starts)
    by (repeat constructor).
  split; [exact H|]. split; [simpl; lia|].
  apply (reinitialization_does_not_leak quackmetadata three_starts 3 H).
  simpl. lia.
Defined.

(** The three starts, run: one console handler, the file handler of the
    first start closed during the second, the one of the third open. *)
Example three_starts_run :
  let w := reinitialize quackmetadata three_starts initial_world in
  root_handlers w = [0; 2]%nat ∧ _file_handlers w = [1; 2]%nat ∧
  handlers w = [ mkHandler StreamHandler 20 false;
                 mkHandler FileHandler 20 true;
                 mkHandler FileHandler 20 false ] ∧
  trace w = [ Opened 1 "./logs" "quackmetadata.log"; Released 1 InInitialize;
              Opened 2 "./logs" "quackmetadata.log" ].
Proof. by vm_compute. Qed.

(** ** Process exit *)

Definition close_all (p : phase) (hs : list nat) (w : world) : world :=
  foldl (λ w h, close_handler p h w) w hs.

Lemma process_exit_run w :
  process_exit w
  = set_file_handlers (λ _, []) (close_all AtExit (_file_handlers w) w).
Proof.
  unfold process_exit, _close_file_handlers, close.
  rewrite bind_run. unfold gets at 1. rewrite bind_run, for_each_modify.
  reflexivity.
Qed.

Lemma close_all_released p hs w : released_ok w → released_ok (close_all p hs w).
Proof.
  revert w. induction hs as [|h hs IH]; intros w H; simpl; [done|].
  by apply IH, close_released_ok.
Qed.

Lemma close_all_length p hs w :
  length (handlers (close_all p hs w)) = length (handlers w).
Proof.
  revert w. induction hs as [|h hs IH]; intros w; simpl; [done|].
  by rewrite IH, close_handler_length.
Qed.

Lemma close_all_file_at p hs w x : file_at (close_all p hs w) x = file_at w x.
Proof.
  revert w. induction hs as [|h hs IH]; intros w; simpl; [done|].
  by rewrite IH, close_handler_file_at.
Qed.

Lemma close_all_stays_closed p hs w x :
  closed_at w x = true → closed_at (close_all p hs w) x = true.
Proof.
  revert w. induction hs as [|h hs IH]; intros w H; simpl; [done|].
  apply IH. rewrite close_handler_closed_at. by case_bool_decide.
Qed.

Lemma close_all_closed p hs w x :
  x ∈ hs → (x < length (handlers w))%nat → closed_at (close_all p hs w) x = true.
Proof.
  revert w. induction hs as [|h hs IH]; intros w Hx Hlt; simpl.
  - by apply elem_of_nil in Hx.
  - apply elem_of_cons in Hx as [->|Hx].
    + apply close_all_stays_closed. rewrite close_handler_closed_at.
      by rewrite bool_decide_eq_true_2.
    + apply IH; [done|]. by rewrite close_handler_length.
Qed.

(** The exit hook calls [close()] on every entry of the registry, also on
    those that a re-initialization has closed already; on a closed
    handler the call changes nothing. *)
Lemma close_handler_closed p h w :
  closed_at w h = true → close_handler p h w = w.
Proof.
  unfold closed_at, handler_test, close_handler.
  destruct (handlers w !! h) as [hd|]; [|done]. by intros ->.
Qed.

Lemma close_handler_twice p q h w :
  close_handler q h (close_handler p h w) = close_handler p h w.
Proof.
  destruct (decide (h < length (handlers w))%nat) as [Hlt|Hge].
  - apply close_handler_closed. rewrite close_handler_closed_at.
    by rewrite bool_decide_eq_true_2.
  - unfold close_handler at 2. rewrite lookup_ge_None_2 by lia.
    unfold close_handler. by rewrite lookup_ge_None_2 by lia.
Qed.

(** C7. Take a handle that is in the registry at some moment of a run
    that started in a fresh process. It is still in the registry when the
    process exits, the registry lists no handle twice, and in the whole
    run, the exit hook included, its descriptor is released exactly once:
    either inside [initialize_config] or by the exit hook, not in both.
    The later [close()] calls on a closed handler release nothing. *)
Theorem tracked_handle_released_once T cs1 cs2 h :
  h ∈ _file_handlers (run_calls T cs1 initial_world) →
  let w := run_calls T cs2 (run_calls T cs1 initial_world) in
  let tr := trace (process_exit w) in
  NoDup (_file_handlers (run_calls T cs1 initial_world)) ∧
  NoDup (_file_handlers w) ∧
  h ∈ _file_handlers w ∧
  releases h tr = 1%nat ∧
  ((releases_in InInitialize h tr = 1%nat ∧ releases_in AtExit h tr = 0%nat) ∨
   (releases_in InInitialize h tr = 0%nat ∧ releases_in AtExit h tr = 1%nat)) ∧
  closed_at (process_exit w) h = true.
Proof.
  intros Hh w tr.
  pose proof (run_calls_Inv T cs1 initial_world Inv_initial) as HI1.
  pose proof (run_calls_Inv T cs2 _ HI1) as HI. fold w in HI.
  pose proof (run_calls_tracked T cs2 h _ Hh) as Hw. fold w in Hw.
  unfold tracked in Hw.
  assert (Hc : closed_at (process_exit w) h = true).
  { rewrite process_exit_run.
    apply (close_all_closed AtExit (_file_handlers w) w h Hw).
    by apply (inv_reg_valid _ HI). }
  assert (Hr : releases h tr = 1%nat).
  { unfold tr. rewrite process_exit_run.
    pose proof (close_all_released AtExit (_file_handlers w) w (inv_released _ HI) h) as Hrel.
    rewrite process_exit_run in Hc.
    change (trace (set_file_handlers _ ?x)) with (trace x).
    change (closed_at (set_file_handlers _ ?x)) with (closed_at x) in Hc.
    rewrite Hrel, close_all_file_at, (inv_reg_file _ HI h Hw), Hc. done. }
  split; [by apply (inv_reg_nodup _ HI1)|].
  split; [by apply (inv_reg_nodup _ HI)|].
  split; [done|]. split; [done|]. split; [|done].
  rewrite releases_phases in Hr.
  destruct (releases_in InInitialize h tr), (releases_in AtExit h tr); lia.
Qed.

(** A run: start, read, restart, update. An explicit [initialize_config]
    leaves [_config] unset, so the [get_config] that follows initializes
    again: four log files are opened in all, each released by the next
    initialization and the last one by the exit hook. *)
Definition first_calls : list call := [ Initialize env_fine None ].
Definition later_calls : list call :=
  [ GetConfig env_fine; Initialize env_fine None;
    UpdateToolConfig env_fine (VRef 0) ].

Lemma tracked_handle_released_once_witness :
  1%nat ∈ _file_handlers (run_calls quackmetadata first_calls initial_world) ∧
  releases 1
    (trace (process_exit
              (run_calls quackmetadata later_calls
                 (run_calls quackmetadata first_calls initial_world)))) = 1%nat.
Proof.
  assert (H : 1%nat ∈ _file_handlers (run_calls quackmetadata first_calls initial_world))
    by (vm_compute; apply list_elem_of_here).
  split; [exact H|].
  apply (tracked_handle_released_once quackmetadata first_calls later_calls 1%nat H).
Defined.

Example run_trace :
  trace (process_exit
           (run_calls quackmetadata later_calls
              (run_calls quackmetadata first_calls initial_world)))
  = [ Opened 1 "./logs" "quackmetadata.log"; Released 1 InInitialize;
      Opened 2 "./logs" "quackmetadata.log"; Released 2 InInitialize;
      Opened 3 "./logs" "quackmetadata.log"; Released 3 InInitialize;
      Opened 4 "./logs" "quackmetadata.log"; Released 4 AtExit ].
Proof. by vm_compute. Qed.

(** * Further properties of the module *)

(** ** The anatomy of [initialize_config]

    Before the logging part, a run only loads and reconciles: it leaves
    the logging state and the unset singleton alone, and the loaded
    object keeps its [paths]. *)

Definition prefix_inv (w0 : world) (qc : nat) (ld : option val) (w : world) : Prop :=
  same_logging w0 w ∧ _config w = None ∧
  ∃ cfg, configs w !! qc = Some cfg ∧ paths_logs_dir cfg = ld.

Lemma alloc_prefix w0 qc ld o : preserves (prefix_inv w0 qc ld) (alloc o).
Proof. intros w H. exact H. Qed.

Lemma deref_prefix w0 qc ld l : preserves (prefix_inv w0 qc ld) (deref l).
Proof. intros w H. unfold deref. by destruct (heap w !! l). Qed.

Lemma deref_config_prefix w0 qc ld c : preserves (prefix_inv w0 qc ld) (deref_config c).
Proof. intros w H. unfold deref_config. by destruct (configs w !! c). Qed.

#[global] Hint Resolve alloc_prefix deref_prefix deref_config_prefix : frame.

Lemma custom_of_prefix w0 qc ld c : preserves (prefix_inv w0 qc ld) (custom_of c).
Proof. unfold custom_of. preserves_tac. Qed.

Lemma update_custom_prefix w0 qc ld f : preserves (prefix_inv w0 qc ld) (update_custom qc f).
Proof.
  intros w (Hl & Hc & cfg & Hcfg & Hld). unfold update_custom. mrun. rewrite Hcfg. mrun.
  destruct (f (custom cfg)) as [cu|e]; simpl.
  - split; [done|]. split; [done|].
    exists (mkQuackConfig cu (paths_logs_dir cfg)). split; [|exact Hld].
    simpl. apply list_lookup_insert_eq. by eapply lookup_lt_Some.
  - split; [done|]. split; [done|]. by exists cfg.
Qed.

#[global] Hint Resolve custom_of_prefix update_custom_prefix : frame.

Lemma ensure_tool_section_prefix w0 qc ld T :
  preserves (prefix_inv w0 qc ld) (ensure_tool_section T qc).
Proof. unfold ensure_tool_section. preserves_tac. Qed.

Lemma read_log_level_name_prefix w0 qc ld v :
  preserves (prefix_inv w0 qc ld) (read_log_level_name v).
Proof.
  unfold read_log_level_name, isinstance_dict, dict_get, getattr_val.
  destruct v; preserves_tac.
Qed.

Lemma initialize_config_anatomy T E p w :
  (∃ e wl, initialize_config T E p w = (Raise e, wl) ∧
           same_logging w wl ∧ _config wl = None) ∨
  (∃ objs cfg0 lvl cfg wl,
     load_config E p = Ok (Loaded objs cfg0) ∧
     initialize_config T E p w = configure_logging T E (length (configs w)) lvl wl ∧
     same_logging w wl ∧ _config wl = None ∧
     configs wl !! length (configs w) = Some cfg ∧
     paths_logs_dir cfg = paths_logs_dir cfg0).
Proof.
  destruct (initialize_config T E p w) as [res wf] eqn:Hrun.
  rewrite initialize_config_unfold in Hrun. rewrite bind_run in Hrun.
  unfold modify at 1 in Hrun.
  destruct (load_config E p) as [[objs cfg0]|e] eqn:Hl.
  - rewrite (bind_ok _ _ _ _ _ (call_load_config_run _ _ _ _ _ Hl)) in Hrun.
    fold (loaded_world objs cfg0 w) in Hrun.
    change (length (configs (set_config None w))) with (length (configs w)) in Hrun.
    set (qc := length (configs w)) in *.
    assert (K1 : prefix_inv w qc (paths_logs_dir cfg0) (loaded_world objs cfg0 w)).
    { split; [by repeat split|]. split; [done|]. exists cfg0.
      split; [apply loaded_world_config | done]. }
    rewrite bind_run in Hrun.
    pose proof (ensure_tool_section_prefix w qc _ T _ K1) as K2.
    destruct (ensure_tool_section T qc (loaded_world objs cfg0 w)) as [[mc|e] w2];
      simpl in K2.
    2:{ left. injection Hrun as <- <-. destruct K2 as (? & ? & _). by eauto. }
    rewrite bind_run in Hrun.
    pose proof (read_log_level_name_prefix w qc _ mc _ K2) as K3.
    destruct (read_log_level_name mc w2) as [[n|e] w3]; simpl in K3.
    2:{ left. injection Hrun as <- <-. destruct K3 as (? & ? & _). by eauto. }
    rewrite bind_run in Hrun. unfold lift at 1 in Hrun.
    destruct K3 as (Hs & Hc & cfg & Hcfg & Hld).
    destruct (logging.getattr _ n (VInt logging.INFO)) as [lvl|e].
    + right. by exists objs, cfg0, lvl, cfg, w3.
    + left. injection Hrun as <- <-. by eauto.
  - left. exists e, (set_config None w).
    unfold call_load_config in Hrun. rewrite Hl in Hrun.
    injection Hrun as <- <-. by repeat split.
Qed.

(** The logging part returns the object it was given. *)
Lemma configure_logging_returns T E qc lvl w r w' :
  configure_logging T E qc lvl w = (Ok r, w') → r = qc.
Proof.
  destruct (PYTEST_CURRENT_TEST E) eqn:Ht.
  - rewrite configure_logging_test by done.
    destruct (basicConfig lvl w) as [[[]|e] w1]; [|done].
    destruct (mkdir E "./logs"); [done|]. by intros [= <- _].
  - destruct (_checkLevel lvl) as [z|e] eqn:Hz.
    + rewrite (configure_logging_normal _ _ _ _ _ _ Ht Hz). cbv zeta.
      destruct (configs w !! qc) as [cfg|]; [|done].
      destruct (Path _) as [dir|e]; [|done].
      destruct (mkdir E dir) as [e|]; [done|].
      destruct (open_append E dir (log_file_name T)) as [e|].
      * destruct (is_OSError e); [|done]. by intros [= <- _].
      * by intros [= <- _].
    + by rewrite (configure_logging_normal_raise _ _ _ _ _ _ Ht Hz).
Qed.

(** ** Explicit initialization and the singleton *)

(** X1. [initialize_config] resets [_config] and never sets it: after the
    call, whether it returned or raised, the singleton is unset, so the
    next [get_config()] runs a whole initialization again. *)
Theorem initialize_config_unsets_singleton T E p w :
  _config (initialize_config T E p w).2 = None ∧
  ∀ E', get_config T E' (initialize_config T E p w).2 =
        match initialize_config T E' None (initialize_config T E p w).2 with
        | (Ok r, w') => (Ok r, set_config (Some r) w')
        | (Raise e, w') => (Raise e, w')
        end.
Proof.
  assert (H : _config (initialize_config T E p w).2 = None).
  { destruct (initialize_config_anatomy T E p w)
      as [(e & wl & -> & _ & Hc)|(objs & cfg0 & lvl & cfg & wl & _ & -> & _ & Hc & _)];
      [done|].
    destruct (configure_logging_objects wl T E (length (configs w)) lvl wl) as (_ & _ & Hc');
      [done|]. by rewrite Hc'. }
  split; [exact H|]. intros E'. by apply get_config_unset.
Qed.



(** ** More on the two sweeps *)

Lemma detach_close_length p h w :
  length (handlers (detach_close p h w)) = length (handlers w).
Proof. unfold detach_close. by rewrite close_handler_length. Qed.

Lemma detach_close_lookup p h w x :
  x ≠ h → handlers (detach_close p h w) !! x = handlers w !! x.
Proof.
  intros Hx. unfold detach_close, close_handler. simpl.
  destruct (handlers w !! h) as [hd|]; [|done].
  destruct (h_closed hd); [done|].
  destruct (is_file hd); simpl; by rewrite list_lookup_insert_ne.
Qed.

Lemma detach_close_closed_at p h w x :
  closed_at (detach_close p h w) x
  = if bool_decide (x = h ∧ (h < length (handlers w))%nat) then true else closed_at w x.
Proof. exact (close_handler_closed_at p h (set_root_handlers (remove_first h) w) x). Qed.

Lemma detach_close_file_at p h w x : file_at (detach_close p h w) x = file_at w x.
Proof. exact (close_handler_file_at p h (set_root_handlers (remove_first h) w) x). Qed.

Lemma detach_close_console_at p h w x : console_at (detach_close p h w) x = console_at w x.
Proof. exact (close_handler_console_at p h (set_root_handlers (remove_first h) w) x). Qed.

Lemma detach_close_root p h w :
  root_handlers (detach_close p h w) = remove_first h (root_handlers w).
Proof. exact (close_handler_root p h (set_root_handlers (remove_first h) w)). Qed.

Lemma detach_close_root_level p h w : root_level (detach_close p h w) = root_level w.
Proof. exact (close_handler_root_level p h (set_root_handlers (remove_first h) w)). Qed.

Lemma detach_close_opened p h w e :
  e ∈ trace (detach_close p h w) → (∀ h' q, e ≠ Released h' q) → e ∈ trace w.
Proof.
  unfold detach_close. rewrite close_handler_trace.
  intros [He|He]%elem_of_app Hne; [done|].
  destruct (live_at _ h); [|by apply elem_of_nil in He].
  apply list_elem_of_singleton in He. by destruct (Hne h p).
Qed.

Lemma remove_first_other h l x : x ≠ h → x ∈ l → x ∈ remove_first h l.
Proof.
  intros Hx. induction l as [|y l IH]; simpl; [done|].
  intros [->|Hin]%elem_of_cons.
  - rewrite bool_decide_eq_false_2 by done. apply list_elem_of_here.
  - case_bool_decide; [done|]. apply list_elem_of_further. by apply IH.
Qed.

Section sweeps.
Context (sel : world → nat → bool).
Context (sel_stable : ∀ p h w x, sel (detach_close p h w) x = sel w x).

(** Both loops are instances of one: detach and close the selected
    handlers of the snapshot. *)
Definition sweep (hs : list nat) (w : world) : world :=
  foldl (λ w h, if sel w h then detach_close InInitialize h w else w) w hs.

Lemma sweep_length hs w : length (handlers (sweep hs w)) = length (handlers w).
Proof.
  revert w. induction hs as [|h hs IH]; intros w; simpl; [done|].
  rewrite IH. destruct (sel w h); [apply detach_close_length | done].
Qed.

Lemma sweep_sel hs w x : sel (sweep hs w) x = sel w x.
Proof.
  revert w. induction hs as [|h hs IH]; intros w; simpl; [done|].
  rewrite IH. destruct (sel w h); [apply sel_stable | done].
Qed.

Lemma sweep_file_at hs w x : file_at (sweep hs w) x = file_at w x.
Proof.
  revert w. induction hs as [|h hs IH]; intros w; simpl; [done|].
  rewrite IH. destruct (sel w h); [apply detach_close_file_at | done].
Qed.

Lemma sweep_root_level hs w : root_level (sweep hs w) = root_level w.
Proof.
  revert w. induction hs as [|h hs IH]; intros w; simpl; [done|].
  rewrite IH. destruct (sel w h); [apply detach_close_root_level | done].
Qed.

Lemma sweep_stays_closed hs w x :
  closed_at w x = true → closed_at (sweep hs w) x = true.
Proof.
  revert w. induction hs as [|h hs IH]; intros w H; simpl; [done|].
  apply IH. destruct (sel w h); [|done].
  rewrite detach_close_closed_at. by case_bool_decide.
Qed.

(** Every selected handler of the snapshot ends up closed. *)
Lemma sweep_closes hs w x :
  x ∈ hs → sel w x = true → (x < length (handlers w))%nat →
  closed_at (sweep hs w) x = true.
Proof.
  revert w. induction hs as [|h hs IH]; intros w Hx Hs Hlt; simpl.
  - by apply elem_of_nil in Hx.
  - apply elem_of_cons in Hx as [->|Hx].
    + rewrite Hs. apply sweep_stays_closed. rewrite detach_close_closed_at.
      by rewrite bool_decide_eq_true_2.
    + apply IH; [done | |].
      * destruct (sel w h); [by rewrite sel_stable | done].
      * destruct (sel w h); [by rewrite detach_close_length | done].
Qed.

(** A handler that is not selected is not touched, and stays attached. *)
Lemma sweep_lookup_other hs w x :
  sel w x = false → handlers (sweep hs w) !! x = handlers w !! x.
Proof.
  revert w. induction hs as [|h hs IH]; intros w Hs; simpl; [done|].
  destruct (sel w h) eqn:Hh; [|by apply IH].
  rewrite IH by (by rewrite sel_stable).
  apply detach_close_lookup. intros ->. congruence.
Qed.

Lemma sweep_root_other hs w x :
  sel w x = false → x ∈ root_handlers w → x ∈ root_handlers (sweep hs w).
Proof.
  revert w. induction hs as [|h hs IH]; intros w Hs Hx; simpl; [done|].
  destruct (sel w h) eqn:Hh; [|by apply IH].
  apply IH; [by rewrite sel_stable|].
  rewrite detach_close_root. apply remove_first_other; [|done]. intros ->. congruence.
Qed.

Lemma sweep_root_sub hs w x :
  x ∈ root_handlers (sweep hs w) → x ∈ root_handlers w.
Proof.
  revert w. induction hs as [|h hs IH]; intros w; simpl; [done|].
  intros Hx%IH. destruct (sel w h); [|done].
  rewrite detach_close_root in Hx. by apply remove_first_elem in Hx.
Qed.

(** Without duplicates in the handler list, a selected handler of the
    snapshot is detached. *)
Lemma sweep_detaches hs w x :
  NoDup (root_handlers w) → x ∈ hs → sel w x = true →
  x ∉ root_handlers (sweep hs w).
Proof.
  revert w. induction hs as [|h hs IH]; intros w Hnd Hx Hs; simpl.
  - by apply elem_of_nil in Hx.
  - destruct (decide (x = h)) as [->|Hne].
    + rewrite Hs. intros Hin%sweep_root_sub. rewrite detach_close_root in Hin.
      apply remove_first_NoDup_elem in Hin as [_ Hin]; done.
    + apply elem_of_cons in Hx as [->|Hx]; [done|].
      destruct (sel w h) eqn:Hh; [|by apply IH].
      apply IH; [|done|by rewrite sel_stable].
      rewrite detach_close_root. by apply remove_first_NoDup.
Qed.

(** The loop opens nothing and does not touch the registry. *)
Lemma sweep_opened hs w e :
  e ∈ trace (sweep hs w) → (∀ h' q, e ≠ Released h' q) → e ∈ trace w.
Proof.
  revert w. induction hs as [|h hs IH]; intros w He Hne; simpl in *; [done|].
  specialize (IH _ He Hne). destruct (sel w h); [|done].
  by apply detach_close_opened in IH.
Qed.

End sweeps.

Lemma sweep_all_eq hs w : sweep_all hs w = sweep (λ _ _, true) hs w.
Proof. reflexivity. Qed.

Lemma sweep_files_eq hs w : sweep_files hs w = sweep file_at hs w.
Proof. reflexivity. Qed.

(** ** More hosts and environments *)

(** A host whose section sets the level to ["DEBUG"], the section dict
    being the object at location [l], and one whose section gives the
    level as a number. *)
Definition env_debug_at (l : nat) : env :=
  {| load_config := λ _, Ok (Loaded [ODict {[ "log_level" := VStr "DEBUG" ]}]
                               (mkQuackConfig (Mapping {[ "quackmetadata" := VRef l ]}) None));
     PYTEST_CURRENT_TEST := false;
     mkdir := λ _, None;
     open_append := λ _ _, None;
     logging_attribute := logging_3_11 |}.

Definition env_debug : env := env_debug_at 0.

Definition env_numeric_level : env :=
  {| load_config := λ _, Ok (Loaded [ODict {[ "log_level" := VInt 10 ]}]
                               (mkQuackConfig (Mapping {[ "quackmetadata" := VRef 0 ]}) None));
     PYTEST_CURRENT_TEST := false;
     mkdir := λ _, None;
     open_append := λ _ _, None;
     logging_attribute := logging_3_11 |}.


(** ** The test branch *)

Lemma test_prepared_root w : root_handlers (test_prepared w) = [length (handlers w)].
Proof.
  unfold test_prepared, attach_new. simpl.
  rewrite (sweep_all_root _ w eq_refl). simpl.
  by rewrite sweep_all_eq, sweep_length.
Qed.

Lemma test_prepared_handler w :
  handlers (test_prepared w) !! length (handlers w)
  = Some (mkHandler StreamHandler logging.NOTSET false).
Proof.
  unfold test_prepared. simpl. rewrite lookup_app_r; rewrite sweep_all_eq, sweep_length; [|done].
  by rewrite Nat.sub_diag.
Qed.

Lemma test_prepared_closed w h :
  h ∈ root_handlers w → (h < length (handlers w))%nat →
  closed_at (test_prepared w) h = true.
Proof.
  intros Hh Hlt. unfold test_prepared, closed_at. rewrite attach_new_test.
  rewrite sweep_all_eq, sweep_length. rewrite bool_decide_eq_false_2 by lia.
  by apply (sweep_closes (λ _ _, true)).
Qed.

Lemma test_prepared_opened w e :
  e ∈ trace (test_prepared w) → (∀ h' q, e ≠ Released h' q) → e ∈ trace w.
Proof. unfold test_prepared. simpl. rewrite sweep_all_eq. apply sweep_opened. Qed.

(** What the test branch leaves, for a run that got as far as
    [basicConfig]. *)
Lemma configure_logging_test_state T E qc lvl w :
  PYTEST_CURRENT_TEST E = true →
  (configure_logging T E qc lvl w).2 = test_prepared w ∨
  ∃ z, _checkLevel lvl = Ok z ∧
       (configure_logging T E qc lvl w).2 = set_root_level z (test_prepared w).
Proof.
  intros Ht. rewrite configure_logging_test by done.
  assert (Hb : (basicConfig lvl w).2 = test_prepared w ∨
               ∃ z, _checkLevel lvl = Ok z ∧
                    (basicConfig lvl w).2 = set_root_level z (test_prepared w)).
  { rewrite basicConfig_run. cbv zeta. fold (test_prepared w).
    destruct (_checkLevel lvl) as [z|e] eqn:Hz.
    - destruct lvl; try discriminate Hz; eauto.
    - destruct lvl; eauto. }
  destruct (basicConfig lvl w) as [[[]|e] w1]; simpl in *; [|done].
  by destruct (mkdir E "./logs").
Qed.

(** X3. Under the test marker, an [initialize_config] that returns has
    replaced the handlers of the root logger: every handler that was
    attached is closed, the only handler left is a new [StreamHandler]
    at level NOTSET, no log file was opened, the registry is as it was,
    and the directory "./logs" was made whatever [paths.logs_dir] says. *)
Theorem test_mode_replaces_handlers T E p w r w' :
  PYTEST_CURRENT_TEST E = true →
  initialize_config T E p w = (Ok r, w') →
  root_handlers w' = [length (handlers w)] ∧
  handlers w' !! length (handlers w)
    = Some (mkHandler StreamHandler logging.NOTSET false) ∧
  (∀ h, h ∈ root_handlers w → (h < length (handlers w))%nat → closed_at w' h = true) ∧
  _file_handlers w' = _file_handlers w ∧
  (∀ h dir file, Opened h dir file ∈ trace w' → Opened h dir file ∈ trace w) ∧
  mkdir E "./logs" = None.
Proof.
  intros Ht Hrun.
  destruct (initialize_config_anatomy T E p w)
    as [(e & wl & He & _)|(objs & cfg0 & lvl & cfg & wl & _ & Hi & Hs & _)];
    [congruence|].
  rewrite Hi in Hrun. destruct Hs as (Hh & _ & Hr & Hf & Htr).
  assert (Hmk : mkdir E "./logs" = None).
  { rewrite configure_logging_test in Hrun by done.
    destruct (basicConfig lvl wl) as [[[]|e] w1]; [|done].
    by destruct (mkdir E "./logs"). }
  assert (Hw : w' = test_prepared wl ∨ ∃ z, w' = set_root_level z (test_prepared wl)).
  { destruct (configure_logging_test_state T E (length (configs w)) lvl wl Ht)
      as [Hw|(z & _ & Hw)]; rewrite Hrun in Hw; simpl in Hw; eauto. }
  assert (Hfacts :
    root_handlers (test_prepared wl) = [length (handlers w)] ∧
    handlers (test_prepared wl) !! length (handlers w)
      = Some (mkHandler StreamHandler logging.NOTSET false) ∧
    (∀ h, h ∈ root_handlers w → (h < length (handlers w))%nat →
          closed_at (test_prepared wl) h = true) ∧
    _file_handlers (test_prepared wl) = _file_handlers w ∧
    (∀ h dir file, Opened h dir file ∈ trace (test_prepared wl) →
                   Opened h dir file ∈ trace w)).
  { rewrite <- Hh, <- Hr, <- Hf, <- Htr.
    split; [apply test_prepared_root|]. split; [apply test_prepared_handler|].
    split; [apply test_prepared_closed|]. split; [apply test_prepared_registry|].
    intros h dir file He. by apply test_prepared_opened in He. }
  destruct Hw as [->|[z ->]]; by destruct Hfacts as (? & ? & ? & ? & ?).
Qed.

(** The process runs under pytest; the host names another logs directory. *)
Definition env_pytest : env :=
  {| load_config := λ _, Ok (Loaded [] host_object);
     PYTEST_CURRENT_TEST := true;
     mkdir := λ _, None;
     open_append := λ _ _, None;
     logging_attribute := logging_3_11 |}.

Lemma test_mode_replaces_handlers_witness :
  root_handlers
    (initialize_config quackmetadata env_pytest None
       (reinitialize quackmetadata three_starts initial_world)).2 = [3%nat] ∧
  _file_handlers
    (initialize_config quackmetadata env_pytest None
       (reinitialize quackmetadata three_starts initial_world)).2 = [1; 2]%nat.
Proof.
  assert (Ht : PYTEST_CURRENT_TEST env_pytest = true) by reflexivity.
  assert (Hrun : initialize_config quackmetadata env_pytest None
                   (reinitialize quackmetadata three_starts initial_world)
                 = (Ok 3%nat,
                    (initialize_config quackmetadata env_pytest None
                       (reinitialize quackmetadata three_starts initial_world)).2))
    by (vm_compute; reflexivity).
  pose proof (test_mode_replaces_handlers quackmetadata env_pytest None _ _ _ Ht Hrun)
    as (H1 & _ & _ & H4 & _).
  split; [exact H1 | exact H4].
Defined.

(** ** The normal branch *)

Lemma console_not_file w c : console_at w c = true → file_at w c = false.
Proof.
  unfold console_at, file_at, handler_test, is_console, is_file.
  destruct (handlers w !! c) as [hd|]; [|done]. by destruct (h_class hd).
Qed.

Lemma console_step_root_level z w : root_level (console_step z w) = root_level w.
Proof. unfold console_step. by destruct (existsb _ _). Qed.

Lemma console_step_trace z w : trace (console_step z w) = trace w.
Proof. unfold console_step. by destruct (existsb _ _). Qed.

Lemma console_step_lookup z w x :
  (x < length (handlers w))%nat → handlers (console_step z w) !! x = handlers w !! x.
Proof.
  intros Hx. unfold console_step. destruct (existsb _ _); [done|].
  simpl. by rewrite lookup_app_l.
Qed.

Lemma console_step_root_sub z w x : x ∈ root_handlers w → x ∈ root_handlers (console_step z w).
Proof.
  intros Hx. unfold console_step. destruct (existsb _ _); [done|]. simpl.
  case_bool_decide; [done|]. apply elem_of_app. by left.
Qed.

Lemma console_step_NoDup z w : NoDup (root_handlers w) → NoDup (root_handlers (console_step z w)).
Proof.
  intros Hnd. unfold console_step. destruct (existsb _ _); [done|]. simpl.
  case_bool_decide as Hin; [done|]. apply NoDup_app. split; [done|].
  split; [|apply NoDup_singleton]. by intros x Hx ->%list_elem_of_singleton.
Qed.

(** After the step the root logger has a console handler. *)
Lemma console_step_has_console z w :
  ∃ c, c ∈ root_handlers (console_step z w) ∧ console_at (console_step z w) c = true.
Proof.
  unfold console_step. destruct (existsb _ _) eqn:He.
  - apply existsb_exists in He as (c & Hc & Hcon). exists c.
    by rewrite list_elem_of_In.
  - exists (length (handlers w)). split.
    + simpl. case_bool_decide; [done|]. apply elem_of_app. right. apply list_elem_of_here.
    + unfold console_at. rewrite attach_new_test. by rewrite bool_decide_eq_true_2.
Qed.

Lemma normal_prepared_root_level z w : root_level (normal_prepared z w) = z.
Proof.
  unfold normal_prepared. rewrite sweep_files_eq, sweep_root_level.
  by rewrite console_step_root_level.
Qed.

Lemma normal_prepared_opened z w e :
  e ∈ trace (normal_prepared z w) → (∀ h' q, e ≠ Released h' q) → e ∈ trace w.
Proof.
  unfold normal_prepared. rewrite sweep_files_eq. intros He Hne.
  apply sweep_opened in He; [|done]. by rewrite console_step_trace in He.
Qed.

Lemma normal_prepared_has_console z w :
  ∃ c, c ∈ root_handlers (normal_prepared z w) ∧ console_at (normal_prepared z w) c = true.
Proof.
  destruct (console_step_has_console z (set_root_level z w)) as (c & Hc & Hcon).
  exists c. unfold normal_prepared. rewrite sweep_files_eq. split.
  - apply sweep_root_other; [apply detach_close_file_at | by apply console_not_file | done].
  - unfold console_at, handler_test.
    rewrite sweep_lookup_other;
      [done | apply detach_close_file_at | by apply console_not_file].
Qed.

(** A console handler that is attached is left as it is. *)
Lemma normal_prepared_keeps_console z w c :
  c ∈ root_handlers w → console_at w c = true →
  handlers (normal_prepared z w) !! c = handlers w !! c.
Proof.
  intros Hc Hcon. unfold normal_prepared.
  assert (He : existsb (console_at (set_root_level z w)) (root_handlers (set_root_level z w)) = true).
  { apply existsb_exists. exists c. by rewrite <- list_elem_of_In. }
  unfold console_step. rewrite He.
  rewrite sweep_files_eq, sweep_lookup_other;
    [done | apply detach_close_file_at | by apply console_not_file].
Qed.

(** A file handler that is attached is closed, and detached when the
    handler list has no duplicates. *)
Lemma normal_prepared_closes_file z w h :
  h ∈ root_handlers w → file_at w h = true →
  closed_at (normal_prepared z w) h = true ∧
  (NoDup (root_handlers w) → h ∉ root_handlers (normal_prepared z w)).
Proof.
  intros Hh Hf. pose proof (handler_test_lt _ _ _ Hf) as Hlt.
  unfold normal_prepared. set (w1 := console_step z (set_root_level z w)).
  assert (Hh1 : h ∈ root_handlers w1) by (by apply console_step_root_sub).
  assert (Hf1 : file_at w1 h = true).
  { unfold file_at, handler_test. unfold w1. by rewrite console_step_lookup. }
  rewrite sweep_files_eq. split.
  - apply sweep_closes; [apply detach_close_file_at | done | done |].
    by apply handler_test_lt in Hf1.
  - intros Hnd. apply sweep_detaches; [apply detach_close_file_at | | done | done].
    by apply console_step_NoDup.
Qed.

Lemma attach_file_handlers z dir file w :
  handlers (attach_file z dir file w) = handlers w ++ [mkHandler FileHandler z false].
Proof. reflexivity. Qed.

Lemma attach_file_root z dir file w x :
  x ∈ root_handlers (attach_file z dir file w) ↔
  x ∈ root_handlers w ∨ x = length (handlers w).
Proof.
  unfold attach_file, attach_new. simpl. case_bool_decide as Hin.
  - split; [by left | by intros [?| ->]].
  - rewrite elem_of_app, list_elem_of_singleton. done.
Qed.

(** X4. In the normal branch, an [initialize_config] that returns has
    made the directory [paths.logs_dir] of the loaded object ("./logs"
    when the attribute is missing) and has set the root level. If the log
    file opened, it is the file named after the tool in that directory,
    and its handler is the newest handler, open, at the root's level,
    attached to the root logger and appended to the registry. If not, the
    error was an [OSError], and the registry and the opened files are as
    before. *)
Theorem normal_mode_log_file T E p objs cfg0 w r w' :
  PYTEST_CURRENT_TEST E = false →
  load_config E p = Ok (Loaded objs cfg0) →
  initialize_config T E p w = (Ok r, w') →
  ∃ dir,
    Path (default (VStr "./logs") (paths_logs_dir cfg0)) = Ok dir ∧
    mkdir E dir = None ∧
    match open_append E dir (log_file_name T) with
    | None =>
        ∃ h, length (handlers w') = S h ∧
             handlers w' !! h = Some (mkHandler FileHandler (root_level w') false) ∧
             h ∈ root_handlers w' ∧
             _file_handlers w' = _file_handlers w ++ [h] ∧
             last (trace w') = Some (Opened h dir (log_file_name T))
    | Some e =>
        is_OSError e = true ∧ _file_handlers w' = _file_handlers w ∧
        ∀ h d f, Opened h d f ∈ trace w' → Opened h d f ∈ trace w
    end.
Proof.
  intros Ht Hl Hrun.
  destruct (initialize_config_anatomy T E p w)
    as [(e & wl & He & _)|(objs' & cfg0' & lvl & cfg & wl & Hl' & Hi & Hs & _ & Hcfg & Hld)];
    [congruence|].
  rewrite Hl in Hl'. injection Hl' as <- <-.
  rewrite Hi in Hrun. destruct Hs as (_ & _ & _ & Hf & Htr).
  destruct (_checkLevel lvl) as [z|e] eqn:Hz;
    [|by rewrite (configure_logging_normal_raise _ _ _ _ _ _ Ht Hz) in Hrun].
  rewrite (configure_logging_normal _ _ _ _ _ _ Ht Hz) in Hrun. cbv zeta in Hrun.
  rewrite Hcfg, Hld in Hrun.
  destruct (Path _) as [dir|e]; [|done]. exists dir. split; [done|].
  destruct (mkdir E dir) as [e|]; [done|]. split; [done|].
  destruct (open_append E dir (log_file_name T)) as [e|].
  - destruct (is_OSError e); [|done]. injection Hrun as _ <-.
    split; [done|]. split; [by rewrite normal_prepared_registry|].
    intros h d f He. apply normal_prepared_opened in He; [|done]. by rewrite <- Htr.
  - injection Hrun as _ <-. exists (length (handlers (normal_prepared z wl))).
    split; [rewrite attach_file_handlers, length_app; simpl; lia|].
    split.
    { rewrite attach_file_handlers, lookup_app_r by lia. rewrite Nat.sub_diag.
      simpl. do 3 f_equal. symmetry. apply normal_prepared_root_level. }
    split; [apply attach_file_root; by right|].
    split; [simpl; by rewrite normal_prepared_registry, Hf|].
    simpl. by rewrite last_snoc.
Qed.

Lemma normal_mode_log_file_witness :
  ∃ h, handlers (initialize_config quacktool env_object None initial_world).2 !! h
       = Some (mkHandler FileHandler 20 false) ∧
       last (trace (initialize_config quacktool env_object None initial_world).2)
       = Some (Opened h "/var/log/quack" "quacktool.log").
Proof.
  assert (Ht : PYTEST_CURRENT_TEST env_object = false) by reflexivity.
  assert (Hl : load_config env_object None = Ok (Loaded [] host_object)) by reflexivity.
  assert (Hrun : initialize_config quacktool env_object None initial_world
                 = (Ok 0%nat, (initialize_config quacktool env_object None initial_world).2))
    by (vm_compute; reflexivity).
  destruct (normal_mode_log_file quacktool env_object None [] host_object
              initial_world 0%nat _ Ht Hl Hrun) as (dir & Hd & _ & H).
  injection Hd as <-. simpl in H. destruct H as (h & _ & Hh & _ & _ & Htr).
  exists h. split; [exact Hh | exact Htr].
Defined.

(** The worlds in which the normal branch can end. *)
Lemma normal_outcome T E p w res w' :
  PYTEST_CURRENT_TEST E = false →
  initialize_config T E p w = (res, w') →
  (∃ e, res = Raise e ∧ same_logging w w') ∨
  ∃ z wl, same_logging w wl ∧
    ((w' = normal_prepared z wl ∧
      (res = Ok (length (configs w)) → ∃ dir e,
         open_append E dir (log_file_name T) = Some e ∧ is_OSError e = true)) ∨
     (∃ dir, res = Ok (length (configs w)) ∧
        w' = attach_file z dir (log_file_name T) (normal_prepared z wl))).
Proof.
  intros Ht Hrun.
  destruct (initialize_config_anatomy T E p w)
    as [(e & wl & He & Hs & _)|(objs & cfg0 & lvl & cfg & wl & Hl & Hi & Hs & _ & Hcfg & Hld)].
  { rewrite He in Hrun. injection Hrun as <- <-. left. eauto. }
  rewrite Hi in Hrun.
  destruct (_checkLevel lvl) as [z|e] eqn:Hz.
  2:{ rewrite (configure_logging_normal_raise _ _ _ _ _ _ Ht Hz) in Hrun.
      injection Hrun as <- <-. left. eauto. }
  rewrite (configure_logging_normal _ _ _ _ _ _ Ht Hz) in Hrun. cbv zeta in Hrun.
  rewrite Hcfg in Hrun. right. exists z, wl. split; [done|].
  destruct (Path _) as [dir|e]; [|injection Hrun as <- <-; left; by split].
  destruct (mkdir E dir) as [e|]; [injection Hrun as <- <-; left; by split|].
  destruct (open_append E dir (log_file_name T)) as [e|] eqn:Ho.
  - left. destruct (is_OSError e) eqn:Hos; injection Hrun as <- <-; split; try done.
    intros _. eauto.
  - injection Hrun as <- <-. right. eauto.
Qed.

Lemma attach_file_test f z dir file w x :
  handler_test f (attach_file z dir file w) x
  = if bool_decide (x = length (handlers w)) then f (mkHandler FileHandler z false)
    else handler_test f w x.
Proof. unfold handler_test at 1. simpl. apply handler_test_app. Qed.

Lemma same_logging_test f w w' : same_logging w w' → handler_test f w' = handler_test f w.
Proof. intros (Hh & _). by apply handler_test_same. Qed.

(** X5. In the normal branch a console handler that is already attached
    to the root logger is left exactly as it is: the call sets the root
    level, but the handler keeps the level it had, and no second console
    handler is attached. *)
Theorem console_handler_kept T E p w c :
  PYTEST_CURRENT_TEST E = false →
  c ∈ root_handlers w → console_at w c = true →
  handlers (initialize_config T E p w).2 !! c = handlers w !! c ∧
  ∀ x, x ∈ root_handlers (initialize_config T E p w).2 →
       console_at (initialize_config T E p w).2 x = true → x ∈ root_handlers w.
Proof.
  intros Ht Hc Hcon.
  destruct (initialize_config T E p w) as [res w'] eqn:Hrun. simpl.
  destruct (normal_outcome _ _ _ _ _ _ Ht Hrun)
    as [(e & _ & Hs)|(z & wl & Hs & Hw)].
  { destruct Hs as (Hh & _ & Hr & _). by rewrite Hh, Hr. }
  pose proof (same_logging_test is_console _ _ Hs) as Hct.
  destruct Hs as (Hh & _ & Hr & _).
  assert (Hc' : c ∈ root_handlers wl) by (by rewrite Hr).
  assert (Hcon' : console_at wl c = true) by (unfold console_at; by rewrite Hct).
  pose proof (normal_prepared_keeps_console z wl c Hc' Hcon') as Hk.
  assert (Hsub : ∀ x, x ∈ root_handlers (normal_prepared z wl) → x ∈ root_handlers w).
  { intros x Hx. unfold normal_prepared in Hx. rewrite sweep_files_eq in Hx.
    apply sweep_root_sub in Hx. unfold console_step in Hx.
    assert (He : existsb (console_at (set_root_level z wl))
                   (root_handlers (set_root_level z wl)) = true).
    { apply existsb_exists. exists c. by rewrite <- list_elem_of_In. }
    rewrite He in Hx. simpl in Hx. by rewrite <- Hr. }
  destruct Hw as [[-> _]|(dir & _ & ->)].
  - split; [by rewrite Hk, Hh | auto].
  - split.
    + rewrite attach_file_handlers, lookup_app_l; [by rewrite Hk, Hh|].
      apply lookup_lt_is_Some. rewrite Hk. apply lookup_lt_is_Some.
      by apply handler_test_lt in Hcon'.
    + intros x Hx Hxc. apply attach_file_root in Hx as [Hx| ->]; [auto|].
      unfold console_at in Hxc. rewrite attach_file_test in Hxc.
      by rewrite bool_decide_eq_true_2 in Hxc.
Qed.

Lemma console_handler_kept_witness :
  handlers (initialize_config quackmetadata (env_debug_at 2) None
              (initialize_config quackmetadata env_fine None initial_world).2).2 !! 0%nat
  = Some (mkHandler StreamHandler 20 false) ∧
  root_level (initialize_config quackmetadata (env_debug_at 2) None
                (initialize_config quackmetadata env_fine None initial_world).2).2 = 10%Z.
Proof.
  assert (Ht : PYTEST_CURRENT_TEST (env_debug_at 2) = false) by reflexivity.
  assert (Hc : 0%nat ∈ root_handlers (initialize_config quackmetadata env_fine None initial_world).2)
    by (vm_compute; apply list_elem_of_here).
  assert (Hcon : console_at (initialize_config quackmetadata env_fine None initial_world).2 0%nat = true)
    by (vm_compute; reflexivity).
  destruct (console_handler_kept quackmetadata (env_debug_at 2) None _ 0%nat Ht Hc Hcon)
    as [H _].
  split; [etrans; [exact H|]|]; vm_compute; reflexivity.
Defined.

(** X6. In the normal branch every [FileHandler] that was attached to
    the root logger at the call, by this module or by anyone else, is
    closed when the call returns; it is detached too when the handler
    list had no duplicates. *)
Theorem attached_file_handlers_closed T E p w r w' h :
  PYTEST_CURRENT_TEST E = false →
  initialize_config T E p w = (Ok r, w') →
  h ∈ root_handlers w → file_at w h = true →
  closed_at w' h = true ∧ (NoDup (root_handlers w) → h ∉ root_handlers w').
Proof.
  intros Ht Hrun Hh Hf.
  destruct (normal_outcome _ _ _ _ _ _ Ht Hrun)
    as [(e & [=] & _)|(z & wl & Hs & Hw)].
  pose proof (same_logging_test is_file _ _ Hs) as Hft.
  destruct Hs as (Hhs & _ & Hr & _).
  assert (Hh' : h ∈ root_handlers wl) by (by rewrite Hr).
  assert (Hf' : file_at wl h = true) by (unfold file_at; by rewrite Hft).
  destruct (normal_prepared_closes_file z wl h Hh' Hf') as [Hcl Hdet].
  rewrite Hr in Hdet.
  destruct Hw as [[-> _]|(dir & _ & ->)]; [done|].
  assert (Hlt : (h < length (handlers (normal_prepared z wl)))%nat)
    by (by apply handler_test_lt in Hcl).
  split.
  - unfold closed_at. rewrite attach_file_test.
    rewrite bool_decide_eq_false_2 by lia. exact Hcl.
  - intros Hnd Hin. apply attach_file_root in Hin as [Hin| ->]; [by apply Hdet|lia].
Qed.

Lemma attached_file_handlers_closed_witness :
  closed_at (initialize_config quackmetadata (env_debug_at 2) None
               (initialize_config quackmetadata env_fine None initial_world).2).2 1%nat = true.
Proof.
  assert (Ht : PYTEST_CURRENT_TEST (env_debug_at 2) = false) by reflexivity.
  assert (Hrun : initialize_config quackmetadata (env_debug_at 2) None
                   (initialize_config quackmetadata env_fine None initial_world).2
                 = (Ok 1%nat, (initialize_config quackmetadata (env_debug_at 2) None
                     (initialize_config quackmetadata env_fine None initial_world).2).2))
    by (vm_compute; reflexivity).
  assert (Hh : 1%nat ∈ root_handlers (initialize_config quackmetadata env_fine None initial_world).2)
    by (vm_compute; apply list_elem_of_further, list_elem_of_here).
  assert (Hf : file_at (initialize_config quackmetadata env_fine None initial_world).2 1%nat = true)
    by (vm_compute; reflexivity).
  exact (proj1 (attached_file_handlers_closed quackmetadata (env_debug_at 2) None _ 1%nat _ 1%nat
                  Ht Hrun Hh Hf)).
Defined.

(** ** A section that is already there *)

Lemma read_log_level_name_state v w : (read_log_level_name v w).2 = w.
Proof.
  unfold read_log_level_name, isinstance_dict, dict_get, getattr_val.
  destruct v; try reflexivity. mrun.
  destruct (heap w !! l) as [[d|a]|] eqn:Hl; mrun; rewrite ?Hl; reflexivity.
Qed.

(** The state in which the level name is read when the section exists. *)
Definition present_world (objs : list pyobj) (cfg : QuackConfig) (w : world) : world :=
  set_heap (λ h, h ++ [ODict ∅]) (loaded_world objs cfg w).

Lemma present_world_logging objs cfg w : same_logging w (present_world objs cfg w).
Proof. by repeat split. Qed.

Lemma present_world_heap objs cfg w l o :
  (heap w ++ objs) !! l = Some o → heap (present_world objs cfg w) !! l = Some o.
Proof. intros H. simpl. rewrite lookup_app_l by (by eapply lookup_lt_Some). exact H. Qed.

Lemma present_world_config objs cfg w :
  configs (present_world objs cfg w) !! length (configs w) = Some cfg.
Proof. apply loaded_world_config. Qed.

(** X7. A section that the loaded configuration already has is left as
    it is: [initialize_config] neither replaces it nor completes it with
    the defaults. The configuration object it returns is the loaded one,
    unchanged, and so is every object that came with it. *)
Theorem existing_section_kept T E p objs cfg v w r w' :
  load_config E p = Ok (Loaded objs cfg) →
  plain (custom cfg) → entries (custom cfg) !! tool_name T = Some v →
  initialize_config T E p w = (Ok r, w') →
  configs w' !! r = Some cfg ∧
  ∀ l o, (heap w ++ objs) !! l = Some o → heap w' !! l = Some o.
Proof.
  intros Hl Hp Hn Hrun.
  rewrite (initialize_config_present T E p objs cfg v w Hl Hp Hn) in Hrun.
  fold (present_world objs cfg w) in Hrun.
  rewrite bind_run in Hrun.
  pose proof (read_log_level_name_state v (present_world objs cfg w)) as Hst.
  destruct (read_log_level_name v (present_world objs cfg w)) as [[name|e] w1];
    [|done]. simpl in Hst. subst w1.
  rewrite bind_run in Hrun. unfold lift at 1 in Hrun.
  destruct (logging.getattr _ name (VInt logging.INFO)) as [lvl|e]; [|done].
  pose proof (configure_logging_objects _ T E (length (configs w)) lvl
                (present_world objs cfg w) (conj eq_refl (conj eq_refl eq_refl)))
    as (Hh & Hc & _).
  pose proof (configure_logging_returns _ _ _ _ _ _ _ Hrun) as ->.
  rewrite Hrun in Hh, Hc. cbn [snd] in Hh, Hc. split.
  - rewrite Hc. apply present_world_config.
  - intros l o Ho. rewrite Hh. by apply present_world_heap.
Qed.

Lemma existing_section_kept_witness :
  heap (initialize_config quackmetadata env_debug None initial_world).2 !! 0%nat
  = Some (ODict {[ "log_level" := VStr "DEBUG" ]}).
Proof.
  assert (Hrun : initialize_config quackmetadata env_debug None initial_world
                 = (Ok 0%nat, (initialize_config quackmetadata env_debug None initial_world).2))
    by (vm_compute; reflexivity).
  destruct (existing_section_kept quackmetadata env_debug None _ _ (VRef 0) initial_world
              0%nat _ eq_refl I eq_refl Hrun) as [_ H].
  apply H. reflexivity.
Defined.

(** X8. The configured level is the one applied. When the section is a
    dict whose ["log_level"] entry (or, if the key is missing, the name
    ["INFO"]) is a name of the level table, an [initialize_config] that
    returns has set the root logger to that level, in either branch. *)
Theorem configured_level_applied T E p objs cfg l d s z w r w' :
  load_config E p = Ok (Loaded objs cfg) →
  plain (custom cfg) → entries (custom cfg) !! tool_name T = Some (VRef l) →
  (heap w ++ objs) !! l = Some (ODict d) →
  default (VStr "INFO") (d !! "log_level") = VStr s →
  logging._nameToLevel !! s = Some z →
  initialize_config T E p w = (Ok r, w') →
  root_level w' = z.
Proof.
  intros Hl Hp Hn Hh Hd Hs Hrun.
  rewrite (initialize_config_present T E p objs cfg _ w Hl Hp Hn) in Hrun.
  fold (present_world objs cfg w) in Hrun.
  erewrite bind_ok in Hrun; last first.
  { apply read_log_level_name_dict with (d := d). by apply present_world_heap. }
  rewrite Hd in Hrun.
  destruct (level_name_resolves (logging_attribute E) s z Hs) as [Hget Hz].
  rewrite bind_run in Hrun. unfold lift at 1 in Hrun. rewrite Hget in Hrun.
  destruct (PYTEST_CURRENT_TEST E) eqn:Ht.
  - rewrite configure_logging_test in Hrun by done.
    rewrite (basicConfig_ok _ _ _ Hz) in Hrun.
    destruct (mkdir E "./logs"); [done|]. by injection Hrun as _ <-.
  - rewrite (configure_logging_normal _ _ _ _ _ _ Ht Hz) in Hrun. cbv zeta in Hrun.
    destruct (configs _ !! _) as [c|]; [|done].
    destruct (Path _) as [dir|e]; [|done].
    destruct (mkdir E dir) as [e|]; [done|].
    destruct (open_append E dir (log_file_name T)) as [e|].
    + destruct (is_OSError e); [|done]. injection Hrun as _ <-.
      apply normal_prepared_root_level.
    + injection Hrun as _ <-. simpl. apply normal_prepared_root_level.
Qed.

Lemma configured_level_applied_witness :
  root_level (initialize_config quackmetadata env_debug None initial_world).2 = 10%Z.
Proof.
  apply (configured_level_applied quackmetadata env_debug None
           [ODict {[ "log_level" := VStr "DEBUG" ]}]
           (mkQuackConfig (Mapping {[ "quackmetadata" := VRef 0 ]}) None)
           0%nat {[ "log_level" := VStr "DEBUG" ]} "DEBUG" 10%Z initial_world 0%nat);
    [reflexivity | exact I | reflexivity | reflexivity | reflexivity | reflexivity
    | vm_compute; reflexivity].
Defined.

(** X9. A [log_level] that is not a string, such as the number 10, is
    not accepted as a level: it is used as the attribute name in
    [getattr(logging, ...)], which raises [TypeError] before any logging
    is configured. *)
Theorem non_string_level_rejected T E p objs cfg l d v w :
  load_config E p = Ok (Loaded objs cfg) →
  plain (custom cfg) → entries (custom cfg) !! tool_name T = Some (VRef l) →
  (heap w ++ objs) !! l = Some (ODict d) →
  d !! "log_level" = Some v → (∀ s, v ≠ VStr s) →
  (initialize_config T E p w).1 = Raise TypeError ∧
  same_logging w (initialize_config T E p w).2.
Proof.
  intros Hl Hp Hn Hh Hd Hv.
  rewrite (initialize_config_present T E p objs cfg _ w Hl Hp Hn).
  fold (present_world objs cfg w).
  erewrite bind_ok; last first.
  { apply read_log_level_name_dict with (d := d). by apply present_world_heap. }
  rewrite Hd. simpl default. rewrite bind_run. unfold lift at 1.
  assert (Hg : logging.getattr (logging_attribute E) v (VInt logging.INFO)
               = Raise TypeError).
  { destruct v; try reflexivity. by destruct (Hv s). }
  rewrite Hg. split; [done|]. apply present_world_logging.
Qed.

Lemma non_string_level_rejected_witness :
  (initialize_config quackmetadata env_numeric_level None initial_world).1 = Raise TypeError.
Proof.
  apply (non_string_level_rejected quackmetadata env_numeric_level None
           [ODict {[ "log_level" := VInt 10 ]}]
           (mkQuackConfig (Mapping {[ "quackmetadata" := VRef 0 ]}) None)
           0%nat {[ "log_level" := VInt 10 ]} (VInt 10) initial_world);
    [reflexivity | exact I | reflexivity | reflexivity | reflexivity | done].
Defined.

(** X10. What the [try] statement does with a failure to open the log
    file, on a fresh host configuration in the normal branch: an
    [OSError] is swallowed and the call returns the configuration object,
    any other exception is raised to the caller. Either way no handler is
    registered and no file is open, and the root logger has its console
    handler. *)
Theorem open_failure_policy T E p objs cfg dir e w :
  shipped T →
  PYTEST_CURRENT_TEST E = false →
  load_config E p = Ok (Loaded objs cfg) →
  plain (custom cfg) → entries (custom cfg) !! tool_name T = None →
  Path (default (VStr "./logs") (paths_logs_dir cfg)) = Ok dir →
  mkdir E dir = None →
  open_append E dir (log_file_name T) = Some e →
  (initialize_config T E p w).1
    = (if is_OSError e then Ok (length (configs w)) else Raise e) ∧
  _file_handlers (initialize_config T E p w).2 = _file_handlers w ∧
  (∀ h d f, Opened h d f ∈ trace (initialize_config T E p w).2 →
            Opened h d f ∈ trace w) ∧
  ∃ c, c ∈ root_handlers (initialize_config T E p w).2 ∧
       console_at (initialize_config T E p w).2 c = true.
Proof.
  intros HT Ht Hl Hp Hn Hd Hm Ho.
  rewrite (initialize_config_absent T E p objs cfg w HT Hl Hp Hn).
  rewrite (configure_logging_normal _ _ _ _ 20%Z) by done. cbv zeta.
  replace (configs (created_world T objs cfg w) !! length (configs w))
    with (Some (with_custom cfg
                  (store (custom cfg) (tool_name T)
                     (VRef (length (heap (loaded_world objs cfg w))))))).
  2:{ symmetry. simpl. apply list_lookup_insert_eq. rewrite length_app. simpl. lia. }
  simpl paths_logs_dir. rewrite Hd, Hm, Ho.
  set (w1 := normal_prepared 20 (created_world T objs cfg w)).
  assert (H : _file_handlers w1 = _file_handlers w ∧
              (∀ h d f, Opened h d f ∈ trace w1 → Opened h d f ∈ trace w) ∧
              ∃ c, c ∈ root_handlers w1 ∧ console_at w1 c = true).
  { split; [unfold w1; by rewrite normal_prepared_registry|].
    split; [|apply normal_prepared_has_console].
    intros h d f He. by apply normal_prepared_opened in He. }
  by destruct (is_OSError e).
Qed.

Definition env_open_broken : env :=
  {| load_config := λ _, Ok (Loaded [] host_mapping);
     PYTEST_CURRENT_TEST := false;
     mkdir := λ _, None;
     open_append := λ _ _, Some ValueError;
     logging_attribute := logging_3_11 |}.

Lemma open_failure_policy_witness :
  (initialize_config quackmetadata env_open_broken None initial_world).1 = Raise ValueError ∧
  (initialize_config quackmetadata env_open_denied None initial_world).1 = Ok 0%nat.
Proof.
  split.
  - apply (open_failure_policy quackmetadata env_open_broken None [] host_mapping
             "./logs" ValueError initial_world);
      [by left | reflexivity | reflexivity | exact I | reflexivity | reflexivity
      | reflexivity | reflexivity].
  - apply (open_failure_policy quackmetadata env_open_denied None [] host_mapping
             "./logs" (OSError ReadOnlyFilesystem) initial_world);
      [by left | reflexivity | reflexivity | exact I | reflexivity | reflexivity
      | reflexivity | reflexivity].
Defined.

(** ** The registry is complete *)

(** Every file handler there is was registered for the exit hook. *)
Definition all_tracked (w : world) : Prop :=
  ∀ h, file_at w h = true → h ∈ _file_handlers w.

Lemma all_tracked_same_logging w w' : same_logging w w' → all_tracked w → all_tracked w'.
Proof.
  intros Hs H h. unfold file_at. rewrite (same_logging_test _ _ _ Hs).
  destruct Hs as (_ & _ & _ & -> & _). apply H.
Qed.

Lemma preserves_all_tracked_of_logging {A} (m : M A) :
  (∀ w0, preserves (same_logging w0) m) → preserves all_tracked m.
Proof.
  intros Hm w H. apply (all_tracked_same_logging w); [|done].
  apply Hm, same_logging_refl.
Qed.

Lemma all_tracked_set_root_level z w : all_tracked w → all_tracked (set_root_level z w).
Proof. intros H. exact H. Qed.

Lemma all_tracked_test_prepared w : all_tracked w → all_tracked (test_prepared w).
Proof.
  intros H h. rewrite test_prepared_registry. unfold test_prepared, file_at.
  rewrite attach_new_test. case_bool_decide; [done|].
  fold (file_at (sweep_all (root_handlers w) w) h).
  rewrite sweep_all_eq, sweep_file_at. apply H.
Qed.

Lemma all_tracked_normal_prepared z w : all_tracked w → all_tracked (normal_prepared z w).
Proof.
  intros H h. rewrite normal_prepared_registry. unfold normal_prepared.
  rewrite sweep_files_eq, sweep_file_at. unfold console_step.
  destruct (existsb _ _); [apply H|].
  unfold file_at. rewrite attach_new_test. case_bool_decide; [done|]. apply H.
Qed.

Lemma all_tracked_attach_file z dir file w : all_tracked w → all_tracked (attach_file z dir file w).
Proof.
  intros H h. unfold file_at. rewrite attach_file_test. simpl.
  case_bool_decide as Hh.
  - intros _. subst h. apply elem_of_app. right. apply list_elem_of_here.
  - intros Hf. apply elem_of_app. left. by apply H.
Qed.

Lemma configure_logging_all_tracked T E qc lvl :
  preserves all_tracked (configure_logging T E qc lvl).
Proof.
  intros w HI. destruct (PYTEST_CURRENT_TEST E) eqn:Ht.
  - rewrite configure_logging_test by done. rewrite basicConfig_run. cbv zeta.
    fold (test_prepared w). pose proof (all_tracked_test_prepared w HI) as HI'.
    assert (Hm : ∀ w1, all_tracked w1 →
              all_tracked (match mkdir E "./logs" with
                           | Some e => (Raise e, w1)
                           | None => (Ok qc, w1)
                           end).2)
      by (intros w1 H1; by destruct (mkdir E "./logs")).
    destruct lvl; try (destruct (_checkLevel _));
      try (by apply Hm); try (by apply Hm, all_tracked_set_root_level); done.
  - destruct (_checkLevel lvl) as [z|e] eqn:Hz.
    + rewrite (configure_logging_normal _ _ _ _ _ _ Ht Hz). cbv zeta.
      pose proof (all_tracked_normal_prepared z w HI) as HI'.
      destruct (configs w !! qc) as [cfg|]; [|done].
      destruct (Path _) as [dir|e]; [|done].
      destruct (mkdir E dir) as [e|]; [done|].
      destruct (open_append E dir (log_file_name T)) as [e|].
      * by destruct (is_OSError e).
      * by apply all_tracked_attach_file.
    + by rewrite (configure_logging_normal_raise _ _ _ _ _ _ Ht Hz).
Qed.

Lemma initialize_config_all_tracked T E p : preserves all_tracked (initialize_config T E p).
Proof.
  rewrite initialize_config_unfold.
  apply preserves_bind; [apply preserves_all_tracked_of_logging; intros; preserves_tac | intros _].
  apply preserves_bind; [apply preserves_all_tracked_of_logging; intros; preserves_tac | intros qc].
  apply preserves_bind; [apply preserves_all_tracked_of_logging; intros; preserves_tac | intros mc].
  apply preserves_bind; [apply preserves_all_tracked_of_logging; intros; preserves_tac | intros n].
  apply preserves_bind; [apply preserves_lift | intros lvl].
  apply configure_logging_all_tracked.
Qed.

Lemma get_config_all_tracked T E : preserves all_tracked (get_config T E).
Proof.
  unfold get_config. apply preserves_bind; [apply preserves_gets|].
  intros [r|]; [apply preserves_ret|].
  apply preserves_bind; [apply initialize_config_all_tracked|].
  intros r. apply preserves_all_tracked_of_logging. intros. preserves_tac.
Qed.

Lemma get_tool_config_all_tracked T E : preserves all_tracked (get_tool_config T E).
Proof.
  unfold get_tool_config. apply preserves_bind; [apply get_config_all_tracked | intros r].
  apply preserves_all_tracked_of_logging. intros. preserves_tac.
Qed.

Lemma update_tool_config_all_tracked T E v : preserves all_tracked (update_tool_config T E v).
Proof.
  unfold update_tool_config.
  apply preserves_bind; [apply get_config_all_tracked | intros r].
  apply preserves_bind; [apply get_tool_config_all_tracked | intros tc].
  apply preserves_all_tracked_of_logging. intros. preserves_tac.
Qed.

Lemma run_calls_all_tracked T cs w : all_tracked w → all_tracked (run_calls T cs w).
Proof.
  revert w. induction cs as [|c cs IH]; intros w H; simpl; [done|].
  apply IH. destruct c; simpl.
  - by apply initialize_config_all_tracked.
  - by apply get_config_all_tracked.
  - by apply get_tool_config_all_tracked.
  - by apply update_tool_config_all_tracked.
Qed.

(** X11. In a run that started in a fresh process, every log file
    handler that exists is in the registry of the exit hook, whatever the
    calls were and however they ended; so when the hook has run, no
    handler holds a file descriptor. *)
Theorem no_descriptor_left_at_exit T cs :
  (∀ h, file_at (run_calls T cs initial_world) h = true →
        h ∈ _file_handlers (run_calls T cs initial_world)) ∧
  ∀ h, live_at (process_exit (run_calls T cs initial_world)) h = false.
Proof.
  assert (Ha : all_tracked (run_calls T cs initial_world)).
  { apply run_calls_all_tracked. intros h Hf. apply handler_test_lt in Hf. simpl in Hf. lia. }
  split; [exact Ha|]. intros h.
  set (w := run_calls T cs initial_world) in *.
  rewrite live_at_spec. rewrite process_exit_run.
  change (file_at (set_file_handlers _ ?x)) with (file_at x).
  change (closed_at (set_file_handlers _ ?x)) with (closed_at x).
  rewrite close_all_file_at.
  destruct (file_at w h) eqn:Hf; [|done].
  rewrite (close_all_closed AtExit (_file_handlers w) w h); [done | by apply Ha |].
  by apply handler_test_lt in Hf.
Qed.

(** ** The exit hook on any state *)






(** ** A failed initialization *)

(** X13. In the normal branch of a run that started in a fresh process,
    an [initialize_config] that raises has either left the logging state
    untouched, or it has already set the level and removed the file
    handler of the root logger: then no log file is open and none is
    attached, while the console handler stays. *)
Theorem failed_initialization_state T cs E p e w' :
  PYTEST_CURRENT_TEST E = false →
  initialize_config T E p (run_calls T cs initial_world) = (Raise e, w') →
  same_logging (run_calls T cs initial_world) w' ∨
  ((∀ h, live_at w' h = false) ∧
   (∀ h, h ∈ root_handlers w' → file_at w' h = false) ∧
   _file_handlers w' = _file_handlers (run_calls T cs initial_world) ∧
   ∃ c, c ∈ root_handlers w' ∧ console_at w' c = true).
Proof.
  intros Ht Hrun.
  pose proof (run_calls_Inv T cs initial_world Inv_initial) as HI.
  destruct (normal_outcome _ _ _ _ _ _ Ht Hrun)
    as [(e' & _ & Hs)|(z & wl & Hs & Hw)]; [by left|].
  right. destruct Hw as [[-> _]|(dir & [=] & _)].
  destruct (Inv_normal_prepared z wl (Inv_same_logging _ _ Hs HI)) as [HI' Hq].
  split; [exact Hq|]. split.
  - intros h Hh. destruct (file_at (normal_prepared z wl) h) eqn:Hf; [|done].
    pose proof (inv_attached_live _ HI' h Hh Hf) as Hl. by rewrite Hq in Hl.
  - split; [|apply normal_prepared_has_console].
    rewrite normal_prepared_registry. by destruct Hs as (_ & _ & _ & -> & _).
Qed.

Lemma failed_initialization_state_witness :
  live_at (initialize_config quackmetadata env_mkdir_denied None
             (run_calls quackmetadata first_calls initial_world)).2 1%nat = false.
Proof.
  assert (Ht : PYTEST_CURRENT_TEST env_mkdir_denied = false) by reflexivity.
  assert (Hrun : initialize_config quackmetadata env_mkdir_denied None
                   (run_calls quackmetadata first_calls initial_world)
                 = (Raise (OSError PermissionDenied),
                    (initialize_config quackmetadata env_mkdir_denied None
                       (run_calls quackmetadata first_calls initial_world)).2))
    by (vm_compute; reflexivity).
  destruct (failed_initialization_state quackmetadata first_calls env_mkdir_denied None
              _ _ Ht Hrun) as [Hs|[Hq _]]; [|exact (Hq 1%nat)].
  exfalso. destruct Hs as (_ & _ & _ & _ & Htr). vm_compute in Htr. discriminate Htr.
Defined.

(** ** Reading and updating the section of a populated singleton *)

Section populated.
Context (T : tool).

(** [get_tool_config] after its [get_config()], lines 209-213. *)
Definition read_section (config : nat) : M val :=
  cu ← custom_of config;
  empty ← alloc (ODict ∅);
  if hasattr cu "get" then lift (get_method cu (tool_name T) (VRef empty))
  else mret (getattr cu (tool_name T) (VRef empty)).

(** [update_tool_config] after its two reads, lines 226-239. *)
Definition write_section (config : nat) (tool_config new_config : val) : M unit :=
  is_dict ← isinstance_dict tool_config;
  updated_config ←
    (if (is_dict : bool) then
       updated ← dict_copy tool_config;
       update_method updated new_config ;;
       mret (VRef updated)
     else mret new_config);
  cu ← custom_of config;
  if hasattr cu "get" then
    update_custom config (λ c, setitem c (tool_name T) updated_config)
  else
    update_custom config (λ c, setattr c (tool_name T) updated_config).

Lemma get_tool_config_unfold E :
  get_tool_config T E = (config ← get_config T E; read_section config).
Proof. reflexivity. Qed.

Lemma update_tool_config_unfold E new_config :
  update_tool_config T E new_config =
    (config ← get_config T E;
     tool_config ← get_tool_config T E;
     write_section config tool_config new_config).
Proof. reflexivity. Qed.

Lemma get_tool_config_populated E w r :
  _config w = Some r → get_tool_config T E w = read_section r w.
Proof.
  intros Hr. rewrite get_tool_config_unfold.
  by rewrite (bind_ok _ _ _ _ _ (get_config_cached T E _ _ Hr)).
Qed.

Lemma update_tool_config_populated E v w r :
  _config w = Some r →
  update_tool_config T E v w = (tool_config ← read_section r; write_section r tool_config v) w.
Proof.
  intros Hr. rewrite update_tool_config_unfold.
  rewrite (bind_ok _ _ _ _ _ (get_config_cached T E _ _ Hr)).
  by rewrite !bind_run, (get_tool_config_populated E w r Hr).
Qed.

End populated.

(** Only new objects: the singleton, the configuration objects, the
    logging state and every object there was are as in [w0]. *)
Definition only_allocates (w0 w : world) : Prop :=
  same_logging w0 w ∧ _config w = _config w0 ∧ configs w = configs w0 ∧
  ∃ new, heap w = heap w0 ++ new.

(** The singleton and the logging state are as in [w0]. *)
Definition settled (w0 w : world) : Prop :=
  same_logging w0 w ∧ _config w = _config w0.

Lemma alloc_only_allocates w0 o : preserves (only_allocates w0) (alloc o).
Proof.
  intros w (Hl & Hc & Hcs & new & Hh). split; [done|]. split; [done|]. split; [done|].
  exists (new ++ [o]). simpl. by rewrite Hh, (assoc_L (++)).
Qed.

Lemma deref_only_allocates w0 l : preserves (only_allocates w0) (deref l).
Proof. intros w H. unfold deref. by destruct (heap w !! l). Qed.

Lemma deref_config_only_allocates w0 c : preserves (only_allocates w0) (deref_config c).
Proof. intros w H. unfold deref_config. by destruct (configs w !! c). Qed.

Lemma alloc_settled w0 o : preserves (settled w0) (alloc o).
Proof. intros w H. exact H. Qed.

Lemma deref_settled w0 l : preserves (settled w0) (deref l).
Proof. intros w H. unfold deref. by destruct (heap w !! l). Qed.

Lemma deref_config_settled w0 c : preserves (settled w0) (deref_config c).
Proof. intros w H. unfold deref_config. by destruct (configs w !! c). Qed.

#[global] Hint Resolve alloc_only_allocates deref_only_allocates deref_config_only_allocates
  alloc_settled deref_settled deref_config_settled : frame.

Lemma read_section_only_allocates T w0 r : preserves (only_allocates w0) (read_section T r).
Proof. unfold read_section, custom_of. preserves_tac. Qed.

Lemma read_section_settled T w0 r : preserves (settled w0) (read_section T r).
Proof. unfold read_section, custom_of. preserves_tac. Qed.

Lemma write_section_settled T w0 r tc v : preserves (settled w0) (write_section T r tc v).
Proof.
  unfold write_section, custom_of, update_custom, isinstance_dict, dict_copy, update_method.
  destruct tc; destruct v; preserves_tac.
Qed.

(** X14. Once the singleton is populated, reading and updating the
    section stay inside the process: they give the same result whatever
    the loader, the environment and the filesystem would answer, and they
    keep the singleton and the logging state. [get_tool_config] changes no
    configuration object and no object that exists: it only allocates. *)
Theorem populated_calls_stay_inside T E E' v w r :
  _config w = Some r →
  get_tool_config T E w = get_tool_config T E' w ∧
  update_tool_config T E v w = update_tool_config T E' v w ∧
  same_logging w (get_tool_config T E w).2 ∧
  same_logging w (update_tool_config T E v w).2 ∧
  _config (get_tool_config T E w).2 = Some r ∧
  _config (update_tool_config T E v w).2 = Some r ∧
  configs (get_tool_config T E w).2 = configs w ∧
  ∀ l o, heap w !! l = Some o → heap (get_tool_config T E w).2 !! l = Some o.
Proof.
  intros Hr.
  rewrite !(get_tool_config_populated T _ w r Hr).
  rewrite !(update_tool_config_populated T _ v w r Hr).
  split; [done|]. split; [done|].
  assert (H0 : only_allocates w w).
  { split; [apply same_logging_refl|]. split; [done|]. split; [done|].
    exists []. by rewrite app_nil_r. }
  destruct (read_section_only_allocates T w r w H0) as (Hl & Hc & Hcs & new & Hh).
  assert (Hu : settled w ((tool_config ← read_section T r; write_section T r tool_config v) w).2).
  { apply (preserves_bind (settled w)); [apply read_section_settled| |by split; [apply same_logging_refl|]].
    intros tc. apply write_section_settled. }
  destruct Hu as [Hul Huc].
  split; [done|]. split; [done|]. split; [by rewrite Hc|]. split; [by rewrite Huc|].
  split; [done|].
  intros l o Ho. rewrite Hh. rewrite lookup_app_l by (by eapply lookup_lt_Some). done.
Qed.

Lemma populated_calls_stay_inside_witness :
  update_tool_config quackmetadata env_fine (VRef 1) example_world
  = update_tool_config quackmetadata env_loader_fails (VRef 1) example_world.
Proof.
  exact (proj1 (proj2 (populated_calls_stay_inside quackmetadata env_fine env_loader_fails
                         (VRef 1) example_world 0%nat eq_refl))).
Defined.

(** X15. [update_tool_config] copies: the dict that an earlier
    [get_tool_config()] returned keeps its items, and so does the dict
    given as the update. The section stored afterwards is a third object,
    with the merged items. *)
Theorem update_leaves_old_dicts T E w v w1 sec lp upd :
  get_tool_config T E w = (Ok v, w1) → dict_at w1 v = Some sec →
  dict_at w1 (VRef lp) = Some upd →
  ∃ r w' l',
    update_tool_config T E (VRef lp) w1 = (Ok tt, w') ∧
    _config w' = Some r ∧
    section_of T w' r = Some (VRef l') ∧
    dict_at w' (VRef l') = Some (upd ∪ sec) ∧
    VRef l' ≠ v ∧ l' ≠ lp ∧
    dict_at w' v = Some sec ∧ dict_at w' (VRef lp) = Some upd.
Proof.
  intros Hg Hs Hu.
  rewrite get_tool_config_after_get in Hg.
  destruct (get_config T E w) as [[r|e] w0] eqn:Hgc; [|done].
  pose proof (get_config_Ok T E _ _ _ Hgc) as Hr.
  destruct (get_tool_config_returns T E w0 r v w1 Hr Hg) as (cfg & Hc & Hp & -> & ->).
  set (w1 := set_heap (λ h, h ++ [ODict ∅]) w0) in *.
  assert (Hr1 : _config w1 = Some r) by done.
  assert (Hc1 : configs w1 !! r = Some cfg) by done.
  assert (Hlp : heap w1 !! lp = Some (ODict upd)).
  { unfold dict_at in Hu. by destruct (heap w1 !! lp) as [[d|a]|]; simplify_eq. }
  assert (Hv : ∃ lv, default (VRef (length (heap w0))) (entries (custom cfg) !! tool_name T)
                     = VRef lv ∧ heap w1 !! lv = Some (ODict sec)).
  { destruct (default _ _) as [| | | | |lv]; try discriminate Hs. exists lv.
    split; [done|]. unfold dict_at in Hs.
    by destruct (heap w1 !! lv) as [[d|a]|]; simplify_eq. }
  destruct Hv as (lv & Hv & Hlv). rewrite Hv in *.
  assert (Hls : ∃ ls, default (VRef (length (heap w1))) (entries (custom cfg) !! tool_name T)
                      = VRef ls ∧ (heap w1 ++ [ODict ∅]) !! ls = Some (ODict sec)).
  { destruct (entries (custom cfg) !! tool_name T) as [x|] eqn:He;
      simpl default in Hv |- *.
    - subst x. exists lv. split; [done|].
      rewrite lookup_app_l by (by eapply lookup_lt_Some). done.
    - injection Hv as <-. exists (length (heap w1)). split; [done|].
      rewrite lookup_app_r by lia. rewrite Nat.sub_diag.
      unfold w1 in Hlv. simpl heap in Hlv. rewrite lookup_app_r in Hlv by lia.
      rewrite Nat.sub_diag in Hlv. exact Hlv. }
  destruct Hls as (ls & Hdef & Hls).
  pose proof (update_tool_config_merge T E w1 r cfg ls sec lp upd Hr1 Hc1 Hp Hdef Hls Hlp)
    as Hrun.
  assert (Hlt : (r < length (configs w1))%nat) by (by eapply lookup_lt_Some).
  pose proof (lookup_lt_Some _ _ _ Hlv) as Hlvlt.
  pose proof (lookup_lt_Some _ _ _ Hlp) as Hlplt.
  eexists r, _, (S (length (heap w1))). split; [exact Hrun|].
  split; [done|]. split.
  { unfold section_of. simpl. rewrite list_lookup_insert_eq by done. simpl.
    by rewrite entries_store, lookup_insert_eq. }
  split.
  { unfold dict_at. simpl. rewrite lookup_app_r by (rewrite length_app; simpl; lia).
    rewrite length_app. simpl.
    replace (S (length (heap w0) + 1) - (length (heap w0) + 1))%nat with 1%nat by lia.
    simpl. by rewrite dict_update_union. }
  split; [intros [= Heq]; subst w1; simpl in *; lia|].
  split; [subst w1; simpl in *; lia|]. split.
  - unfold dict_at. simpl. change (heap w0 ++ [ODict ∅]) with (heap w1).
    rewrite lookup_app_l by done. by rewrite Hlv.
  - unfold dict_at. simpl. change (heap w0 ++ [ODict ∅]) with (heap w1).
    rewrite lookup_app_l by done. by rewrite Hlp.
Qed.

Lemma update_leaves_old_dicts_witness :
  ∃ r w' l',
    update_tool_config quackmetadata env_fine (VRef 1)
      (set_heap (λ h, h ++ [ODict ∅]) example_world) = (Ok tt, w') ∧
    _config w' = Some r ∧
    section_of quackmetadata w' r = Some (VRef l') ∧
    dict_at w' (VRef l')
    = Some (({[ "b" := VInt 3; "c" := VInt 4 ]} : gmap string val)
            ∪ {[ "a" := VInt 1; "b" := VInt 2 ]}) ∧
    VRef l' ≠ VRef 0 ∧ l' ≠ 1%nat ∧
    dict_at w' (VRef 0) = Some {[ "a" := VInt 1; "b" := VInt 2 ]} ∧
    dict_at w' (VRef 1) = Some {[ "b" := VInt 3; "c" := VInt 4 ]}.
Proof.
  apply (update_leaves_old_dicts quackmetadata env_fine example_world (VRef 0)
           (set_heap (λ h, h ++ [ODict ∅]) example_world)
           {[ "a" := VInt 1; "b" := VInt 2 ]} 1 {[ "b" := VInt 3; "c" := VInt 4 ]});
    reflexivity.
Defined.

(** X16. When the section is a dict, the update has to be one too:
    [update_tool_config] with [None], a number or a boolean raises
    [TypeError] from [dict.update], and no configuration object is
    changed. (A section that is no dict accepts any value.) *)
Theorem update_rejects_scalar T E w v w1 sec new_config :
  get_tool_config T E w = (Ok v, w1) → dict_at w1 v = Some sec →
  (∀ l, new_config ≠ VRef l) → (∀ s, new_config ≠ VStr s) →
  (update_tool_config T E new_config w).1 = Raise TypeError ∧
  configs (update_tool_config T E new_config w).2 = configs w1.
Proof.
  intros Hg Hs Hnr Hns.
  rewrite get_tool_config_after_get in Hg.
  rewrite update_tool_config_after_get.
  destruct (get_config T E w) as [[r|e] w0] eqn:Hgc; [|done].
  pose proof (get_config_Ok T E _ _ _ Hgc) as Hr.
  rewrite (update_tool_config_populated T E _ w0 r Hr).
  rewrite (get_tool_config_populated T E w0 r Hr) in Hg.
  rewrite (bind_ok _ _ _ _ _ Hg).
  destruct v as [| | | | |lv]; try discriminate Hs. unfold dict_at in Hs.
  destruct (heap w1 !! lv) as [[d|a]|] eqn:Hlv; try discriminate Hs.
  unfold write_section. mrun. rewrite Hlv. mrun. rewrite Hlv. mrun.
  destruct new_config as [| | |s| |l]; try (by mrun).
  - by destruct (Hns s).
  - by destruct (Hnr l).
Qed.

Lemma update_rejects_scalar_witness :
  (update_tool_config quackmetadata env_fine VNone example_world).1 = Raise TypeError.
Proof.
  refine (proj1 (update_rejects_scalar quackmetadata env_fine example_world (VRef 0)
                   (set_heap (λ h, h ++ [ODict ∅]) example_world)
                   {[ "a" := VInt 1; "b" := VInt 2 ]} VNone _ _ _ _));
    [reflexivity | reflexivity | done | done].
Defined.

(** X17. Updates compose: two updates in a row leave the section that
    one update with both dicts leaves, the later dict winning over the
    earlier one and both over the section. *)
Theorem updates_compose T E w r v w1 sec lp upd lq upq :
  shipped T → _config w = Some r →
  get_tool_config T E w = (Ok v, w1) → dict_at w1 v = Some sec →
  heap_has lp (ODict upd) w → heap_has lq (ODict upq) w →
  ∃ w' w'' l'',
    update_tool_config T E (VRef lp) w = (Ok tt, w') ∧
    update_tool_config T E (VRef lq) w' = (Ok tt, w'') ∧
    _config w'' = Some r ∧
    section_of T w'' r = Some (VRef l'') ∧
    dict_at w'' (VRef l'') = Some ((upq ∪ upd) ∪ sec).
Proof.
  intros HT Hr Hg Hs Hp Hq.
  destruct (get_tool_config_returns T E w r v w1 Hr Hg) as (cfg & Hc & Hpl & -> & ->).
  destruct (default _ _) as [| | | | |ls] eqn:Hv; try discriminate Hs.
  simpl in Hs. destruct ((heap w ++ [ODict ∅]) !! ls) as [[d|a]|] eqn:Hls;
    try discriminate Hs. injection Hs as ->.
  pose proof (update_tool_config_merge T E w r cfg ls sec lp upd Hr Hc Hpl Hv Hls Hp)
    as Hrun1.
  set (cfg' := with_custom cfg (store (custom cfg) (tool_name T)
                                  (VRef (S (length (heap w)))))) in *.
  set (w' := set_configs (λ cs, <[r := cfg']> cs)
               (set_heap (λ h, h ++ [ODict ∅; ODict (dict_update sec upd)]) w)) in *.
  assert (Hlt : (r < length (configs w))%nat) by (by eapply lookup_lt_Some).
  assert (Hr' : _config w' = Some r) by done.
  assert (Hc' : configs w' !! r = Some cfg') by (simpl; by apply list_lookup_insert_eq).
  assert (Hpl' : plain (custom cfg')) by (by apply plain_store).
  assert (Hv' : default (VRef (length (heap w')))
                  (entries (custom cfg') !! tool_name T) = VRef (S (length (heap w)))).
  { unfold cfg'. simpl custom. by rewrite entries_store, lookup_insert_eq. }
  assert (Hls' : (heap w' ++ [ODict ∅]) !! S (length (heap w))
                 = Some (ODict (dict_update sec upd))).
  { simpl. rewrite <- (assoc_L (++)). rewrite lookup_app_r by lia.
    by replace (S (length (heap w)) - length (heap w))%nat with 1%nat by lia. }
  assert (Hq' : heap w' !! lq = Some (ODict upq)).
  { simpl. rewrite lookup_app_l by (by eapply lookup_lt_Some). exact Hq. }
  pose proof (update_tool_config_merge T E w' r cfg' _ _ lq upq Hr' Hc' Hpl' Hv' Hls' Hq')
    as Hrun2.
  eexists w', _, (S (length (heap w'))). split; [exact Hrun1|]. split; [exact Hrun2|].
  split; [done|]. split.
  - unfold section_of. simpl configs.
    rewrite list_lookup_insert_eq by (by rewrite length_insert). simpl.
    by rewrite entries_store, lookup_insert_eq.
  - unfold dict_at. simpl heap. rewrite lookup_app_r by lia.
    rewrite !dict_update_union, (assoc_L (∪)).
    match goal with
    | |- context [(S ?n - ?n)%nat] => replace (S n - n)%nat with 1%nat by lia
    end.
    reflexivity.
Qed.

Lemma updates_compose_witness :
  ∃ w' w'' l'',
    update_tool_config quackmetadata env_fine (VRef 1) example_world = (Ok tt, w') ∧
    update_tool_config quackmetadata env_fine (VRef 0) w' = (Ok tt, w'') ∧
    _config w'' = Some 0%nat ∧
    section_of quackmetadata w'' 0 = Some (VRef l'') ∧
    dict_at w'' (VRef l'')
    = Some ((({[ "a" := VInt 1; "b" := VInt 2 ]} : gmap string val)
             ∪ {[ "b" := VInt 3; "c" := VInt 4 ]})
            ∪ {[ "a" := VInt 1; "b" := VInt 2 ]}).
Proof.
  apply (updates_compose quackmetadata env_fine example_world 0%nat (VRef 0)
           (set_heap (λ h, h ++ [ODict ∅]) example_world)
           {[ "a" := VInt 1; "b" := VInt 2 ]} 1 {[ "b" := VInt 3; "c" := VInt 4 ]}
           0 {[ "a" := VInt 1; "b" := VInt 2 ]});
    [by left | reflexivity | reflexivity | reflexivity | reflexivity | reflexivity].
Defined.

(** * [plugins/plugin_factory.py] *)

Module plugin_factory.

(** The module's state: the global [_plugin_instance], the number of
    [MetadataPlugin] objects constructed so far (an instance is named by
    its number), and the messages given to [logger.debug]. *)
Record state : Type := mkState {
  _plugin_instance : option nat;
  constructed : nat;
  debug_log : list string }.

Definition initial : state := mkState None 0 [].

(** [create_plugin()]. The constructor [MetadataPlugin()] is outside the
    module: [ctor] is what it does at this call, [None] for returning the
    new object and [Some e] for raising [e]. *)
Definition create_plugin (ctor : option exn) (s : state) : result nat * state :=
  match _plugin_instance s with
  | None =>
      let s1 := mkState None (constructed s)
                  (debug_log s ++ ["Creating new MetadataPlugin instance"]) in
      match ctor with
      | Some e => (Raise e, s1)
      | None =>
          (Ok (constructed s),
           mkState (Some (constructed s)) (S (constructed s)) (debug_log s1))
      end
  | Some i => (Ok i, s)
  end.

(** Successive calls, each with what the constructor would do. *)
Fixpoint calls (ctors : list (option exn)) (s : state) : list (result nat) * state :=
  match ctors with
  | [] => ([], s)
  | c :: cs =>
      let '(r, s1) := create_plugin c s in
      let '(rs, s2) := calls cs s1 in
      (r :: rs, s2)
  end.

(** The calls that reach the constructor: all up to the first one at
    which it returns. *)
Fixpoint attempts (ctors : list (option exn)) : nat :=
  match ctors with
  | [] => 0
  | None :: _ => 1
  | Some _ :: cs => S (attempts cs)
  end.

End plugin_factory.

Lemma calls_populated ctors i n l :
  plugin_factory.calls ctors (plugin_factory.mkState (Some i) n l)
  = (replicate (length ctors) (Ok i), plugin_factory.mkState (Some i) n l).
Proof.
  induction ctors as [|c cs IH]; simpl; [done|]. by rewrite IH.
Qed.

Lemma calls_unpopulated ctors l :
  let '(rs, s) := plugin_factory.calls ctors (plugin_factory.mkState None 0 l) in
  (∀ a, Ok a ∈ rs → a = 0%nat ∧ plugin_factory._plugin_instance s = Some 0%nat) ∧
  (plugin_factory.constructed s ≤ 1)%nat ∧
  (plugin_factory._plugin_instance s = None → ∀ a, Ok a ∉ rs) ∧
  length (plugin_factory.debug_log s) = (length l + plugin_factory.attempts ctors)%nat.
Proof.
  revert l. induction ctors as [|[e|] cs IH]; intros l; simpl.
  - split; [by intros a Ha%elem_of_nil|]. split; [lia|].
    split; [by intros _ a Ha%elem_of_nil|]. lia.
  - specialize (IH (l ++ ["Creating new MetadataPlugin instance"])).
    destruct (plugin_factory.calls cs _) as [rs s].
    destruct IH as (H1 & H2 & H3 & H4).
    split; [|split; [done|split]].
    + intros a Ha. apply elem_of_cons in Ha as [Ha|Ha]; [done|]. by apply H1.
    + intros Hn a Ha. apply elem_of_cons in Ha as [Ha|Ha]; [done|]. by apply (H3 Hn a).
    + rewrite H4, length_app. simpl. lia.
  - rewrite calls_populated. simpl.
    split; [|split; [lia|split; [done|]]].
    + intros a Ha. apply elem_of_cons in Ha as [[= ->]|Ha]; [done|].
      by apply elem_of_replicate in Ha as [[= ->] _].
    + rewrite length_app. simpl. lia.
Qed.

(** X18. [create_plugin] is a singleton factory. Over any sequence of
    calls in a fresh process, whatever the constructor does at each:
    every call that returns gives the same instance, which is the one
    held in [_plugin_instance]; at most one instance is ever constructed;
    and the constructor is tried, with its debug message, at every call
    up to the first at which it returns and at none after. *)
Theorem create_plugin_singleton ctors :
  (∀ a b, Ok a ∈ (plugin_factory.calls ctors plugin_factory.initial).1 →
          Ok b ∈ (plugin_factory.calls ctors plugin_factory.initial).1 → a = b) ∧
  (∀ a, Ok a ∈ (plugin_factory.calls ctors plugin_factory.initial).1 →
        plugin_factory._plugin_instance
          (plugin_factory.calls ctors plugin_factory.initial).2 = Some a) ∧
  (plugin_factory.constructed (plugin_factory.calls ctors plugin_factory.initial).2 ≤ 1)%nat ∧
  length (plugin_factory.debug_log (plugin_factory.calls ctors plugin_factory.initial).2)
  = plugin_factory.attempts ctors.
Proof.
  pose proof (calls_unpopulated ctors []) as H. unfold plugin_factory.initial.
  destruct (plugin_factory.calls ctors _) as [rs s]. simpl in *.
  destruct H as (H1 & H2 & _ & H4).
  split; [|split; [|split; [done|done]]].
  - intros a b Ha Hb. destruct (H1 a Ha) as [-> _]. by destruct (H1 b Hb) as [-> _].
  - intros a Ha. by destruct (H1 a Ha) as [-> ->].
Qed.

(** ** The singleton always has the section *)

Section has_section.
Context (T : tool).

(** The object at [r] has one of the two shapes and holds the section. *)
Definition holds_section (r : nat) (w : world) : Prop :=
  ∃ cfg v, configs w !! r = Some cfg ∧ plain (custom cfg) ∧
           entries (custom cfg) !! tool_name T = Some v.

(** The singleton, when populated, holds the section. *)
Definition singleton_ok (w : world) : Prop :=
  ∀ r, _config w = Some r → holds_section r w.

Lemma ensure_tool_section_Ok c v w w' :
  shipped T → ensure_tool_section T c w = (Ok v, w') → holds_section c w'.
Proof.
  intros HT Hrun.
  destruct (configs w !! c) as [cfg|] eqn:Hc.
  2:{ unfold ensure_tool_section, custom_of, deref_config in Hrun.
      rewrite !bind_run, Hc in Hrun. done. }
  assert (Hp : plain (custom cfg)).
  { destruct (custom cfg) as [m|a] eqn:Hcu; [done|]. simpl.
    destruct (a !! "get") as [g|] eqn:Hg; [|done].
    unfold ensure_tool_section in Hrun. revert Hrun. mrun. rewrite Hc. mrun.
    rewrite Hcu. unfold hasattr at 1.
    rewrite bool_decide_eq_true_2 by (by rewrite Hg). by mrun. }
  assert (Hlt : (c < length (configs w))%nat) by (by eapply lookup_lt_Some).
  destruct (entries (custom cfg) !! tool_name T) as [x|] eqn:He.
  - rewrite (ensure_tool_section_present T c cfg x w Hc Hp He) in Hrun.
    injection Hrun as <- <-. by exists cfg, x.
  - rewrite (ensure_tool_section_absent T c cfg w Hc Hp He) in Hrun.
    injection Hrun as <- <-. eexists _, _. split; [|split].
    + simpl. by apply list_lookup_insert_eq.
    + by apply plain_store.
    + simpl custom. by rewrite entries_store, lookup_insert_eq.
Qed.

Lemma holds_section_objects r w w' : same_objects w w' → holds_section r w → holds_section r w'.
Proof. intros (_ & Hc & _) (cfg & v & H). exists cfg, v. by rewrite Hc. Qed.

Lemma initialize_config_unset E p w : _config (initialize_config T E p w).2 = None.
Proof.
  destruct (initialize_config_anatomy T E p w)
    as [(e & wl & -> & _ & Hc)|(objs & cfg0 & lvl & cfg & wl & _ & -> & _ & Hc & _)];
    [done|].
  destruct (configure_logging_objects wl T E (length (configs w)) lvl wl) as (_ & _ & Hc');
    [done|]. by rewrite Hc'.
Qed.

Lemma initialize_config_section E p w r w' :
  shipped T → initialize_config T E p w = (Ok r, w') → holds_section r w'.
Proof.
  intros HT. rewrite initialize_config_unfold.
  rewrite bind_run. unfold modify at 1.
  rewrite bind_run. destruct (call_load_config E p _) as [[qc|e] wl]; [|done].
  rewrite bind_run. destruct (ensure_tool_section T qc wl) as [[v|e] we] eqn:He; [|done].
  apply (ensure_tool_section_Ok _ _ _ _ HT) in He.
  rewrite bind_run. pose proof (read_log_level_name_state v we) as Hst.
  destruct (read_log_level_name v we) as [[name|e] wr]; [|done]. simpl in Hst. subst wr.
  rewrite bind_run. unfold lift at 1.
  destruct (logging.getattr _ name (VInt logging.INFO)) as [lvl|e]; [|done].
  intros Hrun. pose proof (configure_logging_returns _ _ _ _ _ _ _ Hrun) as ->.
  pose proof (configure_logging_objects we T E qc lvl we (conj eq_refl (conj eq_refl eq_refl)))
    as Ho.
  rewrite Hrun in Ho. by apply (holds_section_objects qc we).
Qed.

Lemma get_config_section E w r w' :
  shipped T → singleton_ok w → get_config T E w = (Ok r, w') →
  _config w' = Some r ∧ holds_section r w'.
Proof.
  intros HT HI Hrun. split; [by eapply get_config_Ok|].
  destruct (_config w) as [r0|] eqn:Hc.
  - rewrite (get_config_cached _ _ _ _ Hc) in Hrun. injection Hrun as <- <-. by apply HI.
  - rewrite (get_config_unset _ _ _ Hc) in Hrun.
    destruct (initialize_config T E None w) as [[r1|e] w1] eqn:Hi; [|done].
    injection Hrun as <- <-. by apply (initialize_config_section E None w r1 w1).
Qed.

Lemma get_config_singleton_ok E : shipped T → preserves singleton_ok (get_config T E).
Proof.
  intros HT w HI. destruct (get_config T E w) as [[r|e] w'] eqn:Hrun.
  - destruct (get_config_section E w r w' HT HI Hrun) as [Hc Hs].
    intros r'. simpl. rewrite Hc. by intros [= <-].
  - destruct (_config w) as [r0|] eqn:Hc.
    + by rewrite (get_config_cached _ _ _ _ Hc) in Hrun.
    + rewrite (get_config_unset _ _ _ Hc) in Hrun.
      pose proof (initialize_config_unset E None w) as Hn.
      destruct (initialize_config T E None w) as [[r1|e1] w1]; [done|].
      injection Hrun as _ <-. intros r'. simpl in *. by rewrite Hn.
Qed.

(** The singleton is [r] and holds the section. *)
Definition section_at (r : nat) (w : world) : Prop :=
  _config w = Some r ∧ holds_section r w.

Lemma alloc_section_at r o : preserves (section_at r) (alloc o).
Proof. intros w H. exact H. Qed.

Lemma deref_section_at r l : preserves (section_at r) (deref l).
Proof. intros w H. unfold deref. by destruct (heap w !! l). Qed.

Lemma deref_config_section_at r c : preserves (section_at r) (deref_config c).
Proof. intros w H. unfold deref_config. by destruct (configs w !! c). Qed.

Lemma store_section_at r (f : custom_region → result custom_region) :
  shipped T →
  (∀ cu cu', f cu = Ok cu' → ∃ x, cu' = store cu (tool_name T) x) →
  preserves (section_at r) (update_custom r f).
Proof.
  intros HT Hf w (Hc & cfg & v & Hcfg & Hp & He). unfold update_custom. mrun.
  rewrite Hcfg. mrun. destruct (f (custom cfg)) as [cu'|e] eqn:Hfc; simpl.
  - split; [done|]. destruct (Hf _ _ Hfc) as [x ->].
    eexists _, x. split; [|split].
    + apply list_lookup_insert_eq. by eapply lookup_lt_Some.
    + by apply plain_store.
    + simpl. by rewrite entries_store, lookup_insert_eq.
  - split; [done|]. by exists cfg, v.
Qed.

Lemma setitem_store cu cu' key x : setitem cu key x = Ok cu' → ∃ y, cu' = store cu key y.
Proof. destruct cu; [|done]. intros [= <-]. by exists x. Qed.

Lemma setattr_store cu cu' key x : setattr cu key x = Ok cu' → ∃ y, cu' = store cu key y.
Proof. destruct cu; [done|]. intros [= <-]. by exists x. Qed.

Lemma read_section_section_at r : preserves (section_at r) (read_section T r).
Proof.
  unfold read_section, custom_of.
  pose proof (alloc_section_at r). pose proof (deref_config_section_at r).
  preserves_tac.
Qed.

Lemma write_section_section_at r tc v :
  shipped T → preserves (section_at r) (write_section T r tc v).
Proof.
  intros HT. unfold write_section, custom_of, isinstance_dict, dict_copy, update_method.
  pose proof (alloc_section_at r). pose proof (deref_section_at r).
  pose proof (deref_config_section_at r).
  assert (∀ x, preserves (section_at r)
                 (update_custom r (λ c, setitem c (tool_name T) x)))
    by (intros x; apply store_section_at; [done|]; intros; by eapply setitem_store).
  assert (∀ x, preserves (section_at r)
                 (update_custom r (λ c, setattr c (tool_name T) x)))
    by (intros x; apply store_section_at; [done|]; intros; by eapply setattr_store).
  destruct tc; destruct v; preserves_tac.
Qed.

Lemma section_at_singleton_ok r w : section_at r w → singleton_ok w.
Proof. intros [Hc Hs] r'. rewrite Hc. by intros [= <-]. Qed.

Lemma get_tool_config_singleton_ok E : shipped T → preserves singleton_ok (get_tool_config T E).
Proof.
  intros HT w HI. rewrite get_tool_config_unfold, bind_run.
  pose proof (get_config_singleton_ok E HT w HI) as HI0.
  destruct (get_config T E w) as [[r|e] w0] eqn:Hg; [|done].
  apply (section_at_singleton_ok r), read_section_section_at.
  by apply (get_config_section E w).
Qed.

Lemma update_tool_config_singleton_ok E v :
  shipped T → preserves singleton_ok (update_tool_config T E v).
Proof.
  intros HT w HI. rewrite update_tool_config_after_get.
  pose proof (get_config_singleton_ok E HT w HI) as HI0.
  destruct (get_config T E w) as [[r|e] w0] eqn:Hg; [|done].
  destruct (get_config_section E w r w0 HT HI Hg) as [Hc Hs].
  rewrite (update_tool_config_populated T E v w0 r Hc).
  apply (section_at_singleton_ok r).
  apply (preserves_bind (section_at r)); [apply read_section_section_at| |by split].
  intros tc. by apply write_section_section_at.
Qed.

Lemma run_calls_singleton_ok cs w :
  shipped T → singleton_ok w → singleton_ok (run_calls T cs w).
Proof.
  intros HT. revert w. induction cs as [|c cs IH]; intros w H; simpl; [done|].
  apply IH. destruct c; simpl.
  - intros r. by rewrite initialize_config_unset.
  - by apply get_config_singleton_ok.
  - by apply get_tool_config_singleton_ok.
  - by apply update_tool_config_singleton_ok.
Qed.

End has_section.

(** X19. In a run that started in a fresh process the populated
    singleton always holds the tool's section, whatever calls came before
    and however they ended. So [get_tool_config()] returns the stored
    section itself, never the empty dict it has as a fallback. *)
Theorem singleton_has_section T cs E r :
  shipped T →
  _config (run_calls T cs initial_world) = Some r →
  ∃ v, section_of T (run_calls T cs initial_world) r = Some v ∧
       (get_tool_config T E (run_calls T cs initial_world)).1 = Ok v.
Proof.
  intros HT Hr.
  assert (HI : singleton_ok T (run_calls T cs initial_world)).
  { apply run_calls_singleton_ok; [done|]. by intros r'. }
  destruct (HI r Hr) as (cfg & v & Hc & Hp & He).
  exists v. split.
  - unfold section_of. rewrite Hc. exact He.
  - rewrite (get_tool_config_cached T E _ r cfg Hr Hc Hp). by rewrite He.
Qed.

Lemma singleton_has_section_witness :
  ∃ v, section_of quackmetadata
         (run_calls quackmetadata [GetConfig env_fine; UpdateToolConfig env_fine VNone]
            initial_world) 0%nat = Some v ∧
       (get_tool_config quackmetadata env_fine
          (run_calls quackmetadata [GetConfig env_fine; UpdateToolConfig env_fine VNone]
             initial_world)).1 = Ok v.
Proof.
  apply (singleton_has_section quackmetadata
           [GetConfig env_fine; UpdateToolConfig env_fine VNone] env_fine 0%nat);
    [by left | vm_compute; reflexivity].
Defined.

(** ** Level names that are no level *)

(** The initialization of a host whose section is a dict, up to the
    logging part. *)
Lemma initialize_config_with_level T E p objs cfg l d lvl w :
  load_config E p = Ok (Loaded objs cfg) →
  plain (custom cfg) → entries (custom cfg) !! tool_name T = Some (VRef l) →
  (heap w ++ objs) !! l = Some (ODict d) →
  logging.getattr (logging_attribute E) (default (VStr "INFO") (d !! "log_level"))
    (VInt logging.INFO) = Ok lvl →
  initialize_config T E p w
  = configure_logging T E (length (configs w)) lvl (present_world objs cfg w).
Proof.
  intros Hl Hp Hn Hh Hg.
  rewrite (initialize_config_present T E p objs cfg _ w Hl Hp Hn).
  fold (present_world objs cfg w).
  erewrite bind_ok; last first.
  { apply read_log_level_name_dict with (d := d). by apply present_world_heap. }
  rewrite bind_run. unfold lift at 1. by rewrite Hg.
Qed.

(** The section's level is the name [name]. *)
Definition env_level (name : string) : env :=
  {| load_config := λ _, Ok (Loaded [ODict {[ "log_level" := VStr name ]}]
                               (mkQuackConfig (Mapping {[ "quackmetadata" := VRef 0 ]}) None));
     PYTEST_CURRENT_TEST := false;
     mkdir := λ _, None;
     open_append := λ _ _, None;
     logging_attribute := logging_3_11 |}.

(** X20. The fallback of the level lookup: when the configured
    [log_level] names no attribute of the [logging] module at all, an
    [initialize_config] that returns has set the root logger to INFO. *)
Theorem absent_attribute_falls_back T E p objs cfg l d s w r w' :
  load_config E p = Ok (Loaded objs cfg) →
  plain (custom cfg) → entries (custom cfg) !! tool_name T = Some (VRef l) →
  (heap w ++ objs) !! l = Some (ODict d) →
  d !! "log_level" = Some (VStr s) →
  logging.namespace !! s = None → logging_attribute E s = None →
  initialize_config T E p w = (Ok r, w') →
  root_level w' = logging.INFO.
Proof.
  intros Hl Hp Hn Hh Hd Hs Ho Hrun.
  destruct (unknown_name_falls_back (logging_attribute E) s Hs Ho) as [Hget Hz].
  rewrite (initialize_config_with_level T E p objs cfg l d (VInt logging.INFO) w
             Hl Hp Hn Hh) in Hrun by (by rewrite Hd).
  destruct (PYTEST_CURRENT_TEST E) eqn:Ht.
  - rewrite configure_logging_test in Hrun by done.
    rewrite (basicConfig_ok _ _ _ Hz) in Hrun.
    destruct (mkdir E "./logs"); [done|]. by injection Hrun as _ <-.
  - rewrite (configure_logging_normal _ _ _ _ _ _ Ht Hz) in Hrun. cbv zeta in Hrun.
    destruct (configs _ !! _) as [c|]; [|done].
    destruct (Path _) as [dir|e]; [|done].
    destruct (mkdir E dir) as [e|]; [done|].
    destruct (open_append E dir (log_file_name T)) as [e|].
    + destruct (is_OSError e); [|done]. injection Hrun as _ <-.
      apply normal_prepared_root_level.
    + injection Hrun as _ <-. simpl. apply normal_prepared_root_level.
Qed.

Lemma absent_attribute_falls_back_witness :
  root_level (initialize_config quackmetadata (env_level "verbose") None initial_world).2
  = 20%Z.
Proof.
  apply (absent_attribute_falls_back quackmetadata (env_level "verbose") None
           [ODict {[ "log_level" := VStr "verbose" ]}]
           (mkQuackConfig (Mapping {[ "quackmetadata" := VRef 0 ]}) None)
           0%nat {[ "log_level" := VStr "verbose" ]} "verbose" initial_world 0%nat);
    [reflexivity | exact I | reflexivity | reflexivity | reflexivity
    | vm_compute; reflexivity | vm_compute; reflexivity | vm_compute; reflexivity].
Defined.

(** X21. Any other attribute of the [logging] module is taken for the
    level: when the configured [log_level] names an attribute whose value
    [setLevel] does not accept (a module such as [os], a class, a string
    that is no level name), [initialize_config] raises the [TypeError] or
    [ValueError] of [setLevel] instead of falling back to INFO. *)
Theorem other_attribute_is_no_level T E p objs cfg l d s v e w :
  load_config E p = Ok (Loaded objs cfg) →
  plain (custom cfg) → entries (custom cfg) !! tool_name T = Some (VRef l) →
  (heap w ++ objs) !! l = Some (ODict d) →
  d !! "log_level" = Some (VStr s) →
  logging.namespace !! s = None → logging_attribute E s = Some v →
  _checkLevel v = Raise e → v ≠ VNone →
  (initialize_config T E p w).1 = Raise e.
Proof.
  intros Hl Hp Hn Hh Hd Hs Ho Hz Hv.
  rewrite (initialize_config_with_level T E p objs cfg l d v w Hl Hp Hn Hh)
    by (rewrite Hd; simpl default; unfold logging.getattr; by rewrite Hs, Ho).
  destruct (PYTEST_CURRENT_TEST E) eqn:Ht.
  - rewrite configure_logging_test by done. by rewrite (basicConfig_raise _ e).
  - by rewrite (configure_logging_normal_raise _ _ _ _ e).
Qed.

Lemma other_attribute_is_no_level_witness :
  (initialize_config quackmetadata (env_level "os") None initial_world).1 = Raise TypeError ∧
  (initialize_config quackmetadata (env_level "__name__") None initial_world).1
  = Raise ValueError.
Proof.
  split.
  - apply (other_attribute_is_no_level quackmetadata (env_level "os") None
             [ODict {[ "log_level" := VStr "os" ]}]
             (mkQuackConfig (Mapping {[ "quackmetadata" := VRef 0 ]}) None)
             0%nat {[ "log_level" := VStr "os" ]} "os" (VOpaque "os") TypeError
             initial_world);
      [reflexivity | exact I | reflexivity | reflexivity | reflexivity
      | vm_compute; reflexivity | vm_compute; reflexivity | reflexivity | done].
  - apply (other_attribute_is_no_level quackmetadata (env_level "__name__") None
             [ODict {[ "log_level" := VStr "__name__" ]}]
             (mkQuackConfig (Mapping {[ "quackmetadata" := VRef 0 ]}) None)
             0%nat {[ "log_level" := VStr "__name__" ]} "__name__" (VStr "logging")
             ValueError initial_world);
      [reflexivity | exact I | reflexivity | reflexivity | reflexivity
      | vm_compute; reflexivity | vm_compute; reflexivity | vm_compute; reflexivity
      | done].
Defined.
